(** * go-coin: validation and mining engine

    A shallow embedding of [types.go] and [node.go].  Go objects reached
    through pointers ([*Block], [*BlockBody], [*Transaction],
    [*TransactionBody]) live in a typed heap; Go functions are computations
    in a state-and-error monad over that heap, the wall clock read by
    [time.Now] and the entropy read by [rand.Reader].  The cryptographic
    primitives (SHA-256, ECDSA over a fixed curve) and [time.Time] are an
    interface, [Primitives]. *)

From Stdlib Require Import ZArith NArith Strings.Byte Ascii String List Lia.
From stdpp Require Import base option list gmap strings fin_maps.

Open Scope Z_scope.

(** ** Machine integers and bytes *)

(** [uint32] values are integers in [0, 2^32); arithmetic wraps. *)
Definition wrap32 (z : Z) : Z := z mod 2 ^ 32.
Definition add32 (a b : Z) : Z := wrap32 (a + b).
Definition sub32 (a b : Z) : Z := wrap32 (a - b).
Definition uint32 (z : Z) : Prop := 0 <= z < 2 ^ 32.

Definition byte_of_Z (z : Z) : byte :=
  match Byte.of_N (Z.to_N (z mod 256)) with
  | Some b => b
  | None => x00
  end.

(** [binary.Write(h, binary.LittleEndian, v)] for a [uint32]. *)
Definition le32 (v : Z) : list byte :=
  [ byte_of_Z v; byte_of_Z (v / 2 ^ 8); byte_of_Z (v / 2 ^ 16); byte_of_Z (v / 2 ^ 24) ].

Definition hexdigit (n : N) : ascii :=
  match n with
  | 0%N => "0" | 1%N => "1" | 2%N => "2" | 3%N => "3"
  | 4%N => "4" | 5%N => "5" | 6%N => "6" | 7%N => "7"
  | 8%N => "8" | 9%N => "9" | 10%N => "a" | 11%N => "b"
  | 12%N => "c" | 13%N => "d" | 14%N => "e" | _ => "f"
  end%char.

(** [hex.EncodeToString] *)
Fixpoint hex_EncodeToString (data : list byte) : string :=
  match data with
  | [] => EmptyString
  | b :: rest =>
      String (hexdigit (Byte.to_N b / 16))
        (String (hexdigit (Byte.to_N b mod 16)) (hex_EncodeToString rest))
  end.

#[global] Instance byte_eq_dec : EqDecision byte := Byte.byte_eq_dec.

(** [bytes.Equal] *)
Definition bytes_Equal (a b : list byte) : bool := bool_decide (a = b).

(** [bits.LeadingZeros8] *)
Definition bits_LeadingZeros8 (b : byte) : Z := 8 - Z.of_N (N.size (Byte.to_N b)).

(** ** Constants ([types.go], [node.go]) *)

Definition CurrentVersion : Z := 1.
Definition GenesisId : Z := 0.
Definition MinimumRequiredLeadingZeros : Z := 1.
Definition MiningReward : Z := 10.

(** Number of values of a [uint32] nonce. *)
Definition NonceSpace : nat := Z.to_nat (2 ^ 32).

(** ** Errors

    The Go code returns [fmt.Errorf] strings; one constructor per
    distinct return site of [verifyExceptNonce] and [Mine], plus the two
    library errors that are passed through. *)
Inductive Error :=
| VersionMismatch          (* "... has invalid version %d, want %d" *)
| IdMismatch               (* "... has invalid id ..." / "... is genesis block, want id %d" *)
| PrevHashMismatch         (* "... has invalid prev hash ..." *)
| NonMonotonicTimestamp    (* "... not after head block timestamp ..." *)
| FutureTimestamp          (* "... not before or equal to now ..." *)
| EmptyBlock               (* "... contains no transactions" *)
| SignatureCountMismatch   (* "... has %d input txns != %d owner signatures" *)
| UnknownInput             (* "... references input txn %s that does not exist" *)
| InvalidSignature         (* "... contains invalid signature" *)
| ValueMismatch            (* "... has unexpected input value %d, want %d" *)
| InsufficientInputValue   (* "... has input value %d less than change + fee %d" *)
| CoinbaseValueMismatch    (* "... coinbase txn has input value %d, expected %d" *)
| NonceSpaceExhausted      (* "... has no valid nonces" *)
| MarshalTextError         (* error of time.Time.MarshalText *)
| SignError.               (* error of ecdsa.Sign *)

(** Outcome of a Go call: a value, a returned [error], a run-time panic
    (nil or dangling pointer dereference), or the loop bound of the model
    reached. *)
Inductive Res (A : Type) : Type :=
| Ok (a : A)
| Err (e : Error)
| Panic
| OutOfFuel.
Arguments Ok {A} a.
Arguments Err {A} e.
Arguments Panic {A}.
Arguments OutOfFuel {A}.

(** ** Library primitives

    Keys and the two integers of a signature are values: a nil
    [*ecdsa.PublicKey], [*ecdsa.PrivateKey] or [*big.Int], on which
    [elliptic.MarshalCompressed], [ecdsa.Sign] and [ecdsa.Verify] panic,
    has no counterpart here.  [Panic] stands for the dereference of a nil
    pointer to a block, a block body, a transaction or a transaction body,
    and for an index out of range. *)

Record PublicKey := { pk_X : Z; pk_Y : Z }.
Record PrivateKey := { sk_Public : PublicKey; sk_D : Z }.

Class Primitives := {
  Time : Type;
  (** [t.After(u)] *)
  Time_After : Time -> Time -> bool;
  (** [t.MarshalText()]: [None] is the error return. *)
  Time_MarshalText : Time -> option (list byte);
  (** digest of everything written to [sha256.New()] *)
  sha256 : list byte -> list byte;
  elliptic_MarshalCompressed : PublicKey -> list byte;
  ecdsa_Verify : PublicKey -> list byte -> Z -> Z -> bool;
  (** [ecdsa.Sign(rand.Reader, priv, hash)]: the first argument is the
      entropy drawn from the reader, [None] is the error return. *)
  ecdsa_Sign : Z -> PrivateKey -> list byte -> option (Z * Z)
}.

(** ** Data model ([types.go]) *)

Definition ptr := positive.

Record OwnerSignature := { sig_R : Z; sig_S : Z }.

Record TransactionBody := {
  InputTransactionHashes : list (list byte);
  NextOwner : PublicKey;
  InputValue : Z;
  Change : Z;
  Fee : Z
}.

Record Transaction := {
  tx_Body : ptr;                      (* *TransactionBody *)
  tx_BodyHash : list byte;
  OwnerSignatures : list OwnerSignature;
  isCoinbase : bool
}.

(** The records that hold a [time.Time] take its type as a parameter;
    [BlockBody], [Heap] and [World] are these records at the [Time] of the
    primitives in scope. *)
Record BlockBody_ {T : Type} := {
  Version : Z;
  Id : Z;
  PrevHash : list byte;
  Transactions : list ptr;            (* []*Transaction *)
  Nonce : Z;
  Time_ : T
}.
Abbreviation BlockBody := (@BlockBody_ Time).

Record Block := {
  Body : ptr;                         (* *BlockBody *)
  BodyHash : list byte;
  bodyStaticHash : list byte
}.

Record Chain := { Blocks : list ptr }. (* []*Block *)
Record Node := { Chain_ : Chain }.

Definition NewChain (blocks : list ptr) : Chain := {| Blocks := blocks |}.
Definition NewNode (chain : Chain) : Node := {| Chain_ := chain |}.

(** ** Heap and world *)

Record Heap_ {T : Type} := {
  h_blocks : gmap ptr Block;
  h_bodies : gmap ptr (@BlockBody_ T);
  h_txns : gmap ptr Transaction;
  h_tbodies : gmap ptr TransactionBody
}.
Abbreviation Heap := (@Heap_ Time).

Record World_ {T : Type} := {
  heap : @Heap_ T;
  clock : nat -> T;      (* successive readings of the wall clock *)
  ticks : nat;           (* number of readings taken so far *)
  entropy : nat -> Z;    (* successive draws from rand.Reader *)
  drawn : nat
}.
Abbreviation World := (@World_ Time).

Section Monad.
Context `{P : Primitives}.

Definition set_heap (h : Heap) (w : World) : World :=
  {| heap := h; clock := clock w; ticks := ticks w;
     entropy := entropy w; drawn := drawn w |}.

(** ** The monad *)

Definition M (A : Type) : Type := World -> Res A * World.

Definition ret {A} (a : A) : M A := fun w => (Ok a, w).

Definition bind {A B} (m : M A) (k : A -> M B) : M B :=
  fun w =>
    match m w with
    | (Ok a, w') => k a w'
    | (Err e, w') => (Err e, w')
    | (Panic, w') => (Panic, w')
    | (OutOfFuel, w') => (OutOfFuel, w')
    end.

Definition fail {A} (e : Error) : M A := fun w => (Err e, w).
Definition panic {A} : M A := fun w => (Panic, w).
Definition lift {A} (r : Res A) : M A := fun w => (r, w).

End Monad.

Notation "x <- m ;; k" := (bind m (fun x => k))
  (at level 100, m at next level, k at level 200, right associativity).
Notation "m ;;; k" := (bind m (fun _ => k))
  (at level 100, k at level 200, right associativity).

Section Engine.
Context `{P : Primitives}.

(** A [for _, x := range l] loop threading the variables it updates;
    a [return] inside the body leaves the loop through [Err]. *)
Fixpoint foldM {A B} (f : B -> A -> M B) (l : list A) (b : B) : M B :=
  match l with
  | [] => ret b
  | a :: l' => b' <- f b a ;; foldM f l' b'
  end.

(** *** Pointer dereference, field update and allocation *)

Definition deref_block (p : ptr) : M Block := fun w =>
  match h_blocks (heap w) !! p with Some b => (Ok b, w) | None => (Panic, w) end.
Definition deref_body (p : ptr) : M BlockBody := fun w =>
  match h_bodies (heap w) !! p with Some b => (Ok b, w) | None => (Panic, w) end.
Definition deref_txn (p : ptr) : M Transaction := fun w =>
  match h_txns (heap w) !! p with Some t => (Ok t, w) | None => (Panic, w) end.
Definition deref_tbody (p : ptr) : M TransactionBody := fun w =>
  match h_tbodies (heap w) !! p with Some t => (Ok t, w) | None => (Panic, w) end.

Definition heap_set_block (p : ptr) (b : Block) (h : Heap) : Heap :=
  {| h_blocks := <[p := b]> (h_blocks h); h_bodies := h_bodies h;
     h_txns := h_txns h; h_tbodies := h_tbodies h |}.
Definition heap_set_body (p : ptr) (b : BlockBody) (h : Heap) : Heap :=
  {| h_blocks := h_blocks h; h_bodies := <[p := b]> (h_bodies h);
     h_txns := h_txns h; h_tbodies := h_tbodies h |}.
Definition heap_set_txn (p : ptr) (t : Transaction) (h : Heap) : Heap :=
  {| h_blocks := h_blocks h; h_bodies := h_bodies h;
     h_txns := <[p := t]> (h_txns h); h_tbodies := h_tbodies h |}.
Definition heap_set_tbody (p : ptr) (t : TransactionBody) (h : Heap) : Heap :=
  {| h_blocks := h_blocks h; h_bodies := h_bodies h;
     h_txns := h_txns h; h_tbodies := <[p := t]> (h_tbodies h) |}.

(** Assignment through a pointer: panics when the pointer is nil. *)
Definition store_block (p : ptr) (f : Block -> Block) : M unit := fun w =>
  match h_blocks (heap w) !! p with
  | Some b => (Ok tt, set_heap (heap_set_block p (f b) (heap w)) w)
  | None => (Panic, w)
  end.
Definition store_body (p : ptr) (f : BlockBody -> BlockBody) : M unit := fun w =>
  match h_bodies (heap w) !! p with
  | Some b => (Ok tt, set_heap (heap_set_body p (f b) (heap w)) w)
  | None => (Panic, w)
  end.

(** [&Block{...}], [&Transaction{...}] and the composite literals of the
    callers: a fresh address. *)
Definition new_block (b : Block) : M ptr := fun w =>
  let p := fresh (dom (h_blocks (heap w))) in
  (Ok p, set_heap (heap_set_block p b (heap w)) w).
Definition new_body (b : BlockBody) : M ptr := fun w =>
  let p := fresh (dom (h_bodies (heap w))) in
  (Ok p, set_heap (heap_set_body p b (heap w)) w).
Definition new_txn (t : Transaction) : M ptr := fun w =>
  let p := fresh (dom (h_txns (heap w))) in
  (Ok p, set_heap (heap_set_txn p t (heap w)) w).
Definition new_tbody (t : TransactionBody) : M ptr := fun w =>
  let p := fresh (dom (h_tbodies (heap w))) in
  (Ok p, set_heap (heap_set_tbody p t (heap w)) w).

(** [time.Now()] *)
Definition time_Now : M Time := fun w =>
  (Ok (clock w (ticks w)),
   {| heap := heap w; clock := clock w; ticks := S (ticks w);
      entropy := entropy w; drawn := drawn w |}).

(** One read of [rand.Reader]. *)
Definition rand_Reader : M Z := fun w =>
  (Ok (entropy w (drawn w)),
   {| heap := heap w; clock := clock w; ticks := ticks w;
      entropy := entropy w; drawn := S (drawn w) |}).

(** ** [types.go] *)

Definition set_Nonce (nonce : Z) (b : BlockBody) : BlockBody :=
  {| Version := Version b; Id := Id b; PrevHash := PrevHash b;
     Transactions := Transactions b; Nonce := nonce; Time_ := Time_ b |}.
Definition set_Time (time : Time) (b : BlockBody) : BlockBody :=
  {| Version := Version b; Id := Id b; PrevHash := PrevHash b;
     Transactions := Transactions b; Nonce := Nonce b; Time_ := time |}.
Definition set_BodyHash (bodyHash : list byte) (b : Block) : Block :=
  {| Body := Body b; BodyHash := bodyHash; bodyStaticHash := bodyStaticHash b |}.

(** The writes to a [sha256.New()] never fail; the digest is the hash of
    the bytes written, in order. *)
Definition calculateBodyHash (bodyStaticHash : list byte) (nonce : Z) (time : Time)
  : Res (list byte) :=
  match Time_MarshalText time with
  | None => Err MarshalTextError
  | Some timeText => Ok (sha256 (bodyStaticHash ++ le32 nonce ++ timeText))
  end.

Definition staticHash (b : ptr) : M (list byte) :=
  body <- deref_body b ;;
  h <- foldM (fun h transaction =>
                tx <- deref_txn transaction ;; ret (h ++ tx_BodyHash tx))
         (Transactions body)
         (le32 (Version body) ++ le32 (Id body) ++ PrevHash body) ;;
  ret (sha256 h).

Definition NewBlock (body : ptr) : M ptr :=
  bodyStaticHash <- staticHash body ;;
  b <- deref_body body ;;
  bodyHash <- lift (calculateBodyHash bodyStaticHash (Nonce b) (Time_ b)) ;;
  new_block {| Body := body; BodyHash := bodyHash; bodyStaticHash := bodyStaticHash |}.

Definition SetFields (b : ptr) (nonce : Z) (time : Time) : M unit :=
  blk <- deref_block b ;;
  store_body (Body blk) (set_Nonce nonce) ;;;
  store_body (Body blk) (set_Time time) ;;;
  body <- deref_body (Body blk) ;;
  bodyHash <- lift (calculateBodyHash (bodyStaticHash blk) (Nonce body) (Time_ body)) ;;
  store_block b (set_BodyHash bodyHash).

Definition Block_String (b : ptr) : M string :=
  blk <- deref_block b ;; ret (hex_EncodeToString (BodyHash blk)).

Definition TransactionBody_hash (t : ptr) : M (list byte) :=
  body <- deref_tbody t ;;
  ret (sha256 (concat (InputTransactionHashes body)
               ++ elliptic_MarshalCompressed (NextOwner body)
               ++ le32 (InputValue body) ++ le32 (Change body) ++ le32 (Fee body))).

(** Lines 166-176: the signing loop, from the signatures made so far. *)
Definition signAll (bodyHash : list byte) (privs : list PrivateKey)
    (ownerSignatures : list OwnerSignature) : M (list OwnerSignature) :=
  foldM (fun ownerSignatures priv =>
           k <- rand_Reader ;;
           match ecdsa_Sign k priv bodyHash with
           | None => fail SignError
           | Some (r, s) => ret (ownerSignatures ++ [ {| sig_R := r; sig_S := s |} ])
           end)
    privs ownerSignatures.

Definition NewTransaction (body : ptr) (privs : list PrivateKey) (isCoinbase : bool)
  : M ptr :=
  bodyHash <- TransactionBody_hash body ;;
  ownerSignatures <- signAll bodyHash privs [] ;;
  new_txn {| tx_Body := body; tx_BodyHash := bodyHash;
             OwnerSignatures := ownerSignatures; isCoinbase := isCoinbase |}.

Definition Transaction_String (t : ptr) : M string :=
  tx <- deref_txn t ;; ret (hex_EncodeToString (tx_BodyHash tx)).

Definition OutputValue (t : ptr) : M Z :=
  tx <- deref_txn t ;;
  body <- deref_tbody (tx_Body tx) ;;
  if negb (isCoinbase tx)
  then ret (sub32 (sub32 (InputValue body) (Change body)) (Fee body))
  else ret (InputValue body).

(** ** [node.go] *)

Fixpoint leadingZeros_from (count : Z) (data : list byte) : Z :=
  match data with
  | [] => count
  | b :: rest =>
      if bool_decide (b = x00) then leadingZeros_from (count + 8) rest
      else count + bits_LeadingZeros8 b
  end.

Definition leadingZeros (data : list byte) : Z := leadingZeros_from 0 data.

Definition nonceIsValid (block : ptr) : M bool :=
  blk <- deref_block block ;;
  ret (MinimumRequiredLeadingZeros <=? leadingZeros (BodyHash blk)).

(** Lines 106-110: every transaction of every prior block enters the
    lookup under the hex text of its hash. *)
Definition indexTransaction (allTransactions : gmap string ptr) (transaction : ptr)
  : M (gmap string ptr) :=
  tx <- deref_txn transaction ;;
  ret (<[hex_EncodeToString (tx_BodyHash tx) := transaction]> allTransactions).

Definition indexBlock (allTransactions : gmap string ptr) (block : ptr)
  : M (gmap string ptr) :=
  blk <- deref_block block ;;
  body <- deref_body (Body blk) ;;
  foldM indexTransaction (Transactions body) allTransactions.

(** Lines 121-131, for the transaction [tx] already dereferenced at
    line 117; [i] is the index of the head of [hashes]. *)
Fixpoint verifyInputs (allTransactions : gmap string ptr) (tx : Transaction)
    (i : nat) (hashes : list (list byte)) (expectedInputValue : Z) : M Z :=
  match hashes with
  | [] => ret expectedInputValue
  | inputTransactionHash :: rest =>
      match allTransactions !! hex_EncodeToString inputTransactionHash with
      | None => fail UnknownInput
      | Some inputTransaction =>
          match OwnerSignatures tx !! i with
          | None => panic
          | Some inputOwnerSignature =>
              itx <- deref_txn inputTransaction ;;
              ibody <- deref_tbody (tx_Body itx) ;;
              if negb (ecdsa_Verify (NextOwner ibody) (tx_BodyHash tx)
                         (sig_R inputOwnerSignature) (sig_S inputOwnerSignature))
              then fail InvalidSignature
              else
                v <- OutputValue inputTransaction ;;
                verifyInputs allTransactions tx (S i) rest (add32 expectedInputValue v)
          end
      end
  end.

(** Lines 117-140: one iteration of the loop over
    [newBlock.Body.Transactions[1:]], on the lookup and the running fees. *)
Definition verifyTransaction (st : gmap string ptr * Z) (transaction : ptr)
  : M (gmap string ptr * Z) :=
  tx <- deref_txn transaction ;;
  body <- deref_tbody (tx_Body tx) ;;
  if negb (length (InputTransactionHashes body) =? length (OwnerSignatures tx))%nat
  then fail SignatureCountMismatch
  else
    expectedInputValue <-
      verifyInputs (fst st) tx 0 (InputTransactionHashes body) 0 ;;
    if negb (expectedInputValue =? InputValue body) then fail ValueMismatch
    else if InputValue body <? add32 (Change body) (Fee body)
    then fail InsufficientInputValue
    else ret (<[hex_EncodeToString (tx_BodyHash tx) := transaction]> (fst st),
              add32 (snd st) (Fee body)).

(** Lines 79-94. *)
Definition verifyLink (blocks : list ptr) (nbody : BlockBody) : M unit :=
  match last blocks with
  | Some headBlock =>
      hb <- deref_block headBlock ;;
      hbody <- deref_body (Body hb) ;;
      if negb (Id nbody =? add32 (Id hbody) 1) then fail IdMismatch
      else if negb (bytes_Equal (PrevHash nbody) (BodyHash hb))
      then fail PrevHashMismatch
      else if negb (Time_After (Time_ nbody) (Time_ hbody))
      then fail NonMonotonicTimestamp
      else ret tt
  | None =>
      if negb (Id nbody =? GenesisId) then fail IdMismatch else ret tt
  end.

Definition verifyExceptNonce (blocks : list ptr) (newBlock : ptr) : M unit :=
  nb <- deref_block newBlock ;;
  nbody <- deref_body (Body nb) ;;
  if negb (Version nbody =? CurrentVersion) then fail VersionMismatch
  else
    verifyLink blocks nbody ;;;
    now <- time_Now ;;
    if Time_After (Time_ nbody) now then fail FutureTimestamp
    else
      match Transactions nbody with
      | [] => fail EmptyBlock
      | coinBaseTransaction :: rest =>
          allTransactions <- foldM indexBlock blocks ∅ ;;
          cb <- deref_txn coinBaseTransaction ;;
          st <- foldM verifyTransaction rest
                  (<[hex_EncodeToString (tx_BodyHash cb) := coinBaseTransaction]>
                     allTransactions, 0) ;;
          cbody <- deref_tbody (tx_Body cb) ;;
          if negb (InputValue cbody =? add32 (snd st) MiningReward)
          then fail CoinbaseValueMismatch
          else ret tt
      end.

(** Lines 39-54: the nonce search.  [fuel] bounds the iterations of the
    model; [Mine] runs it with one unit per [uint32] value. *)
Fixpoint Mine_loop (fuel : nat) (newBlock : ptr) (nonce : Z) : M unit :=
  match fuel with
  | O => lift OutOfFuel
  | S fuel' =>
      now <- time_Now ;;
      SetFields newBlock nonce now ;;;
      valid <- nonceIsValid newBlock ;;
      if negb valid then
        let nonce' := add32 nonce 1 in
        if nonce' =? 0 then fail NonceSpaceExhausted
        else Mine_loop fuel' newBlock nonce'
      else ret tt
  end.

Definition Mine_fuel (fuel : nat) (n : Node) (newBody : ptr) : M ptr :=
  newBlock <- NewBlock newBody ;;
  verifyExceptNonce (Blocks (Chain_ n)) newBlock ;;;
  Mine_loop fuel newBlock 0 ;;;
  ret newBlock.

Definition Mine (n : Node) (newBody : ptr) : M ptr := Mine_fuel NonceSpace n newBody.

End Engine.

(** ** Specification vocabulary *)

Section Vocabulary.
Context `{P : Primitives}.

(** [frame m]: running [m] leaves every object of the heap as it was. *)
Definition frame {A} (m : M A) : Prop :=
  forall w, heap (snd (m w)) = heap w.

(** [reader m]: [m] changes nothing at all, and its outcome is a function
    of the heap. *)
Definition reader {A} (m : M A) : Prop :=
  forall w, snd (m w) = w /\ forall w', heap w' = heap w -> fst (m w') = fst (m w).

(** The body a block pointer leads to, and the body a transaction pointer
    leads to. *)
Definition block_body (h : Heap) (p : ptr) : option BlockBody :=
  match h_blocks h !! p with
  | Some b => h_bodies h !! Body b
  | None => None
  end.

Definition txn_body (h : Heap) (p : ptr) : option TransactionBody :=
  match h_txns h !! p with
  | Some t => h_tbodies h !! tx_Body t
  | None => None
  end.

(** The fee a transaction pointer carries (0 when it does not resolve). *)
Definition fee_of (h : Heap) (p : ptr) : Z :=
  match txn_body h p with Some b => Fee b | None => 0 end.

(** The running [uint32] total [newBlockFees] over a list of transactions,
    and the same total over the integers. *)
Definition blockFees (h : Heap) (txs : list ptr) : Z :=
  fold_left (fun acc p => add32 acc (fee_of h p)) txs 0.

Definition exactFees (h : Heap) (txs : list ptr) : Z :=
  fold_left (fun acc p => acc + fee_of h p) txs 0.

(** What [OutputValue] returns for the transaction a hash is indexed
    under (0 when it does not resolve). *)
Definition outputValue_of (h : Heap) (p : ptr) : option Z :=
  match h_txns h !! p with
  | Some tx =>
      match h_tbodies h !! tx_Body tx with
      | Some body =>
          Some (if isCoinbase tx then InputValue body
                else sub32 (sub32 (InputValue body) (Change body)) (Fee body))
      | None => None
      end
  | None => None
  end.

Definition referencedValue (h : Heap) (allTransactions : gmap string ptr)
    (hash : list byte) : Z :=
  match allTransactions !! hex_EncodeToString hash with
  | Some p => default 0 (outputValue_of h p)
  | None => 0
  end.

(** The [uint32] sum of the output values of the transactions a list of
    input hashes refers to. *)
Definition referencedTotal (h : Heap) (allTransactions : gmap string ptr)
    (hashes : list (list byte)) : Z :=
  fold_left (fun acc hash => add32 acc (referencedValue h allTransactions hash)) hashes 0.

(** What the validator uses of a transaction found through the lookup
    or the index: everything but its signatures and its input hashes. *)
Definition txn_view (t : Transaction) : ptr * list byte * bool :=
  (tx_Body t, tx_BodyHash t, isCoinbase t).

Definition tbody_view (b : TransactionBody) : PublicKey * Z * Z * Z :=
  (NextOwner b, InputValue b, Change b, Fee b).

(** Two heaps with the same blocks and block bodies whose transactions
    agree on those views. *)
Definition similar (h h' : Heap) : Prop :=
  h_blocks h' = h_blocks h
  /\ h_bodies h' = h_bodies h
  /\ (forall p, txn_view <$> h_txns h' !! p = txn_view <$> h_txns h !! p)
  /\ (forall q, tbody_view <$> h_tbodies h' !! q = tbody_view <$> h_tbodies h !! q).

(** The transaction at [p] and its body are the same objects in both heaps. *)
Definition same_txn (h h' : Heap) (p : ptr) : Prop :=
  h_txns h' !! p = h_txns h !! p
  /\ forall t, h_txns h !! p = Some t ->
       h_tbodies h' !! tx_Body t = h_tbodies h !! tx_Body t.

Definition set_OwnerSignatures (sigs : list OwnerSignature) (t : Transaction)
  : Transaction :=
  {| tx_Body := tx_Body t; tx_BodyHash := tx_BodyHash t;
     OwnerSignatures := sigs; isCoinbase := isCoinbase t |}.

Definition set_InputTransactionHashes (hashes : list (list byte))
    (b : TransactionBody) : TransactionBody :=
  {| InputTransactionHashes := hashes; NextOwner := NextOwner b;
     InputValue := InputValue b; Change := Change b; Fee := Fee b |}.

Definition set_isCoinbase (flag : bool) (t : Transaction) : Transaction :=
  {| tx_Body := tx_Body t; tx_BodyHash := tx_BodyHash t;
     OwnerSignatures := OwnerSignatures t; isCoinbase := flag |}.

(** The heap in which the transaction at [p] carries the signatures
    [sigs] and its body the input hashes [hashes], all else as in [h]. *)
Definition restructure (h : Heap) (p : ptr) (hashes : list (list byte))
    (sigs : list OwnerSignature) : Heap :=
  match h_txns h !! p with
  | Some t =>
      {| h_blocks := h_blocks h; h_bodies := h_bodies h;
         h_txns := <[p := set_OwnerSignatures sigs t]> (h_txns h);
         h_tbodies := alter (set_InputTransactionHashes hashes) (tx_Body t)
                        (h_tbodies h) |}
  | None => h
  end.

(** The heap in which the transaction at [p] has the coinbase flag
    [flag], all else as in [h]. *)
Definition reflag (h : Heap) (p : ptr) (flag : bool) : Heap :=
  {| h_blocks := h_blocks h; h_bodies := h_bodies h;
     h_txns := alter (set_isCoinbase flag) p (h_txns h);
     h_tbodies := h_tbodies h |}.

(** The world in which no transaction is left on the heap. *)
Definition forget_transactions (w : World) : World :=
  set_heap {| h_blocks := h_blocks (heap w); h_bodies := h_bodies (heap w);
              h_txns := ∅; h_tbodies := ∅ |} w.

(** [terminates m]: [m] never stops for want of fuel. *)
Definition terminates {A} (m : M A) : Prop :=
  forall w, fst (m w) <> OutOfFuel.

(** [quiet m]: [m] reads neither the clock nor the entropy. *)
Definition quiet {A} (m : M A) : Prop :=
  forall w, ticks (snd (m w)) = ticks w /\ clock (snd (m w)) = clock w
            /\ drawn (snd (m w)) = drawn w.

(** The block [p] is a block of the body [q] whose cached static hash [s]
    is the static hash of [q] and whose [BodyHash] is the digest of [s]
    and of the nonce and time that [q] holds. *)
Definition hashed (p q : ptr) (s : list byte) (w : World) : Prop :=
  exists blk bd,
    h_blocks (heap w) !! p = Some blk
    /\ Body blk = q
    /\ bodyStaticHash blk = s
    /\ h_bodies (heap w) !! q = Some bd
    /\ fst (staticHash q w) = Ok s
    /\ calculateBodyHash s (Nonce bd) (Time_ bd) = Ok (BodyHash blk).

(** The world after one reading of the clock. *)
Definition tick (w : World) : World := snd (time_Now w).

(** Sequencing of outcomes. *)
Definition Res_bind {A B} (r : Res A) (k : A -> Res B) : Res B :=
  match r with
  | Ok a => k a
  | Err e => Err e
  | Panic => Panic
  | OutOfFuel => OutOfFuel
  end.

(** Outcome of dereferencing a pointer found, or not, in a heap. *)
Definition deref {A} (o : option A) : Res A :=
  match o with Some a => Ok a | None => Panic end.

(** The lookup of line 112: the prior transactions plus the candidate's
    first transaction. *)
Definition seedTransactions (allTransactions : gmap string ptr)
    (coinBaseTransaction : ptr) (cb : Transaction) : gmap string ptr :=
  <[hex_EncodeToString (tx_BodyHash cb) := coinBaseTransaction]> allTransactions.

(** The digest [TransactionBody.hash] computes for a body: of its input
    hashes one after the other, its owner's compressed key and its three
    values. *)
Definition bodyHash_of (tb : TransactionBody) : list byte :=
  sha256 (concat (InputTransactionHashes tb)
          ++ elliptic_MarshalCompressed (NextOwner tb)
          ++ le32 (InputValue tb) ++ le32 (Change tb) ++ le32 (Fee tb)).

End Vocabulary.

(** ** Chains on the heap *)

Section Chains.
Context `{P : Primitives}.

(** The transaction pointers of a block, and of a list of blocks in chain
    order. *)
Definition block_txns (h : Heap) (b : ptr) : list ptr :=
  match block_body h b with Some body => Transactions body | None => [] end.

Definition chain_txns (h : Heap) (blocks : list ptr) : list ptr :=
  flat_map (block_txns h) blocks.

(** Every entry of the lookup is a transaction of [txs] filed under the
    hex text of its own hash. *)
Definition indexed (h : Heap) (allTransactions : gmap string ptr) (txs : list ptr)
  : Prop :=
  forall k p, allTransactions !! k = Some p ->
    p ∈ txs /\ exists tx, h_txns h !! p = Some tx
                          /\ k = hex_EncodeToString (tx_BodyHash tx).

(** Every transaction of [txs] that resolves has an entry under its hash. *)
Definition covered (h : Heap) (allTransactions : gmap string ptr) (txs : list ptr)
  : Prop :=
  forall p tx, p ∈ txs -> h_txns h !! p = Some tx ->
    is_Some (allTransactions !! hex_EncodeToString (tx_BodyHash tx)).

(** No pointer of the chain or of the candidate is nil or dangling. *)
Definition well_formed (h : Heap) (blocks : list ptr) (newBlock : ptr) : Prop :=
  forall b, b ∈ newBlock :: blocks ->
    is_Some (block_body h b)
    /\ forall t, t ∈ block_txns h b -> is_Some (txn_body h t).

End Chains.

(** ** Footprints *)

Section Footprints.
Context `{P : Primitives}.

(** Two block bodies with the same static fields. *)
Definition same_static (b b' : BlockBody) : Prop :=
  Version b' = Version b /\ Id b' = Id b /\ PrevHash b' = PrevHash b
  /\ Transactions b' = Transactions b.

(** From [h] to [h'] nothing has changed but the nonce and time of the
    body [q], the [BodyHash] of blocks, and the blocks allocated since. *)
Definition mined_from (q : ptr) (h h' : Heap) : Prop :=
  h_txns h' = h_txns h
  /\ h_tbodies h' = h_tbodies h
  /\ (forall q', q' <> q -> h_bodies h' !! q' = h_bodies h !! q')
  /\ (forall bd, h_bodies h !! q = Some bd ->
        exists bd', h_bodies h' !! q = Some bd' /\ same_static bd bd')
  /\ (forall p blk, h_blocks h !! p = Some blk ->
        exists blk', h_blocks h' !! p = Some blk'
                     /\ Body blk' = Body blk
                     /\ bodyStaticHash blk' = bodyStaticHash blk).

End Footprints.

(** ** Byte strings as numbers *)

(** The unsigned integer a byte string writes, most significant byte
    first. *)
Fixpoint be_value (data : list byte) : Z :=
  match data with
  | [] => 0
  | b :: rest =>
      Z.of_N (Byte.to_N b) * 2 ^ (8 * Z.of_nat (length rest)) + be_value rest
  end.

(** Number of binary digits of a natural number (0 for 0). *)
Definition bitlen (z : Z) : Z := if z =? 0 then 0 else Z.log2 z + 1.

(** Value of a lower-case hexadecimal digit. *)
Definition unhexdigit (c : ascii) : N :=
  match c with
  | "0" => 0 | "1" => 1 | "2" => 2 | "3" => 3 | "4" => 4 | "5" => 5 | "6" => 6
  | "7" => 7 | "8" => 8 | "9" => 9 | "a" => 10 | "b" => 11 | "c" => 12
  | "d" => 13 | "e" => 14 | _ => 15
  end%char%N.

(** ** A small instance of the primitives

    Used to run the engine on concrete chains.  Times are integers,
    the digest is a 32-bit polynomial checksum, and a signature [(r, s)]
    by the key [d], whose public key is [3 d], verifies on a digest [h]
    when [3 (s - r) = 3 d * h]. *)

Module Toy.

Definition digest (data : list byte) : Z :=
  fold_left (fun h b => (h * 33 + Z.of_N (Byte.to_N b) + 1) mod 2 ^ 32) data 5381.

#[export] Instance primitives : Primitives := {|
  Time := Z;
  Time_After := fun t u => u <? t;
  Time_MarshalText := fun t => if t <? 0 then None else Some (le32 t);
  sha256 := fun data => le32 (digest data);
  elliptic_MarshalCompressed := fun pk => byte_of_Z (2 + pk_Y pk mod 2) :: le32 (pk_X pk);
  ecdsa_Verify := fun pub h r s => 3 * (s - r) =? pk_X pub * digest h;
  ecdsa_Sign := fun k priv h => Some (k, sk_D priv * digest h + k)
|}.

Definition key (d : Z) : PrivateKey :=
  {| sk_Public := {| pk_X := 3 * d; pk_Y := d + 1 |}; sk_D := d |}.

Definition alice : PrivateKey := key 11.
Definition bob : PrivateKey := key 23.
Definition carol : PrivateKey := key 37.

Definition empty_heap : Heap :=
  {| h_blocks := ∅; h_bodies := ∅; h_txns := ∅; h_tbodies := ∅ |}.

(** Nothing allocated yet; the clock reads 1000, 1001, ... *)
Definition w0 : World :=
  {| heap := empty_heap; clock := fun n => 1000 + Z.of_nat n; ticks := 0;
     entropy := fun n => 7 + Z.of_nat n; drawn := 0 |}.

(** [NewTransaction(&TransactionBody{...}, privs, isCoinbase)] *)
Definition mkTransaction (inputs : list (list byte)) (nextOwner : PrivateKey)
    (inputValue change fee : Z) (privs : list PrivateKey) (isCoinbase : bool) : M ptr :=
  body <- new_tbody {| InputTransactionHashes := inputs;
                       NextOwner := sk_Public nextOwner;
                       InputValue := inputValue; Change := change; Fee := fee |} ;;
  NewTransaction body privs isCoinbase.

Definition hashOf (t : ptr) : M (list byte) :=
  tx <- deref_txn t ;; ret (tx_BodyHash tx).

(** [NewBlock(&BlockBody{...})] *)
Definition mkBlock (id : Z) (prevHash : list byte) (transactions : list ptr)
    (time : Z) : M ptr :=
  body <- new_body {| Version := CurrentVersion; Id := id; PrevHash := prevHash;
                      Transactions := transactions; Nonce := 0; Time_ := time |} ;;
  NewBlock body.

(** A one-block chain whose tip carries the largest [uint32] id, and a
    candidate with id 0 linked to it. *)
Definition wrapped_chain : M (ptr * ptr) :=
  cb0 <- mkTransaction [] alice 10 0 0 [] true ;;
  head <- mkBlock 4294967295 [] [cb0] 5 ;;
  hb <- deref_block head ;;
  cb1 <- mkTransaction [] bob 10 0 0 [] true ;;
  candidate <- mkBlock 0 (BodyHash hb) [cb1] 6 ;;
  ret (head, candidate).

(** As [wrapped_chain], with tip id 0 and candidate id 5. *)
Definition gapped_chain : M (ptr * ptr) :=
  cb0 <- mkTransaction [] alice 10 0 0 [] true ;;
  head <- mkBlock 0 [] [cb0] 5 ;;
  hb <- deref_block head ;;
  cb1 <- mkTransaction [] bob 10 0 0 [] true ;;
  candidate <- mkBlock 5 (BodyHash hb) [cb1] 6 ;;
  ret (head, candidate).

(** As [gapped_chain], with candidate id 1. *)
Definition linked_chain : M (ptr * ptr) :=
  cb0 <- mkTransaction [] alice 10 0 0 [] true ;;
  head <- mkBlock 0 [] [cb0] 5 ;;
  hb <- deref_block head ;;
  cb1 <- mkTransaction [] bob 10 0 0 [] true ;;
  candidate <- mkBlock 1 (BodyHash hb) [cb1] 6 ;;
  ret (head, candidate).

(** A genesis candidate as in the demonstration harness: a first
    transaction worth [cbValue] to alice, flagged [isCoinbase], and one
    transaction in which alice passes on its output. *)
Definition genesis (cbValue : Z) (isCoinbase : bool) (inputValue change fee : Z)
  : M ptr :=
  cb <- mkTransaction [] alice cbValue 0 0 [] isCoinbase ;;
  h <- hashOf cb ;;
  t <- mkTransaction [h] bob inputValue change fee [alice] false ;;
  mkBlock 0 [] [cb; t] 0.

(** A genesis candidate in which two transactions each spend the output
    of the first one: the second declares 10, the third [v]. *)
Definition double_spend (v : Z) : M ptr :=
  cb <- mkTransaction [] alice 10 0 0 [] true ;;
  h <- hashOf cb ;;
  t1 <- mkTransaction [h] bob 10 5 0 [alice] false ;;
  t2 <- mkTransaction [h] carol v 0 0 [alice] false ;;
  mkBlock 0 [] [cb; t1; t2] 0.

(** A genesis candidate whose first transaction has an input hash, a
    signature, change 3 and the flag [isCoinbase]; the second transaction
    spends 7 from it. *)
Definition odd_first (isCoinbase : bool) : M ptr :=
  cb <- mkTransaction [[x2a]] alice 10 3 0 [carol] isCoinbase ;;
  h <- hashOf cb ;;
  t <- mkTransaction [h] bob 7 0 0 [alice] false ;;
  mkBlock 0 [] [cb; t] 0.

(** A transaction built with a signing key and [isCoinbase = true]. *)
Definition signed_coinbase : M ptr :=
  mkTransaction [] alice 10 0 0 [bob] true.

(** The transactions and the block body of [genesis 12 true 12 5 2],
    before any block is made of them. *)
Definition genesis_body : M ptr :=
  cb <- mkTransaction [] alice 12 0 0 [] true ;;
  h <- hashOf cb ;;
  t <- mkTransaction [h] bob 12 5 2 [alice] false ;;
  new_body {| Version := CurrentVersion; Id := 0; PrevHash := [];
              Transactions := [cb; t]; Nonce := 0; Time_ := 0 |}.

(** A node on the empty chain. *)
Definition node : Node := NewNode (NewChain []).

(** Primitives under which no hash has a leading zero bit. *)
Definition hard : Primitives := {|
  Time := Z;
  Time_After := fun t u => u <? t;
  Time_MarshalText := fun t => Some (le32 t);
  sha256 := fun data => [xff];
  elliptic_MarshalCompressed := fun pk => le32 (pk_X pk);
  ecdsa_Verify := fun pub h r s => true;
  ecdsa_Sign := fun k priv h => Some (k, k)
|}.

(** Under [hard]: a body with one transaction worth the mining reward. *)
Definition hard_body : @M hard ptr :=
  tb <- new_tbody (P := hard)
          {| InputTransactionHashes := []; NextOwner := sk_Public alice;
             InputValue := 10; Change := 0; Fee := 0 |} ;;
  cb <- NewTransaction (P := hard) tb [] true ;;
  new_body (P := hard)
    {| Version := CurrentVersion; Id := 0; PrevHash := [];
       Transactions := [cb]; Nonce := 0; Time_ := 0 |}.

Definition w_hard : @World_ Z := snd (hard_body w0).

(** Genesis candidates whose second transaction is signed with the wrong
    key, names an input that does not exist, or carries no signature. *)
Definition forged : M ptr :=
  cb <- mkTransaction [] alice 10 0 0 [] true ;;
  h <- hashOf cb ;;
  t <- mkTransaction [h] bob 10 5 0 [bob] false ;;
  mkBlock 0 [] [cb; t] 0.

Definition dangling_input : M ptr :=
  cb <- mkTransaction [] alice 10 0 0 [] true ;;
  t <- mkTransaction [[x2a]] bob 10 5 0 [alice] false ;;
  mkBlock 0 [] [cb; t] 0.

Definition unsigned : M ptr :=
  cb <- mkTransaction [] alice 10 0 0 [] true ;;
  h <- hashOf cb ;;
  t <- mkTransaction [h] bob 10 5 0 [] false ;;
  mkBlock 0 [] [cb; t] 0.

(** A first transaction to alice and the body, not yet signed, of a
    transaction in which its output is passed on to bob. *)
Definition spend_body : M ptr :=
  cb <- mkTransaction [] alice 10 0 0 [] true ;;
  h <- hashOf cb ;;
  new_tbody {| InputTransactionHashes := [h]; NextOwner := sk_Public bob;
               InputValue := 10; Change := 5; Fee := 0 |}.

(** A genesis candidate stamped with a time the clock has not reached. *)
Definition future : M ptr :=
  cb <- mkTransaction [] alice 10 0 0 [] true ;;
  mkBlock 0 [] [cb] 2000.

(** Two transaction bodies that differ only in how the same input bytes
    are split into hashes. *)
Definition unframed : M ptr :=
  new_tbody {| InputTransactionHashes := [[x01]; [x02]]; NextOwner := sk_Public bob;
               InputValue := 10; Change := 5; Fee := 0 |} ;;;
  new_tbody {| InputTransactionHashes := [[x01; x02]]; NextOwner := sk_Public bob;
               InputValue := 10; Change := 5; Fee := 0 |}.

(** A genesis candidate in which three transactions each spend the
    output of the first one and each leave a fee of 2147483643: the fees
    and the reward add up to 6442450939, which as a [uint32] is
    2147483643, the value of the first transaction. *)
Definition fee_overflow : M ptr :=
  cb <- mkTransaction [] alice 2147483643 0 0 [] true ;;
  h <- hashOf cb ;;
  t1 <- mkTransaction [h] bob 2147483643 0 2147483643 [alice] false ;;
  t2 <- mkTransaction [h] carol 2147483643 0 2147483643 [alice] false ;;
  t3 <- mkTransaction [h] alice 2147483643 0 2147483643 [alice] false ;;
  mkBlock 0 [] [cb; t1; t2; t3] 0.

(** A one-block chain and a linked candidate whose two transactions are
    made of one and the same body, which spends the chain's output: the
    first without a signature, the second signed by the owner. *)
Definition shared_body : M (ptr * ptr) :=
  cb0 <- mkTransaction [] alice 10 0 0 [] true ;;
  head <- mkBlock 0 [] [cb0] 5 ;;
  hb <- deref_block head ;;
  h0 <- hashOf cb0 ;;
  body <- new_tbody {| InputTransactionHashes := [h0]; NextOwner := sk_Public bob;
                       InputValue := 10; Change := 0; Fee := 0 |} ;;
  cb <- NewTransaction body [] true ;;
  t <- NewTransaction body [alice] false ;;
  candidate <- mkBlock 1 (BodyHash hb) [cb; t] 6 ;;
  ret (head, candidate).

(** A node whose chain is the block 1. *)
Definition node1 : Node := NewNode (NewChain [1%positive]).

(** A genesis body whose first transaction claims 11. *)
Definition overpaid_body : M ptr :=
  cb <- mkTransaction [] alice 11 0 0 [] true ;;
  new_body {| Version := CurrentVersion; Id := 0; PrevHash := [];
              Transactions := [cb]; Nonce := 0; Time_ := 0 |}.

(** The worlds these scripts leave behind.  In each, block 1 is the
    first block allocated and transactions are numbered in the order of
    their construction. *)
Definition w_gapped : World := snd (gapped_chain w0).
Definition w_wrapped : World := snd (wrapped_chain w0).
Definition w_linked : World := snd (linked_chain w0).
Definition w_genesis : World := snd (genesis 12 true 12 5 2 w0).
Definition w_genesis_11 : World := snd (genesis 11 true 11 5 0 w0).
Definition w_genesis_short : World := snd (genesis 10 true 9 5 0 w0).
Definition w_double : World := snd (double_spend 10 w0).
Definition w_double_short : World := snd (double_spend 4 w0).
Definition w_overflow : World := snd (genesis 12 true 12 4294967295 2 w0).
Definition w_odd_plain : World := snd (odd_first false w0).
Definition w_odd_coinbase : World := snd (odd_first true w0).
Definition w_signed : World := snd (signed_coinbase w0).
Definition w_tbody : World :=
  snd (new_tbody {| InputTransactionHashes := []; NextOwner := sk_Public alice;
                    InputValue := 10; Change := 0; Fee := 0 |} w0).
Definition w_body : World := snd (genesis_body w0).
Definition w_overpaid : World := snd (overpaid_body w0).
Definition w_forged : World := snd (forged w0).
Definition w_dangling : World := snd (dangling_input w0).
Definition w_unsigned : World := snd (unsigned w0).
Definition w_spend : World := snd (spend_body w0).
Definition w_fee_overflow : World := snd (fee_overflow w0).
Definition w_shared : World := snd (shared_body w0).
Definition w_future : World := snd (future w0).
Definition w_unframed : World := snd (unframed w0).
Definition w_block : World := snd (NewBlock 1%positive w_body).
Definition w_set : World := snd (SetFields 1%positive 3 1005 w_block).

End Toy.

(** * Reasoning about computations *)

Section MonadFacts.
Context `{P : Primitives}.

Lemma reader_run {A} (m : M A) w : reader m -> m w = (fst (m w), w).
Proof. intros Hm. destruct (Hm w) as [Hs _]. rewrite <- Hs at 3. apply surjective_pairing. Qed.

Lemma reader_heap {A} (m : M A) w w' :
  reader m -> heap w' = heap w -> fst (m w') = fst (m w).
Proof. intros Hm. apply (Hm w). Qed.

Lemma bind_reader {A B} (m : M A) (k : A -> M B) w :
  reader m ->
  bind m k w =
  match fst (m w) with
  | Ok a => k a w
  | Err e => (Err e, w)
  | Panic => (Panic, w)
  | OutOfFuel => (OutOfFuel, w)
  end.
Proof.
  intros Hm. unfold bind. rewrite (reader_run m w Hm). simpl.
  destruct (fst (m w)); reflexivity.
Qed.

Lemma reader_ret {A} (a : A) : reader (ret a).
Proof. intros w; split; reflexivity. Qed.

Lemma reader_fail {A} e : reader (@fail P A e).
Proof. intros w; split; reflexivity. Qed.

Lemma reader_panic {A} : reader (@panic P A).
Proof. intros w; split; reflexivity. Qed.

Lemma reader_lift {A} (r : Res A) : reader (lift r).
Proof. intros w; split; reflexivity. Qed.

Lemma reader_bind {A B} (m : M A) (k : A -> M B) :
  reader m -> (forall a, reader (k a)) -> reader (bind m k).
Proof.
  intros Hm Hk w; split.
  - rewrite bind_reader by assumption.
    destruct (fst (m w)); try reflexivity. apply Hk.
  - intros w' Hh. rewrite !bind_reader by assumption.
    rewrite (reader_heap m w w' Hm Hh).
    destruct (fst (m w)); try reflexivity. now apply Hk.
Qed.

Lemma reader_deref_block p : reader (deref_block p).
Proof.
  intros w; unfold deref_block; split.
  - destruct (h_blocks (heap w) !! p); reflexivity.
  - intros w' ->. destruct (h_blocks (heap w) !! p); reflexivity.
Qed.

Lemma reader_deref_body p : reader (deref_body p).
Proof.
  intros w; unfold deref_body; split.
  - destruct (h_bodies (heap w) !! p); reflexivity.
  - intros w' ->. destruct (h_bodies (heap w) !! p); reflexivity.
Qed.

Lemma reader_deref_txn p : reader (deref_txn p).
Proof.
  intros w; unfold deref_txn; split.
  - destruct (h_txns (heap w) !! p); reflexivity.
  - intros w' ->. destruct (h_txns (heap w) !! p); reflexivity.
Qed.

Lemma reader_deref_tbody p : reader (deref_tbody p).
Proof.
  intros w; unfold deref_tbody; split.
  - destruct (h_tbodies (heap w) !! p); reflexivity.
  - intros w' ->. destruct (h_tbodies (heap w) !! p); reflexivity.
Qed.

Lemma reader_foldM {A B} (f : B -> A -> M B) l :
  (forall b a, reader (f b a)) -> forall b, reader (foldM f l b).
Proof.
  intros Hf. induction l as [|a l IH]; intros b; simpl.
  - apply reader_ret.
  - apply reader_bind; auto.
Qed.

Lemma frame_reader {A} (m : M A) : reader m -> frame m.
Proof. intros Hm w. destruct (Hm w) as [-> _]. reflexivity. Qed.

Lemma frame_bind {A B} (m : M A) (k : A -> M B) :
  frame m -> (forall a, frame (k a)) -> frame (bind m k).
Proof.
  intros Hm Hk w. unfold bind. specialize (Hm w).
  destruct (m w) as [[a|e| |] w1]; simpl in *; try assumption.
  rewrite Hk. assumption.
Qed.

Lemma frame_time_Now : frame time_Now.
Proof. intros w. reflexivity. Qed.

End MonadFacts.

Create HintDb reader discriminated.
#[export] Hint Resolve reader_ret reader_fail reader_panic reader_lift
  reader_deref_block reader_deref_body reader_deref_txn reader_deref_tbody : reader.
#[export] Hint Extern 2 (reader (bind _ _)) => apply reader_bind; [ | intro ] : reader.
#[export] Hint Extern 2 (reader (foldM _ _ _)) => apply reader_foldM; intros : reader.
#[export] Hint Extern 3 (reader (if ?b then _ else _)) => destruct b : reader.
#[export] Hint Extern 3 (reader (match ?x with _ => _ end)) => destruct x : reader.

Section EngineFacts.
Context `{P : Primitives}.

Lemma reader_OutputValue t : reader (OutputValue t).
Proof. unfold OutputValue. auto 10 with reader. Qed.

Lemma reader_indexTransaction all t : reader (indexTransaction all t).
Proof. unfold indexTransaction. auto with reader. Qed.

Lemma reader_indexBlock all b : reader (indexBlock all b).
Proof.
  unfold indexBlock. pose proof reader_indexTransaction. auto 10 with reader.
Qed.

Lemma reader_verifyInputs all tx hashes :
  forall i acc, reader (verifyInputs all tx i hashes acc).
Proof.
  induction hashes as [|h hashes IH]; intros i acc; simpl.
  - apply reader_ret.
  - pose proof reader_OutputValue. auto 12 with reader.
Qed.

Lemma reader_verifyTransaction st t : reader (verifyTransaction st t).
Proof.
  unfold verifyTransaction. pose proof reader_verifyInputs. auto 12 with reader.
Qed.

Lemma reader_verifyLink blocks nbody : reader (verifyLink blocks nbody).
Proof. unfold verifyLink. auto 12 with reader. Qed.

End EngineFacts.

#[export] Hint Resolve reader_OutputValue reader_indexTransaction reader_indexBlock
  reader_verifyInputs reader_verifyTransaction reader_verifyLink : reader.

(** * The validator *)

Section Validator.
Context `{P : Primitives}.

Lemma fst_bind_reader {A B} (m : M A) (k : A -> M B) w :
  reader m -> fst (bind m k w) = Res_bind (fst (m w)) (fun a => fst (k a w)).
Proof.
  intros Hm. rewrite bind_reader by assumption.
  destruct (fst (m w)); reflexivity.
Qed.

Lemma fst_deref_block p w : fst (deref_block p w) = deref (h_blocks (heap w) !! p).
Proof. unfold deref_block. destruct (_ !! _); reflexivity. Qed.
Lemma fst_deref_body p w : fst (deref_body p w) = deref (h_bodies (heap w) !! p).
Proof. unfold deref_body. destruct (_ !! _); reflexivity. Qed.
Lemma fst_deref_txn p w : fst (deref_txn p w) = deref (h_txns (heap w) !! p).
Proof. unfold deref_txn. destruct (_ !! _); reflexivity. Qed.
Lemma fst_deref_tbody p w : fst (deref_tbody p w) = deref (h_tbodies (heap w) !! p).
Proof. unfold deref_tbody. destruct (_ !! _); reflexivity. Qed.

Lemma heap_tick w : heap (tick w) = heap w.
Proof. reflexivity. Qed.

(** The verdict of [verifyExceptNonce], check by check, in terms of the
    outcomes of its loops on the unchanged heap. *)
Lemma verifyExceptNonce_verdict blocks newBlock w :
  fst (verifyExceptNonce blocks newBlock w) =
  Res_bind (deref (h_blocks (heap w) !! newBlock)) (fun nb =>
  Res_bind (deref (h_bodies (heap w) !! Body nb)) (fun nbody =>
  if negb (Version nbody =? CurrentVersion) then Err VersionMismatch else
  Res_bind (fst (verifyLink blocks nbody w)) (fun _ =>
  if Time_After (Time_ nbody) (clock w (ticks w)) then Err FutureTimestamp else
  match Transactions nbody with
  | [] => Err EmptyBlock
  | coinBaseTransaction :: rest =>
      Res_bind (fst (foldM indexBlock blocks ∅ w)) (fun allTransactions =>
      Res_bind (deref (h_txns (heap w) !! coinBaseTransaction)) (fun cb =>
      Res_bind (fst (foldM verifyTransaction rest
                       (seedTransactions allTransactions coinBaseTransaction cb, 0) w))
        (fun st =>
      Res_bind (deref (h_tbodies (heap w) !! tx_Body cb)) (fun cbody =>
      if negb (InputValue cbody =? add32 (snd st) MiningReward)
      then Err CoinbaseValueMismatch else Ok tt))))
  end))).
Proof.
  unfold verifyExceptNonce.
  rewrite fst_bind_reader, fst_deref_block by auto with reader.
  destruct (h_blocks (heap w) !! newBlock) as [nb|]; simpl; [|reflexivity].
  rewrite fst_bind_reader, fst_deref_body by auto with reader.
  destruct (h_bodies (heap w) !! Body nb) as [nbody|]; simpl; [|reflexivity].
  destruct (negb (Version nbody =? CurrentVersion)); [reflexivity|].
  rewrite fst_bind_reader by auto with reader.
  destruct (fst (verifyLink blocks nbody w)) as [[]|e| |]; simpl; try reflexivity.
  change (bind time_Now ?k w) with (k (clock w (ticks w)) (tick w)); cbv beta.
  destruct (Time_After (Time_ nbody) (clock w (ticks w))); [reflexivity|].
  destruct (Transactions nbody) as [|cbp rest]; [reflexivity|].
  rewrite fst_bind_reader by auto with reader.
  rewrite (reader_heap (foldM indexBlock blocks ∅) w (tick w)) by auto with reader.
  destruct (fst (foldM indexBlock blocks ∅ w)) as [all|e| |]; simpl; try reflexivity.
  rewrite fst_bind_reader, fst_deref_txn, heap_tick by auto with reader.
  destruct (h_txns (heap w) !! cbp) as [cb|]; simpl; [|reflexivity].
  rewrite fst_bind_reader by auto with reader.
  unfold seedTransactions.
  rewrite (reader_heap (foldM verifyTransaction rest _) w (tick w)) by auto with reader.
  destruct (fst (foldM verifyTransaction rest _ w)) as [st|e| |]; simpl; try reflexivity.
  rewrite fst_bind_reader, fst_deref_tbody, heap_tick by auto with reader.
  destruct (h_tbodies (heap w) !! tx_Body cb) as [cbody|]; simpl; [|reflexivity].
  destruct (negb (InputValue cbody =? add32 (snd st) MiningReward)); reflexivity.
Qed.

Lemma frame_verifyExceptNonce blocks newBlock : frame (verifyExceptNonce blocks newBlock).
Proof.
  unfold verifyExceptNonce.
  apply frame_bind; [auto using frame_reader with reader|intros nb].
  apply frame_bind; [auto using frame_reader with reader|intros nbody].
  destruct (negb _); [apply frame_reader; auto with reader|].
  apply frame_bind; [auto using frame_reader with reader|intros _].
  apply frame_bind; [apply frame_time_Now|intros now].
  apply frame_reader. auto 12 with reader.
Qed.

(** C9. Validation leaves the heap untouched: after [verifyExceptNonce],
    whatever its outcome, every block and block body of the chain, the
    candidate block, its body, its transactions and their bodies are the
    objects they were before; nor is any entropy consumed. *)
Theorem verifyExceptNonce_side_effect_free blocks newBlock w :
  heap (snd (verifyExceptNonce blocks newBlock w)) = heap w
  /\ drawn (snd (verifyExceptNonce blocks newBlock w)) = drawn w.
Proof.
  split; [apply frame_verifyExceptNonce|].
  unfold verifyExceptNonce.
  rewrite bind_reader by auto with reader.
  destruct (fst (deref_block newBlock w)) as [nb|e| |]; try reflexivity.
  rewrite bind_reader by auto with reader.
  destruct (fst (deref_body (Body nb) w)) as [nbody|e| |]; try reflexivity.
  destruct (negb _); [reflexivity|].
  rewrite bind_reader by auto with reader.
  destruct (fst (verifyLink blocks nbody w)) as [[]|e| |]; try reflexivity.
  change (bind time_Now ?k w) with (k (clock w (ticks w)) (tick w)); cbv beta.
  match goal with |- drawn (snd (?m (tick w))) = _ =>
    rewrite (reader_run m (tick w)) by auto 12 with reader end.
  reflexivity.
Qed.

End Validator.

(** * Linkage checks *)

Section Linkage.
Context `{P : Primitives}.

Lemma verifyLink_genesis nbody w :
  verifyLink [] nbody w =
  if Id nbody =? GenesisId then (Ok tt, w) else (Err IdMismatch, w).
Proof. unfold verifyLink. simpl. destruct (Id nbody =? GenesisId); reflexivity. Qed.

Lemma verifyLink_id_mismatch blocks nbody headBlock hb hbody w :
  last blocks = Some headBlock ->
  h_blocks (heap w) !! headBlock = Some hb ->
  h_bodies (heap w) !! Body hb = Some hbody ->
  Id nbody <> add32 (Id hbody) 1 ->
  verifyLink blocks nbody w = (Err IdMismatch, w).
Proof.
  intros Hl Hb Hq Hne. unfold verifyLink. rewrite Hl.
  unfold bind, deref_block. rewrite Hb.
  unfold deref_body. rewrite Hq.
  destruct (Z.eqb_spec (Id nbody) (add32 (Id hbody) 1)); [contradiction|reflexivity].
Qed.

Lemma verifyExceptNonce_link_error blocks newBlock nb nbody w e :
  h_blocks (heap w) !! newBlock = Some nb ->
  h_bodies (heap w) !! Body nb = Some nbody ->
  verifyLink blocks nbody w = (Err e, w) ->
  verifyExceptNonce blocks newBlock w =
  (Err (if Version nbody =? CurrentVersion then e else VersionMismatch), w).
Proof.
  intros Hb Hq Hl. unfold verifyExceptNonce.
  unfold bind at 1. unfold deref_block. rewrite Hb.
  unfold bind at 1. unfold deref_body. rewrite Hq.
  destruct (Version nbody =? CurrentVersion); simpl; [|reflexivity].
  unfold bind at 1. rewrite Hl. reflexivity.
Qed.

(** C6 (amended). Genesis rule.  For a candidate block [nb] with body
    [nbody]: on an empty chain a candidate whose id is not 0 is rejected;
    on a non-empty chain a candidate whose id is not the tip's id plus one,
    computed as a [uint32], is rejected, and so is in particular a
    candidate with id 0 unless the tip carries the largest id.  The
    rejection is the version error when the version is wrong and the id
    error otherwise; it is returned before the clock is read and whatever
    the candidate's transaction list holds. *)
Theorem verifyExceptNonce_genesis_rule blocks newBlock nb nbody w :
  h_blocks (heap w) !! newBlock = Some nb ->
  h_bodies (heap w) !! Body nb = Some nbody ->
  let rejected :=
    verifyExceptNonce blocks newBlock w =
    (Err (if Version nbody =? CurrentVersion then IdMismatch else VersionMismatch), w) in
  (blocks = [] -> Id nbody <> GenesisId -> rejected)
  /\ (forall headBlock hb hbody,
        last blocks = Some headBlock ->
        h_blocks (heap w) !! headBlock = Some hb ->
        h_bodies (heap w) !! Body hb = Some hbody ->
        (Id nbody <> add32 (Id hbody) 1 -> rejected)
        /\ (Id nbody = 0 -> uint32 (Id hbody) -> Id hbody <> 2 ^ 32 - 1 -> rejected)).
Proof.
  intros Hb Hq rejected. subst rejected. split.
  - intros -> Hne. apply (verifyExceptNonce_link_error _ _ nb); try assumption.
    rewrite verifyLink_genesis.
    destruct (Z.eqb_spec (Id nbody) GenesisId); [contradiction|reflexivity].
  - intros headBlock hb hbody Hl Hhb Hhq.
    assert (Hmain : Id nbody <> add32 (Id hbody) 1 ->
                    verifyExceptNonce blocks newBlock w =
                    (Err (if Version nbody =? CurrentVersion
                          then IdMismatch else VersionMismatch), w)).
    { intros Hne. apply (verifyExceptNonce_link_error _ _ nb); try assumption.
      eapply verifyLink_id_mismatch; eassumption. }
    split; [exact Hmain|].
    intros H0 [Hlo Hhi] Hmax. apply Hmain. rewrite H0.
    unfold add32, wrap32. rewrite Z.mod_small by lia. lia.
Qed.

End Linkage.

(** Names the object a pointer resolves to in a concrete heap. *)
Ltac resolve name o :=
  let v := eval vm_compute in o in
  match v with Some ?b => pose (name := b) end.

Ltac by_eval := vm_compute; first [ reflexivity | discriminate | lia ].
Ltac by_range := vm_compute; split; [ discriminate | reflexivity ].

(** On the chain [gapped_chain], whose tip has id 0: a candidate with id 5
    is rejected on the empty chain and on the chain itself, and the
    candidate with id 0 is rejected on the chain. *)
Lemma verifyExceptNonce_genesis_rule_witness :
  verifyExceptNonce [] 2%positive Toy.w_gapped = (Err IdMismatch, Toy.w_gapped)
  /\ verifyExceptNonce [1%positive] 2%positive Toy.w_gapped
     = (Err IdMismatch, Toy.w_gapped)
  /\ verifyExceptNonce [1%positive] 1%positive Toy.w_gapped
     = (Err IdMismatch, Toy.w_gapped).
Proof.
  pose (w := Toy.w_gapped).
  resolve hb (h_blocks (heap w) !! 1%positive).
  resolve hbody (h_bodies (heap w) !! Body hb).
  resolve nb (h_blocks (heap w) !! 2%positive).
  resolve nbody (h_bodies (heap w) !! Body nb).
  pose proof (verifyExceptNonce_genesis_rule (P := Toy.primitives)
                [] 2%positive nb nbody w ltac:(by_eval) ltac:(by_eval)) as H1.
  pose proof (verifyExceptNonce_genesis_rule (P := Toy.primitives)
                [1%positive] 2%positive nb nbody w ltac:(by_eval) ltac:(by_eval)) as H2.
  pose proof (verifyExceptNonce_genesis_rule (P := Toy.primitives)
                [1%positive] 1%positive hb hbody w ltac:(by_eval) ltac:(by_eval)) as H3.
  split; [|split].
  - exact (proj1 H1 eq_refl ltac:(by_eval)).
  - exact (proj1 (proj2 H2 1%positive hb hbody
                    ltac:(by_eval) ltac:(by_eval) ltac:(by_eval)) ltac:(by_eval)).
  - exact (proj2 (proj2 H3 1%positive hb hbody
                    ltac:(by_eval) ltac:(by_eval) ltac:(by_eval))
             ltac:(by_eval) ltac:(by_range)
             ltac:(by_eval)).
Defined.

(** C6, as stated, fails: the chain [wrapped_chain] is not empty, its tip
    has id [2^32 - 1], and the candidate with id 0 linked to it is
    accepted, since the tip's id plus one wraps to 0. *)
Lemma genesis_rule_counterexample :
  (Id <$> block_body (heap Toy.w_wrapped) 1%positive) = Some 4294967295
  /\ (Id <$> block_body (heap Toy.w_wrapped) 2%positive) = Some 0
  /\ length [1%positive] <> 0%nat
  /\ fst (verifyExceptNonce [1%positive] 2%positive Toy.w_wrapped) = Ok tt.
Proof. vm_compute. repeat split; discriminate. Qed.

(** * Transaction checks *)

Section Transactions.
Context `{P : Primitives}.

Lemma fst_foldM_cons {A B} (f : B -> A -> M B) a l b w :
  (forall b a, reader (f b a)) ->
  fst (foldM f (a :: l) b w) = Res_bind (fst (f b a w)) (fun b' => fst (foldM f l b' w)).
Proof. intros Hf. simpl. apply fst_bind_reader. apply Hf. Qed.

Lemma fst_foldM_app {A B} (f : B -> A -> M B) l1 l2 w :
  (forall b a, reader (f b a)) ->
  forall b,
  fst (foldM f (l1 ++ l2) b w) =
  Res_bind (fst (foldM f l1 b w)) (fun b' => fst (foldM f l2 b' w)).
Proof.
  intros Hf. induction l1 as [|a l1 IH]; intros b.
  - reflexivity.
  - rewrite <- app_comm_cons, !fst_foldM_cons by assumption.
    destruct (fst (f b a w)); simpl; auto.
Qed.

Lemma fst_OutputValue t w :
  fst (OutputValue t w) = deref (outputValue_of (heap w) t).
Proof.
  unfold OutputValue, outputValue_of.
  rewrite fst_bind_reader, fst_deref_txn by auto with reader.
  destruct (h_txns (heap w) !! t) as [tx|]; simpl; [|reflexivity].
  rewrite fst_bind_reader, fst_deref_tbody by auto with reader.
  destruct (h_tbodies (heap w) !! tx_Body tx) as [body|]; simpl; [|reflexivity].
  destruct (isCoinbase tx); reflexivity.
Qed.

(** A successful pass over the inputs returns the sum of what they refer to. *)
Lemma verifyInputs_total all tx w hashes :
  forall i acc v,
  fst (verifyInputs all tx i hashes acc w) = Ok v ->
  v = fold_left (fun a hash => add32 a (referencedValue (heap w) all hash)) hashes acc.
Proof.
  induction hashes as [|hash hashes IH]; intros i acc v; simpl.
  - intros [= ->]. reflexivity.
  - unfold referencedValue at 2.
    destruct (all !! hex_EncodeToString hash) as [p|]; [|discriminate].
    destruct (OwnerSignatures tx !! i) as [sg|]; [|discriminate].
    rewrite fst_bind_reader, fst_deref_txn by auto 12 with reader.
    destruct (h_txns (heap w) !! p) as [itx|] eqn:Hitx; simpl; [|discriminate].
    rewrite fst_bind_reader, fst_deref_tbody by auto 12 with reader.
    destruct (h_tbodies (heap w) !! tx_Body itx) as [ibody|] eqn:Hib; simpl; [|discriminate].
    destruct (negb _); [discriminate|].
    rewrite fst_bind_reader, fst_OutputValue by auto with reader.
    destruct (outputValue_of (heap w) p) as [ov|]; simpl; [|discriminate].
    apply IH.
Qed.

(** The verdict of lines 117-140 on one transaction. *)
Lemma verifyTransaction_verdict st transaction w :
  fst (verifyTransaction st transaction w) =
  Res_bind (deref (h_txns (heap w) !! transaction)) (fun tx =>
  Res_bind (deref (h_tbodies (heap w) !! tx_Body tx)) (fun body =>
  if negb (length (InputTransactionHashes body) =? length (OwnerSignatures tx))%nat
  then Err SignatureCountMismatch else
  Res_bind (fst (verifyInputs (fst st) tx 0 (InputTransactionHashes body) 0 w)) (fun v =>
  if negb (v =? InputValue body) then Err ValueMismatch
  else if InputValue body <? add32 (Change body) (Fee body)
  then Err InsufficientInputValue
  else Ok (<[hex_EncodeToString (tx_BodyHash tx) := transaction]> (fst st),
           add32 (snd st) (Fee body))))).
Proof.
  unfold verifyTransaction.
  rewrite fst_bind_reader, fst_deref_txn by auto 12 with reader.
  destruct (h_txns (heap w) !! transaction) as [tx|]; simpl; [|reflexivity].
  rewrite fst_bind_reader, fst_deref_tbody by auto 12 with reader.
  destruct (h_tbodies (heap w) !! tx_Body tx) as [body|]; simpl; [|reflexivity].
  destruct (negb (_ =? _)%nat); [reflexivity|].
  rewrite fst_bind_reader by auto with reader.
  destruct (fst (verifyInputs _ _ _ _ _ w)) as [v|e| |]; simpl; try reflexivity.
  destruct (negb (v =? InputValue body)); [reflexivity|].
  destruct (InputValue body <? _); reflexivity.
Qed.

(** What an accepted transaction satisfies, in the code's arithmetic. *)
Lemma verifyTransaction_ok st transaction w st' :
  fst (verifyTransaction st transaction w) = Ok st' ->
  exists tx body,
    h_txns (heap w) !! transaction = Some tx
    /\ h_tbodies (heap w) !! tx_Body tx = Some body
    /\ length (InputTransactionHashes body) = length (OwnerSignatures tx)
    /\ InputValue body = referencedTotal (heap w) (fst st) (InputTransactionHashes body)
    /\ add32 (Change body) (Fee body) <= InputValue body
    /\ st' = (<[hex_EncodeToString (tx_BodyHash tx) := transaction]> (fst st),
              add32 (snd st) (Fee body)).
Proof.
  rewrite verifyTransaction_verdict.
  destruct (h_txns (heap w) !! transaction) as [tx|] eqn:Htx; simpl; [|discriminate].
  destruct (h_tbodies (heap w) !! tx_Body tx) as [body|] eqn:Hb; simpl; [|discriminate].
  destruct (Nat.eqb_spec (length (InputTransactionHashes body))
              (length (OwnerSignatures tx))) as [Hlen|]; simpl; [|discriminate].
  destruct (fst (verifyInputs _ _ _ _ _ w)) as [v|e| |] eqn:Hin; simpl; try discriminate.
  destruct (Z.eqb_spec v (InputValue body)) as [Hv|]; simpl; [|discriminate].
  destruct (Z.ltb_spec (InputValue body) (add32 (Change body) (Fee body)));
    [discriminate|].
  intros [= <-]. exists tx, body.
  split; [reflexivity|]. split; [assumption|]. split; [assumption|].
  split; [|split; [assumption|reflexivity]].
  rewrite <- Hv. apply (verifyInputs_total _ _ _ _ _ _ _ Hin).
Qed.

(** The running fees after the loop over a list of transactions. *)
Lemma foldM_verifyTransaction_fees w txs :
  forall st st',
  fst (foldM verifyTransaction txs st w) = Ok st' ->
  snd st' = fold_left (fun acc p => add32 acc (fee_of (heap w) p)) txs (snd st).
Proof.
  induction txs as [|p txs IH]; intros st st'.
  - simpl. intros [= <-]. reflexivity.
  - rewrite fst_foldM_cons by auto with reader.
    destruct (fst (verifyTransaction st p w)) as [st1|e| |] eqn:Hp; simpl; try discriminate.
    intros Hrest. rewrite (IH _ _ Hrest). simpl.
    destruct (verifyTransaction_ok _ _ _ _ Hp) as (tx & body & Htx & Hb & _ & _ & _ & ->).
    simpl. unfold fee_of, txn_body. rewrite Htx, Hb. reflexivity.
Qed.

End Transactions.

(** * Coinbase accounting *)

Section Coinbase.
Context `{P : Primitives}.

Lemma wrap32_range z : 0 <= wrap32 z < 2 ^ 32.
Proof. unfold wrap32. apply Z.mod_pos_bound. lia. Qed.

Lemma fold_add32_wrap {A} (f : A -> Z) l :
  forall a b, 0 <= a < 2 ^ 32 -> wrap32 a = wrap32 b ->
  fold_left (fun acc x => add32 acc (f x)) l a =
  wrap32 (fold_left (fun acc x => acc + f x) l b).
Proof.
  induction l as [|x l IH]; intros a b Ha Hab; simpl.
  - rewrite <- Hab. unfold wrap32. rewrite Z.mod_small; lia.
  - apply IH; [apply wrap32_range|].
    unfold add32, wrap32 in *. rewrite Z.mod_mod by lia.
    rewrite (Z.add_mod a), Hab, <- Z.add_mod by lia. reflexivity.
Qed.

Lemma blockFees_exact h txs : blockFees h txs = wrap32 (exactFees h txs).
Proof. unfold blockFees, exactFees. apply fold_add32_wrap; [lia|reflexivity]. Qed.

(** When everything before line 144 passes, the verdict is that of the
    coinbase comparison. *)
Lemma verifyExceptNonce_coinbase_check blocks newBlock w nb nbody cbp rest cb cbody
    allTransactions st :
  h_blocks (heap w) !! newBlock = Some nb ->
  h_bodies (heap w) !! Body nb = Some nbody ->
  Transactions nbody = cbp :: rest ->
  h_txns (heap w) !! cbp = Some cb ->
  h_tbodies (heap w) !! tx_Body cb = Some cbody ->
  Version nbody = CurrentVersion ->
  fst (verifyLink blocks nbody w) = Ok tt ->
  Time_After (Time_ nbody) (clock w (ticks w)) = false ->
  fst (foldM indexBlock blocks ∅ w) = Ok allTransactions ->
  fst (foldM verifyTransaction rest
         (seedTransactions allTransactions cbp cb, 0) w) = Ok st ->
  fst (verifyExceptNonce blocks newBlock w) =
  if InputValue cbody =? add32 (blockFees (heap w) rest) MiningReward
  then Ok tt else Err CoinbaseValueMismatch.
Proof.
  intros Hnb Hbody Htxs Hcb Hcbody Hv Hlink Hnow Hall Hloop.
  rewrite verifyExceptNonce_verdict, Hnb; simpl. rewrite Hbody; simpl.
  rewrite Hv, Hlink; simpl. rewrite Hnow, Htxs, Hall; simpl.
  rewrite Hcb; simpl. rewrite Hloop; simpl. rewrite Hcbody; simpl.
  apply foldM_verifyTransaction_fees in Hloop. simpl in Hloop.
  unfold blockFees. rewrite <- Hloop.
  destruct (InputValue cbody =? add32 (snd st) MiningReward); reflexivity.
Qed.

(** Coinbase accounting as the code computes it.  For a candidate [nb] whose transaction
    list is [cbp :: rest]: the block is accepted only if the first
    transaction's [InputValue] equals the fees of [rest], totalled as the
    code totals them, plus [MiningReward]; when the earlier checks pass
    and every transaction of [rest] validates, the block is accepted if
    the two are equal and rejected with [CoinbaseValueMismatch] for any
    other value.  The total is the exact sum whenever that sum fits a
    [uint32]. *)
Theorem coinbase_accounting blocks newBlock w nb nbody cbp rest cb cbody :
  h_blocks (heap w) !! newBlock = Some nb ->
  h_bodies (heap w) !! Body nb = Some nbody ->
  Transactions nbody = cbp :: rest ->
  h_txns (heap w) !! cbp = Some cb ->
  h_tbodies (heap w) !! tx_Body cb = Some cbody ->
  let due := add32 (blockFees (heap w) rest) MiningReward in
  (fst (verifyExceptNonce blocks newBlock w) = Ok tt -> InputValue cbody = due)
  /\ (forall allTransactions st,
        Version nbody = CurrentVersion ->
        fst (verifyLink blocks nbody w) = Ok tt ->
        Time_After (Time_ nbody) (clock w (ticks w)) = false ->
        fst (foldM indexBlock blocks ∅ w) = Ok allTransactions ->
        fst (foldM verifyTransaction rest
               (seedTransactions allTransactions cbp cb, 0) w) = Ok st ->
        fst (verifyExceptNonce blocks newBlock w) =
        if InputValue cbody =? due then Ok tt else Err CoinbaseValueMismatch)
  /\ (0 <= exactFees (heap w) rest + MiningReward < 2 ^ 32 ->
      due = exactFees (heap w) rest + MiningReward).
Proof.
  intros Hnb Hbody Htxs Hcb Hcbody due. subst due.
  split; [|split].
  - rewrite verifyExceptNonce_verdict, Hnb; simpl. rewrite Hbody; simpl.
    destruct (negb _); [discriminate|].
    destruct (fst (verifyLink blocks nbody w)) as [[]|e| |]; simpl; try discriminate.
    destruct (Time_After _ _); [discriminate|].
    rewrite Htxs.
    destruct (fst (foldM indexBlock blocks ∅ w)) as [all|e| |]; simpl; try discriminate.
    rewrite Hcb; simpl.
    destruct (fst (foldM verifyTransaction rest _ w)) as [st|e| |] eqn:Hloop;
      simpl; try discriminate.
    rewrite Hcbody; simpl.
    apply foldM_verifyTransaction_fees in Hloop. simpl in Hloop.
    unfold blockFees. rewrite <- Hloop.
    destruct (Z.eqb_spec (InputValue cbody) (add32 (snd st) MiningReward));
      [trivial|discriminate].
  - intros all st Hv Hlink Hnow Hall Hloop.
    eapply verifyExceptNonce_coinbase_check; eassumption.
  - intros Hfit. rewrite blockFees_exact. unfold add32, wrap32.
    rewrite Z.add_mod_idemp_l by lia. apply Z.mod_small. assumption.
Qed.

End Coinbase.

(** On the genesis candidate with fee 2 and first value 12 the block is
    accepted and 12 is what is due; with first value 11 and fee 0 the
    candidate is rejected for its coinbase value. *)
Lemma coinbase_accounting_witness :
  (12 = add32 (blockFees (heap Toy.w_genesis) [2%positive]) MiningReward
   /\ fst (verifyExceptNonce [] 1%positive Toy.w_genesis) = Ok tt
   /\ add32 (blockFees (heap Toy.w_genesis) [2%positive]) MiningReward = 2 + 10)
  /\ fst (verifyExceptNonce [] 1%positive Toy.w_genesis_11)
     = Err CoinbaseValueMismatch.
Proof.
  split.
  - pose (w := Toy.w_genesis).
    resolve nb (h_blocks (heap w) !! 1%positive).
    resolve nbody (h_bodies (heap w) !! Body nb).
    resolve cb (h_txns (heap w) !! 1%positive).
    resolve cbody (h_tbodies (heap w) !! tx_Body cb).
    destruct (coinbase_accounting (P := Toy.primitives) [] 1%positive w nb nbody
                1%positive [2%positive] cb cbody
                ltac:(by_eval) ltac:(by_eval) ltac:(by_eval) ltac:(by_eval)
                ltac:(by_eval)) as (Honly & Hboth & Hexact).
    split; [|split].
    + apply Honly. by_eval.
    + by_eval.
    + apply Hexact. by_range.
  - pose (w := Toy.w_genesis_11).
    resolve nb (h_blocks (heap w) !! 1%positive).
    resolve nbody (h_bodies (heap w) !! Body nb).
    resolve cb (h_txns (heap w) !! 1%positive).
    resolve cbody (h_tbodies (heap w) !! tx_Body cb).
    destruct (coinbase_accounting (P := Toy.primitives) [] 1%positive w nb nbody
                1%positive [2%positive] cb cbody
                ltac:(by_eval) ltac:(by_eval) ltac:(by_eval) ltac:(by_eval)
                ltac:(by_eval)) as (_ & Hboth & _).
    resolve st (match fst (foldM verifyTransaction [2%positive]
                  (seedTransactions ∅ 1%positive cb, 0) w) with
                | Ok st => Some st | _ => None end).
    exact (Hboth ∅ st ltac:(by_eval) ltac:(by_eval) ltac:(by_eval)
             ltac:(by_eval) ltac:(by_eval)).
Defined.

(** * The value check *)

Section ValueCheck.
Context `{P : Primitives}.

(** C1 (amended). The value check is made per transaction.  Let the
    candidate's list be [cbp :: pre ++ p :: post], the block-level checks
    pass and every transaction of [pre] validate.  If [p] has as many
    signatures as inputs, each input is known and correctly signed, and
    the [InputValue] that [p] declares differs from the [uint32] sum of the
    output values of the transactions its inputs refer to, the candidate
    is rejected with [ValueMismatch]. *)
Theorem value_mismatch_rejected blocks newBlock w nb nbody cbp pre p post cb
    allTransactions st tx body v :
  h_blocks (heap w) !! newBlock = Some nb ->
  h_bodies (heap w) !! Body nb = Some nbody ->
  Transactions nbody = cbp :: pre ++ p :: post ->
  Version nbody = CurrentVersion ->
  fst (verifyLink blocks nbody w) = Ok tt ->
  Time_After (Time_ nbody) (clock w (ticks w)) = false ->
  fst (foldM indexBlock blocks ∅ w) = Ok allTransactions ->
  h_txns (heap w) !! cbp = Some cb ->
  fst (foldM verifyTransaction pre (seedTransactions allTransactions cbp cb, 0) w)
    = Ok st ->
  h_txns (heap w) !! p = Some tx ->
  h_tbodies (heap w) !! tx_Body tx = Some body ->
  length (InputTransactionHashes body) = length (OwnerSignatures tx) ->
  fst (verifyInputs (fst st) tx 0 (InputTransactionHashes body) 0 w) = Ok v ->
  InputValue body <> referencedTotal (heap w) (fst st) (InputTransactionHashes body) ->
  fst (verifyExceptNonce blocks newBlock w) = Err ValueMismatch.
Proof.
  intros Hnb Hbody Htxs Hv Hlink Hnow Hall Hcb Hpre Htx Htb Hlen Hin Hne.
  rewrite verifyExceptNonce_verdict, Hnb; simpl. rewrite Hbody; simpl.
  rewrite Hv, Hlink; simpl. rewrite Hnow, Htxs, Hall; simpl. rewrite Hcb; simpl.
  rewrite fst_foldM_app by auto with reader. rewrite Hpre. cbn [Res_bind].
  rewrite fst_foldM_cons, verifyTransaction_verdict by auto with reader.
  rewrite Htx; simpl. rewrite Htb; simpl.
  rewrite Hlen, Nat.eqb_refl; simpl. rewrite Hin; simpl.
  pose proof (verifyInputs_total _ _ _ _ _ _ _ Hin) as Htot.
  fold (referencedTotal (heap w) (fst st) (InputTransactionHashes body)) in Htot.
  destruct (Z.eqb_spec v (InputValue body)); [congruence|reflexivity].
Qed.

End ValueCheck.

Ltac resolve_ok name r :=
  let v := eval vm_compute in r in
  match v with Ok ?b => pose (name := b) end.

(** In [w_double_short] the third transaction spends the first one's
    output of 10, already spent by the second, and declares 4: rejected
    for its value. *)
Lemma value_mismatch_rejected_witness :
  fst (verifyExceptNonce [] 1%positive Toy.w_double_short) = Err ValueMismatch.
Proof.
  pose (w := Toy.w_double_short).
  resolve nb (h_blocks (heap w) !! 1%positive).
  resolve nbody (h_bodies (heap w) !! Body nb).
  resolve cb (h_txns (heap w) !! 1%positive).
  resolve tx (h_txns (heap w) !! 3%positive).
  resolve body (h_tbodies (heap w) !! tx_Body tx).
  resolve_ok st (fst (foldM verifyTransaction [2%positive]
                        (seedTransactions ∅ 1%positive cb, 0) w)).
  resolve_ok v (fst (verifyInputs (fst st) tx 0 (InputTransactionHashes body) 0 w)).
  exact (value_mismatch_rejected (P := Toy.primitives) [] 1%positive w nb nbody
           1%positive [2%positive] 3%positive [] cb ∅ st tx body v
           ltac:(by_eval) ltac:(by_eval) ltac:(by_eval) ltac:(by_eval)
           ltac:(by_eval) ltac:(by_eval) ltac:(by_eval) ltac:(by_eval)
           ltac:(by_eval) ltac:(by_eval) ltac:(by_eval) ltac:(by_eval)
           ltac:(by_eval) ltac:(by_eval)).
Defined.

(** C1, as stated, fails.  In [w_double] the candidate is block 1 with
    transactions 1, 2, 3; transactions 2 and 3 are distinct, each has the
    hash of transaction 1 as its only input and declares 10, the output
    value of transaction 1; the 20 claimed exceed 10, and the candidate is
    accepted. *)
Lemma double_spend_counterexample :
  (Transactions <$> block_body (heap Toy.w_double) 1%positive)
    = Some [1%positive; 2%positive; 3%positive]
  /\ (InputTransactionHashes <$> txn_body (heap Toy.w_double) 2%positive)
     = ((fun t => [tx_BodyHash t]) <$> h_txns (heap Toy.w_double) !! 1%positive)
  /\ (InputTransactionHashes <$> txn_body (heap Toy.w_double) 3%positive)
     = ((fun t => [tx_BodyHash t]) <$> h_txns (heap Toy.w_double) !! 1%positive)
  /\ (tx_BodyHash <$> h_txns (heap Toy.w_double) !! 2%positive)
     <> (tx_BodyHash <$> h_txns (heap Toy.w_double) !! 3%positive)
  /\ outputValue_of (heap Toy.w_double) 1%positive = Some 10
  /\ (InputValue <$> txn_body (heap Toy.w_double) 2%positive) = Some 10
  /\ (InputValue <$> txn_body (heap Toy.w_double) 3%positive) = Some 10
  /\ 10 + 10 > 10
  /\ fst (verifyExceptNonce [] 1%positive Toy.w_double) = Ok tt.
Proof. vm_compute. repeat split; discriminate. Qed.

(** C5. The check of lines 144-146 does not give that the first
    transaction's [InputValue] is the sum of the fees plus [MiningReward].
    In [w_fee_overflow] the candidate (block 1) is accepted; its first
    transaction has [InputValue] 2147483643 and each of the three others
    has [Fee] 2147483643, so that fees and reward add up to 6442450939;
    the running total of line 140 wraps and the code compares with
    2147483643. *)
Theorem coinbase_overflow_accepted :
  fst (verifyExceptNonce [] 1%positive Toy.w_fee_overflow) = Ok tt
  /\ (Transactions <$> block_body (heap Toy.w_fee_overflow) 1%positive)
     = Some [1%positive; 2%positive; 3%positive; 4%positive]
  /\ (InputValue <$> txn_body (heap Toy.w_fee_overflow) 1%positive) = Some 2147483643
  /\ (Fee <$> txn_body (heap Toy.w_fee_overflow) 2%positive) = Some 2147483643
  /\ (Fee <$> txn_body (heap Toy.w_fee_overflow) 3%positive) = Some 2147483643
  /\ (Fee <$> txn_body (heap Toy.w_fee_overflow) 4%positive) = Some 2147483643
  /\ exactFees (heap Toy.w_fee_overflow) [2%positive; 3%positive; 4%positive]
     + MiningReward = 6442450939
  /\ add32 (blockFees (heap Toy.w_fee_overflow) [2%positive; 3%positive; 4%positive])
       MiningReward = 2147483643
  /\ 2147483643 <> 6442450939.
Proof. vm_compute. repeat split. discriminate. Qed.

(** C7. The check of line 135 does not give
    [InputValue >= Change + Fee] over the integers.  In [w_overflow] the
    candidate (block 1) is accepted; its second transaction is not a
    coinbase and has [InputValue] 12, [Change] 4294967295 and [Fee] 2, whose
    sum wraps to 1; its [OutputValue] wraps to 11. *)
Theorem insufficient_input_accepted :
  fst (verifyExceptNonce [] 1%positive Toy.w_overflow) = Ok tt
  /\ (Transactions <$> block_body (heap Toy.w_overflow) 1%positive)
     = Some [1%positive; 2%positive]
  /\ (isCoinbase <$> h_txns (heap Toy.w_overflow) !! 2%positive) = Some false
  /\ (InputValue <$> txn_body (heap Toy.w_overflow) 2%positive) = Some 12
  /\ (Change <$> txn_body (heap Toy.w_overflow) 2%positive) = Some 4294967295
  /\ (Fee <$> txn_body (heap Toy.w_overflow) 2%positive) = Some 2
  /\ 12 < 4294967295 + 2
  /\ add32 4294967295 2 = 1
  /\ fst (OutputValue 2%positive Toy.w_overflow) = Ok 11.
Proof. vm_compute. repeat split. Qed.

(** * What the validator reads of a transaction *)

Section Views.
Context `{P : Primitives}.

Lemma similar_txn h h' p :
  similar h h' ->
  match h_txns h' !! p, h_txns h !! p with
  | Some t', Some t => txn_view t' = txn_view t
  | None, None => True
  | _, _ => False
  end.
Proof.
  intros (_ & _ & Ht & _). specialize (Ht p).
  destruct (h_txns h' !! p), (h_txns h !! p); simpl in Ht;
    try discriminate; [congruence|trivial].
Qed.

Lemma similar_tbody h h' q :
  similar h h' ->
  match h_tbodies h' !! q, h_tbodies h !! q with
  | Some b', Some b => tbody_view b' = tbody_view b
  | None, None => True
  | _, _ => False
  end.
Proof.
  intros (_ & _ & _ & Hb). specialize (Hb q).
  destruct (h_tbodies h' !! q), (h_tbodies h !! q); simpl in Hb;
    try discriminate; [congruence|trivial].
Qed.

Lemma similar_outputValue_of h h' p :
  similar h h' -> outputValue_of h' p = outputValue_of h p.
Proof.
  intros Hs. unfold outputValue_of.
  pose proof (similar_txn h h' p Hs) as Ht.
  destruct (h_txns h' !! p) as [t'|], (h_txns h !! p) as [t|]; try contradiction;
    [|reflexivity].
  injection Ht as Hb Hh Hc. rewrite Hb, Hc.
  pose proof (similar_tbody h h' (tx_Body t) Hs) as Hq.
  destruct (h_tbodies h' !! tx_Body t) as [b'|], (h_tbodies h !! tx_Body t) as [b|];
    try contradiction; [|reflexivity].
  injection Hq as Ho Hi Hch Hf. rewrite Hi, Hch, Hf. reflexivity.
Qed.

Lemma fst_indexTransaction all p w :
  fst (indexTransaction all p w) =
  Res_bind (deref (h_txns (heap w) !! p)) (fun tx =>
    Ok (<[hex_EncodeToString (tx_BodyHash tx) := p]> all)).
Proof.
  unfold indexTransaction.
  rewrite fst_bind_reader, fst_deref_txn by auto with reader. reflexivity.
Qed.

Lemma similar_indexTransaction w w' all p :
  similar (heap w) (heap w') ->
  fst (indexTransaction all p w') = fst (indexTransaction all p w).
Proof.
  intros Hs. rewrite !fst_indexTransaction.
  pose proof (similar_txn _ _ p Hs) as Ht.
  destruct (h_txns (heap w') !! p) as [t'|], (h_txns (heap w) !! p) as [t|];
    try contradiction; [|reflexivity].
  injection Ht as _ Hh _. simpl. rewrite Hh. reflexivity.
Qed.

Lemma similar_foldM {A B} (f : B -> A -> M B) w w' l :
  (forall b a, reader (f b a)) ->
  (forall b a, a ∈ l -> fst (f b a w') = fst (f b a w)) ->
  forall b, fst (foldM f l b w') = fst (foldM f l b w).
Proof.
  intros Hf. induction l as [|a l IH]; intros Hl b.
  - reflexivity.
  - rewrite !fst_foldM_cons by assumption.
    rewrite Hl by (left).
    destruct (fst (f b a w)); simpl; try reflexivity.
    apply IH. intros b' a' Ha'. apply Hl. now right.
Qed.

Lemma similar_indexBlock w w' all b :
  similar (heap w) (heap w') ->
  fst (indexBlock all b w') = fst (indexBlock all b w).
Proof.
  intros Hs. unfold indexBlock.
  rewrite !fst_bind_reader, !fst_deref_block by auto 12 with reader.
  destruct Hs as (Hb & Hq & Hrest). rewrite Hb.
  destruct (h_blocks (heap w) !! b) as [blk|]; simpl; [|reflexivity].
  rewrite !fst_bind_reader, !fst_deref_body by auto 12 with reader.
  rewrite Hq.
  destruct (h_bodies (heap w) !! Body blk) as [body|]; simpl; [|reflexivity].
  apply similar_foldM; [auto with reader|].
  intros all' p _. apply similar_indexTransaction. repeat split; tauto.
Qed.

Lemma similar_verifyLink w w' blocks nbody :
  similar (heap w) (heap w') ->
  fst (verifyLink blocks nbody w') = fst (verifyLink blocks nbody w).
Proof.
  intros (Hb & Hq & _). unfold verifyLink.
  destruct (last blocks) as [headBlock|]; [|destruct (negb _); reflexivity].
  rewrite !fst_bind_reader, !fst_deref_block by auto 12 with reader.
  rewrite Hb.
  destruct (h_blocks (heap w) !! headBlock) as [hb|]; simpl; [|reflexivity].
  rewrite !fst_bind_reader, !fst_deref_body by auto 12 with reader.
  rewrite Hq.
  destruct (h_bodies (heap w) !! Body hb) as [hbody|]; simpl; [|reflexivity].
  repeat (destruct (negb _); [reflexivity|]). reflexivity.
Qed.

Lemma similar_verifyInputs w w' all tx hashes :
  similar (heap w) (heap w') ->
  forall i acc,
  fst (verifyInputs all tx i hashes acc w') = fst (verifyInputs all tx i hashes acc w).
Proof.
  intros Hs. induction hashes as [|hash hashes IH]; intros i acc; simpl.
  - reflexivity.
  - destruct (all !! hex_EncodeToString hash) as [p|]; [|reflexivity].
    destruct (OwnerSignatures tx !! i) as [sg|]; [|reflexivity].
    rewrite !fst_bind_reader, !fst_deref_txn by auto 12 with reader.
    pose proof (similar_txn _ _ p Hs) as Ht.
    pose proof (similar_outputValue_of _ _ p Hs) as Hov.
    destruct (h_txns (heap w') !! p) as [t'|], (h_txns (heap w) !! p) as [t|];
      try contradiction; [|reflexivity].
    injection Ht as Hbp _ _. simpl.
    rewrite !fst_bind_reader, !fst_deref_tbody by auto 12 with reader.
    rewrite Hbp.
    pose proof (similar_tbody _ _ (tx_Body t) Hs) as Hq.
    destruct (h_tbodies (heap w') !! tx_Body t) as [b'|],
             (h_tbodies (heap w) !! tx_Body t) as [b|];
      try contradiction; [|reflexivity].
    injection Hq as Ho _ _ _. simpl. rewrite Ho.
    destruct (negb _); [reflexivity|].
    rewrite !fst_bind_reader, !fst_OutputValue, Hov by auto with reader.
    destruct (outputValue_of (heap w) p); simpl; [apply IH|reflexivity].
Qed.

Lemma similar_verifyTransaction w w' st p :
  similar (heap w) (heap w') ->
  same_txn (heap w) (heap w') p ->
  fst (verifyTransaction st p w') = fst (verifyTransaction st p w).
Proof.
  intros Hs [Ht Hb]. rewrite !verifyTransaction_verdict, Ht.
  destruct (h_txns (heap w) !! p) as [tx|]; simpl; [|reflexivity].
  rewrite (Hb tx eq_refl).
  destruct (h_tbodies (heap w) !! tx_Body tx) as [body|]; simpl; [|reflexivity].
  rewrite (similar_verifyInputs w w') by assumption. reflexivity.
Qed.

(** Two worlds with the same clock and similar heaps, in which the
    candidate's later transactions are the same objects, get the same
    verdict. *)
Lemma similar_verifyExceptNonce w w' blocks newBlock :
  similar (heap w) (heap w') ->
  clock w' (ticks w') = clock w (ticks w) ->
  (forall nbody p,
     block_body (heap w) newBlock = Some nbody ->
     p ∈ tail (Transactions nbody) -> same_txn (heap w) (heap w') p) ->
  fst (verifyExceptNonce blocks newBlock w') = fst (verifyExceptNonce blocks newBlock w).
Proof.
  intros Hs Hclock Hrest. rewrite !verifyExceptNonce_verdict.
  pose proof Hs as (Hb & Hq & _). rewrite Hb, Hclock.
  unfold block_body in Hrest.
  destruct (h_blocks (heap w) !! newBlock) as [nb|]; simpl; [|reflexivity].
  rewrite Hq.
  destruct (h_bodies (heap w) !! Body nb) as [nbody|]; simpl; [|reflexivity].
  specialize (Hrest nbody).
  destruct (negb _); [reflexivity|].
  rewrite (similar_verifyLink w w') by assumption.
  destruct (fst (verifyLink blocks nbody w)); simpl; try reflexivity.
  destruct (Time_After _ _); [reflexivity|].
  destruct (Transactions nbody) as [|cbp rest]; [reflexivity|].
  rewrite (similar_foldM indexBlock w w');
    [|auto with reader|intros; now apply similar_indexBlock].
  destruct (fst (foldM indexBlock blocks ∅ w)) as [all|e| |]; simpl; try reflexivity.
  pose proof (similar_txn _ _ cbp Hs) as Ht.
  destruct (h_txns (heap w') !! cbp) as [cb'|], (h_txns (heap w) !! cbp) as [cb|];
    try contradiction; [|reflexivity].
  injection Ht as Hbp Hh _. simpl. unfold seedTransactions. rewrite Hh, Hbp.
  rewrite (similar_foldM verifyTransaction w w');
    [|auto with reader
     |intros st p Hp; apply similar_verifyTransaction; [assumption|now apply Hrest]].
  destruct (fst (foldM verifyTransaction rest _ w)) as [st|e| |]; simpl; try reflexivity.
  pose proof (similar_tbody _ _ (tx_Body cb) Hs) as Hcq.
  destruct (h_tbodies (heap w') !! tx_Body cb) as [b'|],
           (h_tbodies (heap w) !! tx_Body cb) as [b|];
    try contradiction; [|reflexivity].
  injection Hcq as _ Hi _ _. simpl. rewrite Hi. reflexivity.
Qed.

End Views.

(** * The first transaction *)

Section FirstTransaction.
Context `{P : Primitives}.

Lemma similar_restructure h p t hashes sigs :
  h_txns h !! p = Some t -> similar h (restructure h p hashes sigs).
Proof.
  intros Ht. unfold restructure. rewrite Ht.
  split; [reflexivity|]. split; [reflexivity|]. split; simpl.
  - intros p'. destruct (decide (p = p')) as [<-|Hne].
    + rewrite lookup_insert_eq, Ht. reflexivity.
    + rewrite lookup_insert_ne by assumption. reflexivity.
  - intros q. destruct (decide (tx_Body t = q)) as [<-|Hne].
    + rewrite lookup_alter_eq. destruct (h_tbodies h !! tx_Body t); reflexivity.
    + rewrite lookup_alter_ne by assumption. reflexivity.
Qed.

(** C10 (amended). Of the candidate's first transaction the validator
    reads neither the input hashes nor the signatures: when the first
    entry [cbp] is not also a later entry and shares its body with none,
    the verdict is the same whatever hashes and signatures it carries.
    Nor is its coinbase flag a condition of acceptance: whenever the
    block-level checks pass, the later transactions validate and its
    [InputValue] is the fees plus [MiningReward], the candidate is
    accepted. *)
Theorem first_transaction_structure_unread blocks newBlock w nb nbody cbp rest cb cbody :
  h_blocks (heap w) !! newBlock = Some nb ->
  h_bodies (heap w) !! Body nb = Some nbody ->
  Transactions nbody = cbp :: rest ->
  h_txns (heap w) !! cbp = Some cb ->
  h_tbodies (heap w) !! tx_Body cb = Some cbody ->
  (cbp ∉ rest ->
   (forall p t, p ∈ rest -> h_txns (heap w) !! p = Some t -> tx_Body t <> tx_Body cb) ->
   forall hashes sigs,
     fst (verifyExceptNonce blocks newBlock
            (set_heap (restructure (heap w) cbp hashes sigs) w))
     = fst (verifyExceptNonce blocks newBlock w))
  /\ (forall allTransactions st,
        Version nbody = CurrentVersion ->
        fst (verifyLink blocks nbody w) = Ok tt ->
        Time_After (Time_ nbody) (clock w (ticks w)) = false ->
        fst (foldM indexBlock blocks ∅ w) = Ok allTransactions ->
        fst (foldM verifyTransaction rest
               (seedTransactions allTransactions cbp cb, 0) w) = Ok st ->
        InputValue cbody = add32 (blockFees (heap w) rest) MiningReward ->
        fst (verifyExceptNonce blocks newBlock w) = Ok tt).
Proof.
  intros Hnb Hbody Htxs Hcb Hcbody. split.
  - intros Hfresh Hbodies hashes sigs.
    apply similar_verifyExceptNonce.
    + simpl. now apply similar_restructure with (t := cb).
    + reflexivity.
    + intros nbody' p Hbb Hp. unfold block_body in Hbb.
      rewrite Hnb, Hbody in Hbb. injection Hbb as <-.
      rewrite Htxs in Hp. simpl in Hp.
      assert (p <> cbp) as Hne by (intros ->; contradiction).
      simpl. unfold restructure. rewrite Hcb. split; simpl.
      * rewrite lookup_insert_ne by congruence. reflexivity.
      * intros t Ht. rewrite lookup_alter_ne; [reflexivity|].
        intros Heq. now apply (Hbodies p t Hp Ht).
  - intros all st Hv Hlink Hnow Hall Hloop Hval.
    rewrite (verifyExceptNonce_coinbase_check blocks newBlock w nb nbody cbp rest
               cb cbody all st) by assumption.
    rewrite Hval, Z.eqb_refl. reflexivity.
Qed.

End FirstTransaction.

(** In [w_odd_plain] the first transaction has an input hash, a
    signature and no coinbase flag: stripping the hash and the signature
    leaves the verdict as it is, and the candidate is accepted. *)
Lemma first_transaction_structure_unread_witness :
  fst (verifyExceptNonce [] 1%positive
         (set_heap (restructure (heap Toy.w_odd_plain) 1%positive [] [])
            Toy.w_odd_plain))
  = fst (verifyExceptNonce [] 1%positive Toy.w_odd_plain)
  /\ fst (verifyExceptNonce [] 1%positive Toy.w_odd_plain) = Ok tt.
Proof.
  pose (w := Toy.w_odd_plain).
  resolve nb (h_blocks (heap w) !! 1%positive).
  resolve nbody (h_bodies (heap w) !! Body nb).
  resolve cb (h_txns (heap w) !! 1%positive).
  resolve cbody (h_tbodies (heap w) !! tx_Body cb).
  destruct (first_transaction_structure_unread (P := Toy.primitives) [] 1%positive w
              nb nbody 1%positive [2%positive] cb cbody
              ltac:(by_eval) ltac:(by_eval) ltac:(by_eval) ltac:(by_eval)
              ltac:(by_eval)) as [Hunread Haccept].
  split.
  - apply Hunread.
    + intros Hin. apply list_elem_of_singleton in Hin. discriminate.
    + intros p t Hin. apply list_elem_of_singleton in Hin. subst p.
      intros Ht. vm_compute in Ht. injection Ht as <-. vm_compute. discriminate.
  - resolve_ok st (fst (foldM verifyTransaction [2%positive]
                          (seedTransactions ∅ 1%positive cb, 0) w)).
    exact (Haccept ∅ st ltac:(by_eval) ltac:(by_eval) ltac:(by_eval)
             ltac:(by_eval) ltac:(by_eval) ltac:(by_eval)).
Defined.

(** C10, as stated, fails for the coinbase flag.  The heaps of
    [w_odd_plain] and [w_odd_coinbase] differ in nothing but the flag of
    the candidate's first transaction, which the second transaction
    spends; the first candidate is accepted and the second rejected. *)
Lemma coinbase_flag_counterexample :
  heap Toy.w_odd_coinbase = reflag (heap Toy.w_odd_plain) 1%positive true
  /\ (Transactions <$> block_body (heap Toy.w_odd_plain) 1%positive)
     = Some [1%positive; 2%positive]
  /\ fst (verifyExceptNonce [] 1%positive Toy.w_odd_plain) = Ok tt
  /\ fst (verifyExceptNonce [] 1%positive Toy.w_odd_coinbase) = Err ValueMismatch.
Proof. vm_compute. repeat split. Qed.

(** Why the first transaction must share its body with no later one.  In
    [w_shared] the candidate's two transactions (2 and 3) are made of the
    same body, and the candidate is accepted; with the input hashes of the
    first transaction removed, which are those of the second, it is
    rejected. *)
Lemma shared_body_is_read :
  (Transactions <$> block_body (heap Toy.w_shared) 2%positive)
  = Some [2%positive; 3%positive]
  /\ (tx_Body <$> h_txns (heap Toy.w_shared) !! 2%positive)
     = (tx_Body <$> h_txns (heap Toy.w_shared) !! 3%positive)
  /\ fst (verifyExceptNonce [1%positive] 2%positive Toy.w_shared) = Ok tt
  /\ fst (verifyExceptNonce [1%positive] 2%positive
            (set_heap (restructure (heap Toy.w_shared) 2%positive [] []) Toy.w_shared))
     = Err SignatureCountMismatch.
Proof. vm_compute. repeat split. Qed.

(** * Construction of transactions and blocks *)

Section Construction.
Context `{P : Primitives}.

Lemma run_eq {A} (m : M A) w r : fst (m w) = r -> m w = (r, snd (m w)).
Proof. intros <-. apply surjective_pairing. Qed.

Lemma signAll_length bodyHash privs :
  forall sigs w sigs' w',
  signAll bodyHash privs sigs w = (Ok sigs', w') ->
  length sigs' = (length sigs + length privs)%nat /\ heap w' = heap w.
Proof.
  unfold signAll. induction privs as [|priv privs IH]; intros sigs w sigs' w'; simpl.
  - unfold ret. intros [= <- <-]. split; [lia|reflexivity].
  - unfold bind at 1. unfold bind at 1. unfold rand_Reader at 1.
    destruct (ecdsa_Sign _ priv bodyHash) as [[r s]|]; simpl; [|discriminate].
    intros Hrest. apply IH in Hrest as [Hlen Hheap].
    rewrite Hlen, Hheap, length_app. simpl. split; [lia|reflexivity].
Qed.

(** C2 (amended). [NewTransaction] signs once per signing key whatever
    the coinbase flag.  When it returns a transaction, that transaction
    carries as many signatures as keys were given, so none exactly when no
    key was given; it carries the flag it was given; and with the other
    value of the flag the call returns the same signatures. *)
Theorem NewTransaction_signatures body privs isCoinbase_ w p w' :
  NewTransaction body privs isCoinbase_ w = (Ok p, w') ->
  exists tx,
    h_txns (heap w') !! p = Some tx
    /\ length (OwnerSignatures tx) = length privs
    /\ (OwnerSignatures tx = [] <-> privs = [])
    /\ isCoinbase tx = isCoinbase_
    /\ exists w'',
         NewTransaction body privs (negb isCoinbase_) w = (Ok p, w'')
         /\ (OwnerSignatures <$> h_txns (heap w'') !! p) = Some (OwnerSignatures tx).
Proof.
  unfold NewTransaction.
  rewrite !bind_reader by (unfold TransactionBody_hash; auto with reader).
  destruct (fst (TransactionBody_hash body w)) as [bodyHash|e| |]; try discriminate.
  unfold bind.
  destruct (signAll bodyHash privs [] w) as [[sigs|e| |] w1] eqn:Hsign; try discriminate.
  apply signAll_length in Hsign as [Hlen Hheap]. simpl in Hlen.
  unfold new_txn. intros [= <- <-]. simpl.
  eexists. split; [apply lookup_insert_eq|]. simpl.
  split; [assumption|]. split.
  { split; intros H.
    - rewrite H in Hlen. now destruct privs.
    - subst privs. now destruct sigs. }
  split; [reflexivity|].
  eexists. split; [reflexivity|]. simpl. rewrite lookup_insert_eq. reflexivity.
Qed.

End Construction.

(** Built with one key, a transaction carries one signature. *)
Lemma NewTransaction_signatures_witness :
  exists tx,
    h_txns (heap (snd (NewTransaction 1%positive [Toy.bob] false Toy.w_tbody)))
      !! 1%positive = Some tx
    /\ length (OwnerSignatures tx) = 1%nat.
Proof.
  destruct (NewTransaction_signatures (P := Toy.primitives) 1%positive [Toy.bob] false
              Toy.w_tbody 1%positive
              (snd (NewTransaction 1%positive [Toy.bob] false Toy.w_tbody))
              (run_eq (NewTransaction 1%positive [Toy.bob] false) Toy.w_tbody
                 (Ok 1%positive) ltac:(by_eval)))
    as (tx & Htx & Hlen & _).
  exists tx. split; assumption.
Defined.

(** C2, as stated, fails: [signed_coinbase] calls [NewTransaction] with
    [isCoinbase = true] and one signing key; the transaction it returns is
    flagged as coinbase and carries one signature. *)
Lemma coinbase_signed_counterexample :
  fst (Toy.signed_coinbase Toy.w0) = Ok 1%positive
  /\ (isCoinbase <$> h_txns (heap Toy.w_signed) !! 1%positive) = Some true
  /\ (length <$> (OwnerSignatures <$> h_txns (heap Toy.w_signed) !! 1%positive))
     = Some 1%nat.
Proof. vm_compute. repeat split. Qed.

(** * Two-phase hashing *)

Section TwoPhase.
Context `{P : Primitives}.

Lemma reader_staticHash q : reader (staticHash q).
Proof. unfold staticHash. auto 10 with reader. Qed.

(** The static hash is a function of the static fields of the body and of
    the transactions on the heap. *)
Lemma staticHash_static w w' q body body' :
  h_bodies (heap w) !! q = Some body ->
  h_bodies (heap w') !! q = Some body' ->
  Version body' = Version body -> Id body' = Id body ->
  PrevHash body' = PrevHash body -> Transactions body' = Transactions body ->
  h_txns (heap w') = h_txns (heap w) ->
  fst (staticHash q w') = fst (staticHash q w).
Proof.
  intros Hb Hb' Hv Hi Hp Ht Htx. unfold staticHash.
  rewrite !fst_bind_reader, !fst_deref_body, Hb, Hb' by auto 10 with reader.
  simpl. rewrite Hv, Hi, Hp, Ht.
  rewrite !fst_bind_reader by auto 10 with reader.
  rewrite (similar_foldM _ w w'); [reflexivity|auto with reader|].
  intros h t _. rewrite !fst_bind_reader, !fst_deref_txn, Htx by auto with reader.
  reflexivity.
Qed.

Lemma NewBlock_ok q w b w1 :
  NewBlock q w = (Ok b, w1) ->
  exists s body h,
    fst (staticHash q w) = Ok s
    /\ h_bodies (heap w) !! q = Some body
    /\ calculateBodyHash s (Nonce body) (Time_ body) = Ok h
    /\ b = fresh (dom (h_blocks (heap w)))
    /\ w1 = set_heap (heap_set_block b
                        {| Body := q; BodyHash := h; bodyStaticHash := s |} (heap w)) w.
Proof.
  unfold NewBlock. rewrite bind_reader by apply reader_staticHash.
  destruct (fst (staticHash q w)) as [s|e| |] eqn:Hs; try discriminate.
  rewrite bind_reader, fst_deref_body by auto with reader.
  destruct (h_bodies (heap w) !! q) as [body|] eqn:Hb; simpl; [|discriminate].
  unfold bind, lift.
  destruct (calculateBodyHash s (Nonce body) (Time_ body)) as [h|e| |] eqn:Hh;
    try discriminate.
  unfold new_block. intros [= <- <-]. exists s, body, h. repeat split; assumption.
Qed.

Lemma NewBlock_run q w s body :
  fst (staticHash q w) = Ok s ->
  h_bodies (heap w) !! q = Some body ->
  NewBlock q w =
  match calculateBodyHash s (Nonce body) (Time_ body) with
  | Ok h =>
      (Ok (fresh (dom (h_blocks (heap w)))),
       set_heap (heap_set_block (fresh (dom (h_blocks (heap w))))
                   {| Body := q; BodyHash := h; bodyStaticHash := s |} (heap w)) w)
  | Err e => (Err e, w)
  | Panic => (Panic, w)
  | OutOfFuel => (OutOfFuel, w)
  end.
Proof.
  intros Hs Hb. unfold NewBlock. rewrite bind_reader, Hs by apply reader_staticHash.
  rewrite bind_reader, fst_deref_body, Hb by auto with reader. simpl.
  unfold bind, lift.
  destruct (calculateBodyHash s (Nonce body) (Time_ body)); reflexivity.
Qed.

(** What [SetFields] does to the world, for a block and body that resolve. *)
Lemma SetFields_run b nonce time w blk body :
  h_blocks (heap w) !! b = Some blk ->
  h_bodies (heap w) !! Body blk = Some body ->
  SetFields b nonce time w =
  let h1 := heap_set_body (Body blk) (set_Time time (set_Nonce nonce body)) (heap w) in
  match Time_MarshalText time with
  | None => (Err MarshalTextError, set_heap h1 w)
  | Some timeText =>
      (Ok tt,
       set_heap (heap_set_block b
                   (set_BodyHash (sha256 (bodyStaticHash blk ++ le32 nonce ++ timeText)) blk)
                   h1) w)
  end.
Proof.
  intros Hb Hq. unfold SetFields.
  rewrite bind_reader, fst_deref_block, Hb by auto with reader. simpl.
  unfold bind at 1. unfold store_body at 1. rewrite Hq.
  unfold bind at 1. unfold store_body at 1. simpl. rewrite lookup_insert_eq.
  unfold bind at 1. unfold deref_body at 1. simpl. rewrite lookup_insert_eq.
  unfold heap_set_body; simpl. rewrite insert_insert_eq.
  unfold bind, lift, calculateBodyHash. simpl.
  destruct (Time_MarshalText time) as [timeText|]; [|reflexivity].
  unfold store_block. simpl. rewrite Hb. reflexivity.
Qed.

(** C8. Two-phase hashing.  Let [NewBlock] have made the block [b] of
    the body [body].  [SetFields b nonce time] fails exactly as [NewBlock]
    on the body with that nonce and time would; when it succeeds, the body
    holds the nonce and the time, and the [BodyHash] it leaves in [b] is
    the one [NewBlock] computes from scratch for that body, is the digest
    of the cached static hash, the nonce and the time, and is the same
    when no transaction is left on the heap to be hashed. *)
Theorem two_phase_hashing body w b w1 nonce time :
  NewBlock body w = (Ok b, w1) ->
  match SetFields b nonce time w1 with
  | (Ok _, w2) =>
      exists blk bd,
        h_blocks (heap w2) !! b = Some blk
        /\ h_bodies (heap w2) !! body = Some bd
        /\ Nonce bd = nonce /\ Time_ bd = time
        /\ (exists b' w3,
              NewBlock body w2 = (Ok b', w3)
              /\ (BodyHash <$> h_blocks (heap w3) !! b') = Some (BodyHash blk))
        /\ (bodyStaticHash <$> h_blocks (heap w1) !! b) = Some (bodyStaticHash blk)
        /\ calculateBodyHash (bodyStaticHash blk) nonce time = Ok (BodyHash blk)
        /\ (BodyHash <$>
              h_blocks (heap (snd (SetFields b nonce time (forget_transactions w1)))) !! b)
           = Some (BodyHash blk)
  | (Err e, w2) => fst (NewBlock body w2) = Err e
  | _ => False
  end.
Proof.
  intros Hnew. apply NewBlock_ok in Hnew as (s & bd0 & h0 & Hs & Hbd & Hh0 & Hb & ->).
  set (blk0 := {| Body := body; BodyHash := h0; bodyStaticHash := s |}).
  assert (Hblk : h_blocks (heap (set_heap (heap_set_block b blk0 (heap w)) w)) !! b
                 = Some blk0) by (simpl; apply lookup_insert_eq).
  rewrite (SetFields_run b nonce time _ blk0 bd0 Hblk Hbd).
  pose (bd := set_Time time (set_Nonce nonce bd0)).
  cbv zeta. fold bd. unfold calculateBodyHash.
  destruct (Time_MarshalText time) as [timeText|] eqn:Htext.
  - set (hh := sha256 (bodyStaticHash blk0 ++ le32 nonce ++ timeText)).
    exists (set_BodyHash hh blk0), bd. simpl.
    split; [apply lookup_insert_eq|]. split; [apply lookup_insert_eq|].
    split; [reflexivity|]. split; [reflexivity|]. split; [|split; [|split]].
    + match goal with |- exists b' w3, NewBlock body ?w2 = _ /\ _ =>
        assert (Hs2 : fst (staticHash body w2) = Ok s) end.
      { rewrite <- Hs. apply (staticHash_static w _ body bd0 bd); try reflexivity.
        - assumption.
        - simpl. apply lookup_insert_eq. }
      eexists _, _. split.
      * rewrite (NewBlock_run body _ s bd Hs2) by (simpl; apply lookup_insert_eq).
        unfold calculateBodyHash. simpl. rewrite Htext. reflexivity.
      * simpl. rewrite lookup_insert_eq. reflexivity.
    + rewrite lookup_insert_eq. reflexivity.
    + reflexivity.
    + rewrite (SetFields_run b nonce time (forget_transactions _) blk0 bd0)
        by (simpl; first [apply lookup_insert_eq | assumption]).
      cbv zeta. rewrite Htext. simpl. rewrite lookup_insert_eq. reflexivity.
  - match goal with |- fst (NewBlock body ?w2) = _ =>
      assert (Hs2 : fst (staticHash body w2) = Ok s) end.
    { rewrite <- Hs. apply (staticHash_static w _ body bd0 bd); try reflexivity.
      - assumption.
      - simpl. apply lookup_insert_eq. }
    rewrite (NewBlock_run body _ s bd Hs2) by (simpl; apply lookup_insert_eq).
    unfold calculateBodyHash. simpl. rewrite Htext. reflexivity.
Qed.

End TwoPhase.

(** In [w_body], [NewBlock] makes block 1 of body 1; after
    [SetFields] with nonce 3 and time 1005 a second [NewBlock] on the body
    computes the hash that block 1 holds. *)
Lemma two_phase_hashing_witness :
  exists b' w3,
    NewBlock 1%positive Toy.w_set = (Ok b', w3)
    /\ (BodyHash <$> h_blocks (heap w3) !! b')
       = (BodyHash <$> h_blocks (heap Toy.w_set) !! 1%positive).
Proof.
  pose proof (two_phase_hashing (P := Toy.primitives) 1%positive Toy.w_body 1%positive
                Toy.w_block 3 1005
                (run_eq (NewBlock 1%positive) Toy.w_body (Ok 1%positive) ltac:(by_eval)))
    as H.
  rewrite (run_eq (SetFields (P := Toy.primitives) 1%positive 3 1005) Toy.w_block
             (Ok tt) ltac:(by_eval)) in H.
  destruct H as (blk & bd & Hblk & _ & _ & _ & (b' & w3 & Hnew & Hhash) & _).
  exists b', w3. split; [exact Hnew|].
  rewrite Hhash. symmetry. exact (f_equal (fmap BodyHash) Hblk).
Defined.

(** * Termination and clock readings *)

Section Termination.
Context `{P : Primitives}.

Lemma terminates_ret {A} (a : A) : terminates (ret a).
Proof. intros w. discriminate. Qed.
Lemma terminates_fail {A} e : terminates (@fail P A e).
Proof. intros w. discriminate. Qed.
Lemma terminates_panic {A} : terminates (@panic P A).
Proof. intros w. discriminate. Qed.
Lemma terminates_lift {A} (r : Res A) : r <> OutOfFuel -> terminates (lift r).
Proof. intros Hr w. exact Hr. Qed.

Lemma terminates_bind {A B} (m : M A) (k : A -> M B) :
  terminates m -> (forall a, terminates (k a)) -> terminates (bind m k).
Proof.
  intros Hm Hk w. unfold bind. specialize (Hm w).
  destruct (m w) as [[a|e| |] w1]; simpl in *; try discriminate.
  - apply Hk.
  - contradiction.
Qed.

Lemma terminates_foldM {A B} (f : B -> A -> M B) l :
  (forall b a, terminates (f b a)) -> forall b, terminates (foldM f l b).
Proof.
  intros Hf. induction l as [|a l IH]; intros b; simpl.
  - apply terminates_ret.
  - apply terminates_bind; auto.
Qed.

Lemma terminates_deref_block p : terminates (deref_block p).
Proof. intros w. unfold deref_block. destruct (_ !! _); discriminate. Qed.
Lemma terminates_deref_body p : terminates (deref_body p).
Proof. intros w. unfold deref_body. destruct (_ !! _); discriminate. Qed.
Lemma terminates_deref_txn p : terminates (deref_txn p).
Proof. intros w. unfold deref_txn. destruct (_ !! _); discriminate. Qed.
Lemma terminates_deref_tbody p : terminates (deref_tbody p).
Proof. intros w. unfold deref_tbody. destruct (_ !! _); discriminate. Qed.
Lemma terminates_store_block p f : terminates (store_block p f).
Proof. intros w. unfold store_block. destruct (_ !! _); discriminate. Qed.
Lemma terminates_store_body p f : terminates (store_body p f).
Proof. intros w. unfold store_body. destruct (_ !! _); discriminate. Qed.
Lemma terminates_new_block b : terminates (new_block b).
Proof. intros w. discriminate. Qed.
Lemma terminates_time_Now : terminates time_Now.
Proof. intros w. discriminate. Qed.

Lemma calculateBodyHash_terminates s nonce time :
  calculateBodyHash s nonce time <> OutOfFuel.
Proof. unfold calculateBodyHash. destruct (Time_MarshalText time); discriminate. Qed.

Lemma quiet_ret {A} (a : A) : quiet (ret a).
Proof. intros w. repeat split. Qed.
Lemma quiet_reader {A} (m : M A) : reader m -> quiet m.
Proof. intros Hm w. destruct (Hm w) as [-> _]. repeat split. Qed.
Lemma quiet_bind {A B} (m : M A) (k : A -> M B) :
  quiet m -> (forall a, quiet (k a)) -> quiet (bind m k).
Proof.
  intros Hm Hk w. unfold bind. specialize (Hm w).
  destruct (m w) as [[a|e| |] w1]; simpl in *; try assumption.
  destruct (Hk a w1) as (-> & -> & ->). assumption.
Qed.
Lemma quiet_store_block p f : quiet (store_block p f).
Proof. intros w. unfold store_block. destruct (_ !! _); repeat split. Qed.
Lemma quiet_store_body p f : quiet (store_body p f).
Proof. intros w. unfold store_body. destruct (_ !! _); repeat split. Qed.
Lemma quiet_new_block b : quiet (new_block b).
Proof. intros w. repeat split. Qed.

End Termination.

Create HintDb terminates discriminated.
#[export] Hint Resolve terminates_ret terminates_fail terminates_panic
  terminates_deref_block terminates_deref_body terminates_deref_txn
  terminates_deref_tbody terminates_store_block terminates_store_body
  terminates_new_block terminates_time_Now calculateBodyHash_terminates : terminates.
#[export] Hint Extern 2 (terminates (bind _ _)) =>
  apply terminates_bind; [ | intro ] : terminates.
#[export] Hint Extern 2 (terminates (foldM _ _ _)) =>
  apply terminates_foldM; intros : terminates.
#[export] Hint Extern 2 (terminates (lift _)) => apply terminates_lift : terminates.
#[export] Hint Extern 3 (terminates (if ?b then _ else _)) => destruct b : terminates.
#[export] Hint Extern 3 (terminates (match ?x with _ => _ end)) => destruct x : terminates.

Create HintDb quiet discriminated.
#[export] Hint Resolve quiet_ret quiet_store_block quiet_store_body quiet_new_block
  : quiet.
#[export] Hint Extern 2 (quiet (bind _ _)) => apply quiet_bind; [ | intro ] : quiet.
#[export] Hint Extern 5 (quiet _) => apply quiet_reader; auto 12 with reader : quiet.

Section Mining.
Context `{P : Primitives}.

Lemma terminates_OutputValue t : terminates (OutputValue t).
Proof. unfold OutputValue. auto 10 with terminates. Qed.

Lemma terminates_verifyInputs all tx hashes :
  forall i acc, terminates (verifyInputs all tx i hashes acc).
Proof.
  induction hashes as [|h hashes IH]; intros i acc; simpl.
  - apply terminates_ret.
  - pose proof terminates_OutputValue. auto 12 with terminates.
Qed.

Lemma terminates_verifyTransaction st t : terminates (verifyTransaction st t).
Proof.
  unfold verifyTransaction. pose proof terminates_verifyInputs.
  auto 12 with terminates.
Qed.

Lemma terminates_indexBlock all b : terminates (indexBlock all b).
Proof. unfold indexBlock, indexTransaction. auto 12 with terminates. Qed.

Lemma terminates_verifyLink blocks nbody : terminates (verifyLink blocks nbody).
Proof. unfold verifyLink. auto 12 with terminates. Qed.

Lemma terminates_verifyExceptNonce blocks newBlock :
  terminates (verifyExceptNonce blocks newBlock).
Proof.
  unfold verifyExceptNonce.
  pose proof terminates_verifyLink. pose proof terminates_indexBlock.
  pose proof terminates_verifyTransaction.
  auto 20 with terminates.
Qed.

Lemma terminates_staticHash q : terminates (staticHash q).
Proof. unfold staticHash. auto 10 with terminates. Qed.

Lemma terminates_NewBlock q : terminates (NewBlock q).
Proof.
  unfold NewBlock. pose proof terminates_staticHash. auto 10 with terminates.
Qed.

Lemma terminates_SetFields b nonce time : terminates (SetFields b nonce time).
Proof. unfold SetFields. auto 12 with terminates. Qed.

Lemma terminates_nonceIsValid b : terminates (nonceIsValid b).
Proof. unfold nonceIsValid. auto with terminates. Qed.

Lemma quiet_SetFields b nonce time : quiet (SetFields b nonce time).
Proof. unfold SetFields. auto 12 with quiet. Qed.

Lemma quiet_nonceIsValid b : quiet (nonceIsValid b).
Proof. unfold nonceIsValid. auto with quiet. Qed.

Lemma quiet_NewBlock q : quiet (NewBlock q).
Proof.
  unfold NewBlock. pose proof reader_staticHash. auto 12 with quiet.
Qed.

(** With a unit of fuel for each nonce still to try, the search stops by
    itself. *)
Lemma terminates_Mine_loop p fuel :
  forall nonce, 0 <= nonce < 2 ^ 32 -> 2 ^ 32 - nonce <= Z.of_nat fuel ->
  terminates (Mine_loop fuel p nonce).
Proof.
  induction fuel as [|fuel IH]; intros nonce Hn Hfuel; [lia|].
  simpl. apply terminates_bind; [apply terminates_time_Now|intros now].
  apply terminates_bind; [apply terminates_SetFields|intros _].
  apply terminates_bind; [apply terminates_nonceIsValid|intros valid].
  destruct valid; simpl; [apply terminates_ret|].
  destruct (Z.eqb_spec (add32 nonce 1) 0) as [|Hne]; [apply terminates_fail|].
  unfold add32, wrap32 in *.
  destruct (Z.eq_dec (nonce + 1) (2 ^ 32)) as [Heq|Hlt].
  - rewrite Heq, Z.mod_same in Hne by lia. contradiction.
  - rewrite Z.mod_small by lia. apply IH; lia.
Qed.

(** The first step of the search, as an equation. *)
Lemma Mine_loop_unfold p fuel nonce w :
  Mine_loop (S fuel) p nonce w =
  match SetFields p nonce (clock w (ticks w)) (tick w) with
  | (Ok _, w1) =>
      match nonceIsValid p w1 with
      | (Ok valid, w2) =>
          if valid then (Ok tt, w2)
          else if add32 nonce 1 =? 0 then (Err NonceSpaceExhausted, w2)
          else Mine_loop fuel p (add32 nonce 1) w2
      | (Err e, w2) => (Err e, w2)
      | (Panic, w2) => (Panic, w2)
      | (OutOfFuel, w2) => (OutOfFuel, w2)
      end
  | (Err e, w1) => (Err e, w1)
  | (Panic, w1) => (Panic, w1)
  | (OutOfFuel, w1) => (OutOfFuel, w1)
  end.
Proof.
  cbn [Mine_loop].
  change (bind time_Now ?k w) with (k (clock w (ticks w)) (tick w)); cbv beta.
  unfold bind at 1.
  destruct (SetFields p nonce (clock w (ticks w)) (tick w)) as [[[]|e| |] w1];
    try reflexivity.
  unfold bind at 1.
  destruct (nonceIsValid p w1) as [[valid|e| |] w2]; try reflexivity.
  destruct valid; simpl; [reflexivity|].
  destruct (add32 nonce 1 =? 0); reflexivity.
Qed.

(** Each iteration reads the clock once and nothing else does. *)
Lemma Mine_loop_ticks p fuel :
  forall nonce w r w',
  Mine_loop fuel p nonce w = (r, w') ->
  (ticks w' <= ticks w + fuel)%nat /\ clock w' = clock w.
Proof.
  induction fuel as [|fuel IH]; intros nonce w r w' Hrun.
  - injection Hrun as _ <-. split; [lia|reflexivity].
  - rewrite Mine_loop_unfold in Hrun.
    destruct (quiet_SetFields p nonce (clock w (ticks w)) (tick w)) as (Ht & Hc & _).
    destruct (SetFields p nonce (clock w (ticks w)) (tick w)) as [[[]|e| |] w1];
      simpl in Ht, Hc;
      try (injection Hrun as _ <-; split; [lia|assumption]).
    destruct (quiet_nonceIsValid p w1) as (Ht2 & Hc2 & _).
    destruct (nonceIsValid p w1) as [[valid|e| |] w2]; simpl in Ht2, Hc2;
      try (injection Hrun as _ <-; split; [lia|congruence]).
    destruct valid; [injection Hrun as _ <-; split; [lia|congruence]|].
    destruct (add32 nonce 1 =? 0); [injection Hrun as _ <-; split; [lia|congruence]|].
    apply IH in Hrun as [Hle Hcl]. split; [lia|congruence].
Qed.

Lemma Mine_loop_mono p fuel :
  forall fuel' nonce w r w',
  (fuel <= fuel')%nat ->
  Mine_loop fuel p nonce w = (r, w') -> r <> OutOfFuel ->
  Mine_loop fuel' p nonce w = (r, w').
Proof.
  induction fuel as [|fuel IH]; intros fuel' nonce w r w' Hle Hrun Hr.
  - injection Hrun as <- _. contradiction.
  - destruct fuel' as [|fuel']; [lia|].
    rewrite Mine_loop_unfold in *.
    destruct (SetFields p nonce (clock w (ticks w)) (tick w)) as [[[]|e| |] w1];
      try assumption.
    destruct (nonceIsValid p w1) as [[valid|e| |] w2]; try assumption.
    destruct valid; [assumption|].
    destruct (add32 nonce 1 =? 0); [assumption|].
    apply (IH fuel'); [lia|assumption|assumption].
Qed.

(** What the search does with less fuel, when it did not run out, [Mine]
    does. *)
Lemma Mine_fuel_enough fuel n q w r w' :
  (fuel <= NonceSpace)%nat ->
  Mine_fuel fuel n q w = (r, w') -> r <> OutOfFuel ->
  Mine n q w = (r, w').
Proof.
  intros Hle Hrun Hr. unfold Mine, Mine_fuel in *.
  unfold bind at 1 in Hrun. unfold bind at 1.
  destruct (NewBlock q w) as [[b|e| |] w1]; try assumption.
  unfold bind at 1 in Hrun. unfold bind at 1.
  destruct (verifyExceptNonce (Blocks (Chain_ n)) b w1) as [[[]|e| |] w2];
    try assumption.
  unfold bind in *.
  destruct (Mine_loop fuel b 0 w2) as [r1 w3] eqn:Hloop.
  assert (r1 <> OutOfFuel) as Hr1.
  { intros ->. injection Hrun as <- _. contradiction. }
  rewrite (Mine_loop_mono b fuel NonceSpace 0 w2 r1 w3 Hle Hloop Hr1).
  assumption.
Qed.

End Mining.

(** * The nonce search *)

Section Search.
Context `{P : Primitives}.

Lemma Ok_inj {A} (a b : A) : Ok a = Ok b -> a = b.
Proof. intros [= ->]. reflexivity. Qed.

Lemma hashed_heap p q s w w' : heap w' = heap w -> hashed p q s w -> hashed p q s w'.
Proof.
  intros Hh (blk & bd & Hblk & Hq & Hs & Hbd & Hst & Hcalc).
  exists blk, bd. rewrite Hh. repeat split; try assumption.
  rewrite <- Hst. apply reader_heap; [apply reader_staticHash|assumption].
Qed.

Lemma hashed_NewBlock q w p w1 :
  NewBlock q w = (Ok p, w1) ->
  exists s, hashed p q s w1 /\ fst (staticHash q w) = Ok s
            /\ ticks w1 = ticks w /\ clock w1 = clock w.
Proof.
  intros Hnew. apply NewBlock_ok in Hnew as (s & bd & h & Hs & Hbd & Hh & Hb & ->).
  exists s. split; [|repeat split; assumption].
  exists {| Body := q; BodyHash := h; bodyStaticHash := s |}, bd. simpl.
  split; [apply lookup_insert_eq|]. repeat split; try assumption.
  rewrite <- Hs. apply (staticHash_static w _ q bd bd); try reflexivity; assumption.
Qed.

Lemma SetFields_hashed p q s w nonce time timeText :
  hashed p q s w ->
  Time_MarshalText time = Some timeText ->
  exists w2,
    SetFields p nonce time w = (Ok tt, w2)
    /\ hashed p q s w2
    /\ ticks w2 = ticks w /\ clock w2 = clock w
    /\ (BodyHash <$> h_blocks (heap w2) !! p)
       = Some (sha256 (s ++ le32 nonce ++ timeText)).
Proof.
  intros (blk & bd & Hblk & Hq & Hs & Hbd & Hst & Hcalc) Htext. subst q s.
  rewrite (SetFields_run p nonce time w blk bd Hblk Hbd). cbv zeta. rewrite Htext.
  eexists. split; [reflexivity|]. split; [|split; [reflexivity|split; [reflexivity|]]].
  - eexists _, _. simpl.
    split; [apply lookup_insert_eq|]. split; [reflexivity|]. split; [reflexivity|].
    split; [apply lookup_insert_eq|]. split.
    + rewrite <- Hst.
      apply (staticHash_static w _ (Body blk) bd (set_Time time (set_Nonce nonce bd)));
        try reflexivity; [assumption|]. simpl. apply lookup_insert_eq.
    + unfold calculateBodyHash. simpl. rewrite Htext. reflexivity.
  - simpl. rewrite lookup_insert_eq. reflexivity.
Qed.

Lemma SetFields_marshal_error p q s w nonce time :
  hashed p q s w ->
  Time_MarshalText time = None ->
  fst (SetFields p nonce time w) = Err MarshalTextError.
Proof.
  intros (blk & bd & Hblk & Hq & Hs & Hbd & _) Htext. subst q.
  rewrite (SetFields_run p nonce time w blk bd Hblk Hbd). cbv zeta.
  rewrite Htext. reflexivity.
Qed.

Lemma nonceIsValid_run p w h :
  (BodyHash <$> h_blocks (heap w) !! p) = Some h ->
  nonceIsValid p w = (Ok (MinimumRequiredLeadingZeros <=? leadingZeros h), w).
Proof.
  intros Hb. unfold nonceIsValid, bind, deref_block.
  destruct (h_blocks (heap w) !! p) as [blk|]; [|discriminate].
  injection Hb as <-. reflexivity.
Qed.

(** A search that returns leaves a block whose hash meets the difficulty. *)
Lemma Mine_loop_hashed p q s fuel :
  forall nonce w w',
  hashed p q s w ->
  Mine_loop fuel p nonce w = (Ok tt, w') ->
  hashed p q s w'
  /\ exists h, (BodyHash <$> h_blocks (heap w') !! p) = Some h
               /\ MinimumRequiredLeadingZeros <= leadingZeros h.
Proof.
  induction fuel as [|fuel IH]; intros nonce w w' Hw Hrun; [discriminate|].
  rewrite Mine_loop_unfold in Hrun.
  apply (hashed_heap p q s w (tick w) eq_refl) in Hw.
  destruct (Time_MarshalText (clock w (ticks w))) as [timeText|] eqn:Htext.
  - destruct (SetFields_hashed p q s (tick w) nonce _ timeText Hw Htext)
      as (w2 & Hset & Hw2 & _ & _ & Hhash).
    rewrite Hset, (nonceIsValid_run p w2 _ Hhash) in Hrun.
    destruct (Z.leb_spec MinimumRequiredLeadingZeros
                (leadingZeros (sha256 (s ++ le32 nonce ++ timeText)))) as [Hok|Hno].
    + injection Hrun as <-. split; [assumption|]. eexists. split; eassumption.
    + destruct (add32 nonce 1 =? 0); [discriminate|].
      apply (IH _ _ _ Hw2 Hrun).
  - pose proof (SetFields_marshal_error p q s (tick w) nonce _ Hw Htext) as Herr.
    destruct (SetFields p nonce (clock w (ticks w)) (tick w)) as [r w1].
    simpl in Herr. subst r. discriminate.
Qed.

(** When no trial from [nonce] on meets the difficulty, the search ends
    with the nonce space exhausted. *)
Lemma Mine_loop_exhausts p q s fuel :
  forall nonce w,
  hashed p q s w ->
  0 <= nonce < 2 ^ 32 -> 2 ^ 32 - nonce <= Z.of_nat fuel ->
  (forall i, nonce <= i < 2 ^ 32 ->
     exists h,
       calculateBodyHash s i (clock w (ticks w + Z.to_nat (i - nonce))%nat) = Ok h
       /\ leadingZeros h < MinimumRequiredLeadingZeros) ->
  fst (Mine_loop fuel p nonce w) = Err NonceSpaceExhausted.
Proof.
  induction fuel as [|fuel IH]; intros nonce w Hw Hn Hfuel Htrials; [lia|].
  rewrite Mine_loop_unfold.
  apply (hashed_heap p q s w (tick w) eq_refl) in Hw.
  destruct (Htrials nonce ltac:(lia)) as (h & Hcalc & Hlz).
  rewrite Z.sub_diag, Nat.add_0_r in Hcalc. unfold calculateBodyHash in Hcalc.
  destruct (Time_MarshalText (clock w (ticks w))) as [timeText|] eqn:Htext;
    [|discriminate].
  apply Ok_inj in Hcalc. subst h.
  destruct (SetFields_hashed p q s (tick w) nonce _ timeText Hw Htext)
    as (w2 & Hset & Hw2 & Hticks & Hclock & Hhash).
  rewrite Hset, (nonceIsValid_run p w2 _ Hhash).
  destruct (Z.leb_spec MinimumRequiredLeadingZeros
              (leadingZeros (sha256 (s ++ le32 nonce ++ timeText)))); [lia|].
  destruct (Z.eqb_spec (add32 nonce 1) 0) as [|Hne]; [reflexivity|].
  assert (add32 nonce 1 = nonce + 1 /\ nonce + 1 < 2 ^ 32) as [Hadd Hlt].
  { unfold add32, wrap32 in *.
    destruct (Z.eq_dec (nonce + 1) (2 ^ 32)) as [Heq|].
    - rewrite Heq, Z.mod_same in Hne by lia. contradiction.
    - rewrite Z.mod_small by lia. lia. }
  rewrite Hadd. apply IH; try assumption; try lia.
  intros i Hi. destruct (Htrials i ltac:(lia)) as (h & Hcalc & Hlz').
  exists h. split; [|assumption].
  rewrite Hclock, Hticks. simpl.
  replace (ticks w + Z.to_nat (i - nonce))%nat
    with (S (ticks w + Z.to_nat (i - (nonce + 1))))%nat in Hcalc by lia.
  exact Hcalc.
Qed.

(** The validator stops before reading the clock or reads it once; when
    it accepts it has read it. *)
Lemma verifyExceptNonce_world blocks newBlock w :
  snd (verifyExceptNonce blocks newBlock w) = tick w
  \/ (snd (verifyExceptNonce blocks newBlock w) = w
      /\ fst (verifyExceptNonce blocks newBlock w) <> Ok tt).
Proof.
  unfold verifyExceptNonce.
  rewrite bind_reader by auto with reader.
  destruct (fst (deref_block newBlock w)) as [nb|e| |];
    try (right; split; [reflexivity|discriminate]).
  rewrite bind_reader by auto with reader.
  destruct (fst (deref_body (Body nb) w)) as [nbody|e| |];
    try (right; split; [reflexivity|discriminate]).
  destruct (negb _); [right; split; [reflexivity|discriminate]|].
  rewrite bind_reader by auto with reader.
  destruct (fst (verifyLink blocks nbody w)) as [[]|e| |];
    try (right; split; [reflexivity|discriminate]).
  change (bind time_Now ?k w) with (k (clock w (ticks w)) (tick w)); cbv beta.
  left.
  match goal with |- snd (?m (tick w)) = _ =>
    rewrite (reader_run m (tick w)) by auto 12 with reader end.
  reflexivity.
Qed.

Lemma NonceSpace_Z : Z.of_nat NonceSpace = 2 ^ 32.
Proof. unfold NonceSpace. apply Z2Nat.id. apply Z.pow_nonneg. discriminate. Qed.

Lemma Mine_fuel_hashed fuel n q w p w' :
  Mine_fuel fuel n q w = (Ok p, w') ->
  exists s, hashed p q s w'
    /\ exists h, (BodyHash <$> h_blocks (heap w') !! p) = Some h
                 /\ MinimumRequiredLeadingZeros <= leadingZeros h.
Proof.
  unfold Mine_fuel. unfold bind at 1.
  destruct (NewBlock q w) as [[b|e| |] w1] eqn:Hnew; try discriminate.
  apply hashed_NewBlock in Hnew as (s & Hw1 & _).
  unfold bind at 1.
  pose proof (frame_verifyExceptNonce (Blocks (Chain_ n)) b w1) as Hframe.
  destruct (verifyExceptNonce (Blocks (Chain_ n)) b w1) as [[[]|e| |] w2];
    try discriminate.
  simpl in Hframe. apply (hashed_heap b q s w1 w2 Hframe) in Hw1.
  unfold bind.
  destruct (Mine_loop fuel b 0 w2) as [[[]|e| |] w3] eqn:Hloop; try discriminate.
  intros [= <- <-]. exists s. apply (Mine_loop_hashed b q s _ _ _ _ Hw1 Hloop).
Qed.

Lemma Mine_fuel_terminates fuel n q :
  2 ^ 32 <= Z.of_nat fuel -> terminates (Mine_fuel fuel n q).
Proof.
  intros Hfuel. unfold Mine_fuel.
  apply terminates_bind; [apply terminates_NewBlock|intros b].
  apply terminates_bind; [apply terminates_verifyExceptNonce|intros _].
  apply terminates_bind; [|intros _; apply terminates_ret].
  apply terminates_Mine_loop; lia.
Qed.

Lemma Mine_fuel_ticks fuel n q w :
  (ticks (snd (Mine_fuel fuel n q w)) <= ticks w + 1 + fuel)%nat.
Proof.
  unfold Mine_fuel. unfold bind at 1.
  destruct (quiet_NewBlock q w) as (Ht1 & _).
  destruct (NewBlock q w) as [[b|e| |] w1]; simpl in Ht1 |- *; try lia.
  unfold bind at 1.
  pose proof (verifyExceptNonce_world (Blocks (Chain_ n)) b w1) as Hv.
  assert (ticks (snd (verifyExceptNonce (Blocks (Chain_ n)) b w1)) <= ticks w1 + 1)%nat
    as Hle1 by (destruct Hv as [->|[-> _]]; simpl; lia).
  clear Hv.
  destruct (verifyExceptNonce (Blocks (Chain_ n)) b w1) as [[[]|e| |] w2];
    simpl in Hle1 |- *; try lia.
  unfold bind.
  destruct (Mine_loop fuel b 0 w2) as [r w3] eqn:Hloop.
  apply Mine_loop_ticks in Hloop as [Hle _].
  destruct r; simpl; lia.
Qed.

Lemma Mine_fuel_exhausts fuel n q w p w1 s :
  2 ^ 32 <= Z.of_nat fuel ->
  NewBlock q w = (Ok p, w1) ->
  fst (verifyExceptNonce (Blocks (Chain_ n)) p w1) = Ok tt ->
  fst (staticHash q w) = Ok s ->
  (forall i, 0 <= i < 2 ^ 32 ->
     exists h,
       calculateBodyHash s i (clock w (ticks w + 1 + Z.to_nat i)%nat) = Ok h
       /\ leadingZeros h < MinimumRequiredLeadingZeros) ->
  fst (Mine_fuel fuel n q w) = Err NonceSpaceExhausted.
Proof.
  intros Hfuel Hnew Hver Hs Htrials.
  unfold Mine_fuel. unfold bind at 1. rewrite Hnew.
  apply hashed_NewBlock in Hnew as (s' & Hw1 & Hs' & Ht1 & Hc1).
  rewrite Hs in Hs'. apply Ok_inj in Hs'. subst s'.
  unfold bind at 1.
  pose proof (verifyExceptNonce_world (Blocks (Chain_ n)) p w1) as Hv.
  destruct (verifyExceptNonce (Blocks (Chain_ n)) p w1) as [r w2].
  simpl in Hver, Hv. subst r.
  destruct Hv as [->|[_ Hno]]; [|contradiction].
  apply (hashed_heap p q s w1 (tick w1) eq_refl) in Hw1.
  unfold bind.
  pose proof (Mine_loop_exhausts p q s fuel 0 (tick w1) Hw1) as Hex.
  destruct (Mine_loop fuel p 0 (tick w1)) as [r w3]. simpl in Hex.
  rewrite Hex; [reflexivity|lia|lia|].
  intros i Hi. destruct (Htrials i Hi) as (h & Hcalc & Hlz).
  exists h. split; [|assumption]. simpl. rewrite Hc1, Ht1, Z.sub_0_r.
  replace (ticks w + 1 + Z.to_nat i)%nat with (S (ticks w + Z.to_nat i))%nat
    in Hcalc by lia.
  exact Hcalc.
Qed.

(** C3. Whenever [Mine] returns a block [p] without error, [p] is a block
    of the body it was given, and its [BodyHash] has at least
    [MinimumRequiredLeadingZeros] leading zero bits and is the digest of
    the static hash of the body, which the block caches, and of the nonce
    and time stored in the body. *)
Theorem Mine_meets_difficulty n q w p w' :
  Mine n q w = (Ok p, w') ->
  exists s blk bd,
    h_blocks (heap w') !! p = Some blk
    /\ Body blk = q
    /\ h_bodies (heap w') !! q = Some bd
    /\ MinimumRequiredLeadingZeros <= leadingZeros (BodyHash blk)
    /\ bodyStaticHash blk = s
    /\ fst (staticHash q w') = Ok s
    /\ calculateBodyHash s (Nonce bd) (Time_ bd) = Ok (BodyHash blk).
Proof.
  intros Hrun. apply Mine_fuel_hashed in Hrun
    as (s & (blk & bd & Hblk & Hq & Hs & Hbd & Hst & Hcalc) & h & Hh & Hlz).
  rewrite Hblk in Hh. apply (f_equal (default [])) in Hh. simpl in Hh. subst h.
  exists s, blk, bd. repeat split; assumption.
Qed.

(** C4. [Mine] terminates on every input: the model's bound of one
    iteration per nonce is never what stops it, and it reads the clock at
    most once for validation and once per nonce tried.  When the block is
    valid and none of the trials [(i, clock (t + 1 + i))], for [i] from 0
    to [2^32 - 1] in this order, meets the difficulty, it returns
    [NonceSpaceExhausted]. *)
Theorem Mine_terminates n q w :
  fst (Mine n q w) <> OutOfFuel
  /\ (ticks (snd (Mine n q w)) <= ticks w + 1 + NonceSpace)%nat
  /\ (forall p w1 s,
        NewBlock q w = (Ok p, w1) ->
        fst (verifyExceptNonce (Blocks (Chain_ n)) p w1) = Ok tt ->
        fst (staticHash q w) = Ok s ->
        (forall i, 0 <= i < 2 ^ 32 ->
           exists h,
             calculateBodyHash s i (clock w (ticks w + 1 + Z.to_nat i)%nat) = Ok h
             /\ leadingZeros h < MinimumRequiredLeadingZeros) ->
        fst (Mine n q w) = Err NonceSpaceExhausted).
Proof.
  pose proof NonceSpace_Z as HZ.
  split; [|split].
  - apply Mine_fuel_terminates. lia.
  - apply Mine_fuel_ticks.
  - intros p w1 s. apply Mine_fuel_exhausts. lia.
Qed.

End Search.

(** On the body of [w_body] and the empty chain, [Mine] returns block 1,
    whose hash has a leading zero bit. *)
Lemma Mine_meets_difficulty_witness :
  fst (Mine Toy.node 1%positive Toy.w_body) = Ok 1%positive
  /\ exists blk,
       h_blocks (heap (snd (Mine Toy.node 1%positive Toy.w_body))) !! 1%positive
       = Some blk
       /\ MinimumRequiredLeadingZeros <= leadingZeros (BodyHash blk).
Proof.
  assert (Hmine : Mine Toy.node 1%positive Toy.w_body
                  = (Ok 1%positive, snd (Mine_fuel 10 Toy.node 1%positive Toy.w_body))).
  { apply (Mine_fuel_enough 10).
    - pose proof NonceSpace_Z. lia.
    - apply run_eq. by_eval.
    - discriminate. }
  destruct (Mine_meets_difficulty (P := Toy.primitives) Toy.node 1%positive Toy.w_body
              1%positive _ Hmine) as (s & blk & bd & Hblk & _ & _ & Hlz & _).
  rewrite Hmine. split; [reflexivity|]. exists blk. split; assumption.
Defined.

(** Under [hard], where every digest starts with a one bit, [Mine] on a
    valid genesis body ends with the nonce space exhausted. *)
Lemma Mine_terminates_witness :
  fst (Mine (P := Toy.hard) Toy.node 1%positive Toy.w_hard) = Err NonceSpaceExhausted.
Proof.
  refine (proj2 (proj2 (Mine_terminates (P := Toy.hard) Toy.node 1%positive Toy.w_hard))
            1%positive (snd (NewBlock (P := Toy.hard) 1%positive Toy.w_hard)) [xff]
            (run_eq (NewBlock (P := Toy.hard) 1%positive) Toy.w_hard (Ok 1%positive) _)
            _ _ _).
  - by_eval.
  - by_eval.
  - by_eval.
  - intros i Hi. exists [xff]. split; reflexivity.
Defined.

(** * Leading zeros and lookup keys *)

Section Bytes.

Lemma byte_zero b : Byte.to_N b = 0%N -> b = x00.
Proof.
  intros H. pose proof (Byte.of_to_N b) as Hb. rewrite H in Hb.
  simpl in Hb. congruence.
Qed.

Lemma byte_to_N_inj a b : Byte.to_N a = Byte.to_N b -> a = b.
Proof.
  intros H. pose proof (Byte.of_to_N a) as Ha. rewrite H, Byte.of_to_N in Ha.
  congruence.
Qed.

Lemma leadingZeros_from_count data :
  forall count, leadingZeros_from count data = count + leadingZeros data.
Proof.
  unfold leadingZeros. induction data as [|b rest IH]; intros count; simpl.
  - lia.
  - case_bool_decide; [|lia]. rewrite (IH (count + 8)), (IH (0 + 8)). lia.
Qed.

Lemma leadingZeros_cons b rest :
  leadingZeros (b :: rest) =
  if bool_decide (b = x00) then 8 + leadingZeros rest else bits_LeadingZeros8 b.
Proof.
  unfold leadingZeros at 1. simpl. case_bool_decide; [|lia].
  apply leadingZeros_from_count.
Qed.

Lemma be_value_range data : 0 <= be_value data < 2 ^ (8 * Z.of_nat (length data)).
Proof.
  induction data as [|b rest IH].
  - simpl. lia.
  - cbn [be_value length].
    pose proof (Byte.to_N_bounded b) as Hb.
    replace (8 * Z.of_nat (S (length rest))) with (8 + 8 * Z.of_nat (length rest)) by lia.
    rewrite Z.pow_add_r by lia.
    set (k := 2 ^ (8 * Z.of_nat (length rest))) in *.
    assert (0 <= Z.of_N (Byte.to_N b) <= 255) by lia.
    change (2 ^ 8) with 256. nia.
Qed.

Lemma bitlen_shift v k r :
  0 < v -> 0 <= k -> 0 <= r < 2 ^ k -> bitlen (v * 2 ^ k + r) = bitlen v + k.
Proof.
  intros Hv Hk Hr. unfold bitlen.
  assert (0 < 2 ^ k) by (apply Z.pow_pos_nonneg; lia).
  destruct (Z.eqb_spec (v * 2 ^ k + r) 0); [nia|].
  destruct (Z.eqb_spec v 0); [lia|].
  pose proof (Z.log2_spec v Hv) as [Hlo Hhi].
  assert (0 <= Z.log2 v) by apply Z.log2_nonneg.
  rewrite (Z.log2_unique (v * 2 ^ k + r) (Z.log2 v + k)); [lia|lia|].
  rewrite Z.pow_succ_r in Hhi |- * by lia. rewrite !Z.pow_add_r by lia. nia.
Qed.

Lemma bits_LeadingZeros8_bitlen b :
  bits_LeadingZeros8 b = 8 - bitlen (Z.of_N (Byte.to_N b)).
Proof. destruct b; reflexivity. Qed.

(** X1. [leadingZeros] counts the leading zero bits of a byte string:
    it is the width of the string in bits less the number of binary digits
    of the integer the string writes, most significant byte first. *)
Theorem leadingZeros_bits data :
  leadingZeros data = 8 * Z.of_nat (length data) - bitlen (be_value data).
Proof.
  induction data as [|b rest IH].
  - reflexivity.
  - rewrite leadingZeros_cons. cbn [be_value length].
    case_bool_decide as Hb.
    + subst b. change (Z.of_N (Byte.to_N x00)) with 0.
      rewrite Z.mul_0_l, Z.add_0_l, IH. lia.
    + rewrite bits_LeadingZeros8_bitlen.
      rewrite bitlen_shift; [lia| | |apply be_value_range].
      * assert (Byte.to_N b <> 0%N) by (intros H0; apply Hb, byte_zero, H0). lia.
      * lia.
Qed.

Lemma first_bit b : 1 <= bits_LeadingZeros8 b <-> (Byte.to_N b < 128)%N.
Proof.
  destruct b; vm_compute;
    (split;
     [ intros H; first [ reflexivity | exfalso; apply H; reflexivity ]
     | intros H; first [ discriminate H | intros H'; discriminate H' ] ]).
Qed.

Lemma unhexdigit_hexdigit n : (n < 16)%N -> unhexdigit (hexdigit n) = n.
Proof.
  destruct n as [|p]; intros Hn; [reflexivity|].
  do 5 (try destruct p as [p|p|]); try reflexivity; lia.
Qed.

Lemma hex_EncodeToString_injective_keys a :
  forall b, hex_EncodeToString a = hex_EncodeToString b -> a = b.
Proof.
  induction a as [|x a IH]; intros [|y b]; simpl; try discriminate; [reflexivity|].
  intros [= Hhi Hlo Hrest].
  apply (f_equal unhexdigit) in Hhi, Hlo.
  pose proof (Byte.to_N_bounded x). pose proof (Byte.to_N_bounded y).
  rewrite !unhexdigit_hexdigit in Hhi, Hlo
    by (try apply N.mod_lt; try apply N.Div0.div_lt_upper_bound; lia).
  f_equal; [|now apply IH].
  apply byte_to_N_inj.
  rewrite (N.div_mod (Byte.to_N x) 16), (N.div_mod (Byte.to_N y) 16) by lia.
  congruence.
Qed.

(** X3. Lookup keys are faithful: the hex text of a hash is twice as
    long as the hash, and two hashes with the same hex text are the same
    hash. *)
Theorem hex_EncodeToString_injective a :
  String.length (hex_EncodeToString a) = (2 * length a)%nat
  /\ forall b, hex_EncodeToString a = hex_EncodeToString b -> a = b.
Proof.
  split; [|apply hex_EncodeToString_injective_keys].
  induction a as [|x a IH]; simpl; [reflexivity|]. rewrite IH. lia.
Qed.

End Bytes.

Section Difficulty.
Context `{P : Primitives}.

Lemma leadingZeros_nonneg data : 0 <= leadingZeros data.
Proof.
  induction data as [|b rest IH]; [reflexivity|].
  rewrite leadingZeros_cons. case_bool_decide; [lia|].
  destruct b; vm_compute; discriminate.
Qed.

(** X2. With the fixed difficulty of one leading zero bit, [nonceIsValid]
    on a block that resolves returns without error, and returns true
    exactly when the block's hash is not empty and its first byte is below
    128. *)
Theorem nonceIsValid_first_bit p w blk :
  h_blocks (heap w) !! p = Some blk ->
  exists valid,
    nonceIsValid p w = (Ok valid, w)
    /\ (valid = true <->
        exists b rest, BodyHash blk = b :: rest /\ (Byte.to_N b < 128)%N).
Proof.
  intros Hblk. eexists. split.
  - apply nonceIsValid_run. rewrite Hblk. reflexivity.
  - unfold MinimumRequiredLeadingZeros. rewrite Z.leb_le.
    destruct (BodyHash blk) as [|b rest].
    + split; [intros H; vm_compute in H; now contradiction H|].
      intros (b & rest & Hnil & _). discriminate.
    + rewrite leadingZeros_cons. case_bool_decide as Hb.
      * pose proof (leadingZeros_nonneg rest). split; [|lia].
        intros _. exists b, rest. subst b. split; reflexivity.
      * rewrite first_bit. split.
        -- intros Hlt. exists b, rest. split; [reflexivity|assumption].
        -- intros (b' & rest' & [= <- <-] & Hlt). assumption.
Qed.

End Difficulty.

(** Block 1 of [w_block] resolves; its hash starts with a byte below 128. *)
Lemma nonceIsValid_first_bit_witness :
  exists valid, nonceIsValid 1%positive Toy.w_block = (Ok valid, Toy.w_block).
Proof.
  pose (w := Toy.w_block).
  resolve blk (h_blocks (heap w) !! 1%positive).
  destruct (nonceIsValid_first_bit (P := Toy.primitives) 1%positive w blk ltac:(by_eval))
    as (valid & Hrun & _).
  exists valid. exact Hrun.
Defined.

(** * What an accepted block satisfies *)

Section Accepted.
Context `{P : Primitives}.

Lemma verifyLink_ok blocks nbody w :
  fst (verifyLink blocks nbody w) = Ok tt ->
  match last blocks with
  | None => Id nbody = GenesisId
  | Some headBlock =>
      exists hb hbody,
        h_blocks (heap w) !! headBlock = Some hb
        /\ h_bodies (heap w) !! Body hb = Some hbody
        /\ Id nbody = add32 (Id hbody) 1
        /\ PrevHash nbody = BodyHash hb
        /\ Time_After (Time_ nbody) (Time_ hbody) = true
  end.
Proof.
  unfold verifyLink. destruct (last blocks) as [headBlock|].
  - rewrite fst_bind_reader, fst_deref_block by auto 12 with reader.
    destruct (h_blocks (heap w) !! headBlock) as [hb|] eqn:Hhb; simpl; [|discriminate].
    rewrite fst_bind_reader, fst_deref_body by auto 12 with reader.
    destruct (h_bodies (heap w) !! Body hb) as [hbody|] eqn:Hq; simpl; [|discriminate].
    destruct (Z.eqb_spec (Id nbody) (add32 (Id hbody) 1)) as [Hid|]; simpl;
      [|discriminate].
    unfold bytes_Equal. case_bool_decide as Hprev; simpl; [|discriminate].
    destruct (Time_After (Time_ nbody) (Time_ hbody)) eqn:Hafter; simpl; [|discriminate].
    intros _. exists hb, hbody. repeat split; assumption.
  - destruct (Z.eqb_spec (Id nbody) GenesisId) as [Hid|]; simpl; [trivial|discriminate].
Qed.

(** Everything an accepting run went through. *)
Lemma verifyExceptNonce_ok blocks newBlock w :
  fst (verifyExceptNonce blocks newBlock w) = Ok tt ->
  exists nb nbody cbp rest allTransactions cb st cbody,
    h_blocks (heap w) !! newBlock = Some nb
    /\ h_bodies (heap w) !! Body nb = Some nbody
    /\ Version nbody = CurrentVersion
    /\ fst (verifyLink blocks nbody w) = Ok tt
    /\ Time_After (Time_ nbody) (clock w (ticks w)) = false
    /\ Transactions nbody = cbp :: rest
    /\ fst (foldM indexBlock blocks ∅ w) = Ok allTransactions
    /\ h_txns (heap w) !! cbp = Some cb
    /\ fst (foldM verifyTransaction rest
              (seedTransactions allTransactions cbp cb, 0) w) = Ok st
    /\ h_tbodies (heap w) !! tx_Body cb = Some cbody
    /\ InputValue cbody = add32 (snd st) MiningReward.
Proof.
  rewrite verifyExceptNonce_verdict.
  destruct (h_blocks (heap w) !! newBlock) as [nb|] eqn:Hnb; simpl; [|discriminate].
  destruct (h_bodies (heap w) !! Body nb) as [nbody|] eqn:Hq; simpl; [|discriminate].
  destruct (Z.eqb_spec (Version nbody) CurrentVersion) as [Hv|]; simpl; [|discriminate].
  destruct (fst (verifyLink blocks nbody w)) as [[]|e| |] eqn:Hlink; simpl;
    try discriminate.
  destruct (Time_After _ _) eqn:Hnow; [discriminate|].
  destruct (Transactions nbody) as [|cbp rest] eqn:Htxs; [discriminate|].
  destruct (fst (foldM indexBlock blocks ∅ w)) as [all|e| |] eqn:Hall; simpl;
    try discriminate.
  destruct (h_txns (heap w) !! cbp) as [cb|] eqn:Hcb; simpl; [|discriminate].
  destruct (fst (foldM verifyTransaction rest _ w)) as [st|e| |] eqn:Hloop; simpl;
    try discriminate.
  destruct (h_tbodies (heap w) !! tx_Body cb) as [cbody|] eqn:Hcbody; simpl;
    [|discriminate].
  destruct (Z.eqb_spec (InputValue cbody) (add32 (snd st) MiningReward)) as [Hval|];
    simpl; [|discriminate].
  intros _. exists nb, nbody, cbp, rest, all, cb, st, cbody.
  repeat split; assumption.
Qed.

(** X4. Every block [verifyExceptNonce] accepts has the current version,
    a timestamp not after the clock reading and at least one transaction;
    on the empty chain it has id 0, and on a non-empty chain its id is the
    tip's id plus one (as a [uint32]), its [PrevHash] is the tip's
    [BodyHash] and its timestamp is after the tip's. *)
Theorem accepted_block_is_linked blocks newBlock w :
  fst (verifyExceptNonce blocks newBlock w) = Ok tt ->
  exists nbody,
    block_body (heap w) newBlock = Some nbody
    /\ Version nbody = CurrentVersion
    /\ Time_After (Time_ nbody) (clock w (ticks w)) = false
    /\ Transactions nbody <> []
    /\ match last blocks with
       | None => Id nbody = GenesisId
       | Some headBlock =>
           exists hb hbody,
             h_blocks (heap w) !! headBlock = Some hb
             /\ h_bodies (heap w) !! Body hb = Some hbody
             /\ Id nbody = add32 (Id hbody) 1
             /\ PrevHash nbody = BodyHash hb
             /\ Time_After (Time_ nbody) (Time_ hbody) = true
       end.
Proof.
  intros Hok. apply verifyExceptNonce_ok in Hok
    as (nb & nbody & cbp & rest & all & cb & st & cbody
        & Hnb & Hq & Hv & Hlink & Hnow & Htxs & _).
  exists nbody. unfold block_body. rewrite Hnb.
  split; [assumption|]. split; [assumption|]. split; [assumption|].
  split; [rewrite Htxs; discriminate|]. now apply verifyLink_ok.
Qed.

Lemma foldM_ok_each {A B} (f : B -> A -> M B) w l :
  (forall b a, reader (f b a)) ->
  forall b b', fst (foldM f l b w) = Ok b' ->
  forall a, a ∈ l -> exists b0 b1, fst (f b0 a w) = Ok b1.
Proof.
  intros Hf. induction l as [|x l IH]; intros b b' Hrun a Ha.
  - inversion Ha.
  - rewrite fst_foldM_cons in Hrun by assumption.
    destruct (fst (f b x w)) as [b1|e| |] eqn:Hx; simpl in Hrun; try discriminate.
    apply elem_of_cons in Ha as [->|Ha]; [eauto|]. eapply IH; eassumption.
Qed.

Lemma sub32_exact iv c f :
  uint32 iv -> uint32 c -> uint32 f -> c + f <= iv ->
  sub32 (sub32 iv c) f = iv - c - f.
Proof.
  unfold uint32, sub32, wrap32. intros Hiv Hc Hf Hle.
  rewrite (Z.mod_small (iv - c)) by lia. apply Z.mod_small. lia.
Qed.

(** X5. Every transaction after the first of an accepted block resolves,
    has as many signatures as inputs, and has an [InputValue] at least the
    [uint32] sum of its [Change] and [Fee].  When that sum does not
    overflow and the transaction is not flagged as coinbase, its
    [OutputValue] is exactly [InputValue - Change - Fee]. *)
Theorem accepted_transactions_are_funded blocks newBlock w :
  fst (verifyExceptNonce blocks newBlock w) = Ok tt ->
  forall p, p ∈ tail (block_txns (heap w) newBlock) ->
  exists tx body,
    h_txns (heap w) !! p = Some tx
    /\ h_tbodies (heap w) !! tx_Body tx = Some body
    /\ length (InputTransactionHashes body) = length (OwnerSignatures tx)
    /\ add32 (Change body) (Fee body) <= InputValue body
    /\ (uint32 (InputValue body) -> uint32 (Change body) -> uint32 (Fee body) ->
        Change body + Fee body < 2 ^ 32 -> isCoinbase tx = false ->
        Change body + Fee body <= InputValue body
        /\ fst (OutputValue p w) = Ok (InputValue body - Change body - Fee body)).
Proof.
  intros Hok p Hp. apply verifyExceptNonce_ok in Hok
    as (nb & nbody & cbp & rest & all & cb & st & cbody
        & Hnb & Hq & _ & _ & _ & Htxs & _ & _ & Hloop & _).
  unfold block_txns, block_body in Hp. rewrite Hnb, Hq, Htxs in Hp. simpl in Hp.
  destruct (foldM_ok_each verifyTransaction w rest ltac:(auto with reader) _ _ Hloop p Hp)
    as (st0 & st1 & Hone).
  apply verifyTransaction_ok in Hone
    as (tx & body & Htx & Hb & Hlen & _ & Hle & _).
  exists tx, body. split; [assumption|]. split; [assumption|]. split; [assumption|].
  split; [assumption|]. intros Hiv Hc Hf Hsum Hflag.
  assert (Change body + Fee body <= InputValue body) as Hexact.
  { unfold add32, wrap32 in Hle. rewrite Z.mod_small in Hle; unfold uint32 in *; lia. }
  split; [assumption|].
  rewrite fst_OutputValue. unfold outputValue_of. rewrite Htx, Hb, Hflag. simpl.
  f_equal. now apply sub32_exact.
Qed.

(** X6. The verdict is a function of the heap and of the one clock
    reading: a block accepted once is accepted again in any world with the
    same heap whose clock still does not read before the block's
    timestamp, whatever else has passed. *)
Theorem accepted_again blocks newBlock w w' :
  fst (verifyExceptNonce blocks newBlock w) = Ok tt ->
  heap w' = heap w ->
  (forall nbody, block_body (heap w) newBlock = Some nbody ->
     Time_After (Time_ nbody) (clock w' (ticks w')) = false) ->
  fst (verifyExceptNonce blocks newBlock w') = Ok tt.
Proof.
  intros Hok Hheap Hclock. apply verifyExceptNonce_ok in Hok
    as (nb & nbody & cbp & rest & all & cb & st & cbody
        & Hnb & Hq & Hv & Hlink & Hnow & Htxs & Hall & Hcb & Hloop & Hcbody & Hval).
  specialize (Hclock nbody). unfold block_body in Hclock. rewrite Hnb in Hclock.
  rewrite verifyExceptNonce_verdict, Hheap, Hnb; simpl. rewrite Hq; simpl.
  rewrite Hv; simpl.
  rewrite (reader_heap (verifyLink blocks nbody) w w') by auto with reader.
  rewrite Hlink; simpl. rewrite (Hclock Hq), Htxs.
  rewrite (reader_heap (foldM indexBlock blocks ∅) w w') by auto with reader.
  rewrite Hall; simpl. rewrite Hcb; simpl.
  rewrite (reader_heap (foldM verifyTransaction rest _) w w') by auto with reader.
  rewrite Hloop; simpl. rewrite Hcbody; simpl. rewrite Hval, Z.eqb_refl. reflexivity.
Qed.

End Accepted.

(** In [w_linked] the candidate (block 2, id 1) is accepted on the chain
    of block 1 (id 0) and is linked to it. *)
Lemma accepted_block_is_linked_witness :
  exists nbody,
    block_body (heap Toy.w_linked) 2%positive = Some nbody
    /\ Id nbody = 1 /\ Version nbody = CurrentVersion.
Proof.
  destruct (accepted_block_is_linked (P := Toy.primitives) [1%positive] 2%positive
              Toy.w_linked ltac:(by_eval))
    as (nbody & Hbody & Hv & _ & _ & hb & hbody & Hhb & Hhq & Hid & _).
  exists nbody. split; [assumption|]. split; [|assumption].
  rewrite Hid. vm_compute in Hhb. injection Hhb as <-.
  vm_compute in Hhq. injection Hhq as <-. reflexivity.
Defined.

(** In [w_genesis] the second transaction is funded: 12 in, 5 change, 2
    fee, output value 5. *)
Lemma accepted_transactions_are_funded_witness :
  fst (OutputValue 2%positive Toy.w_genesis) = Ok 5.
Proof.
  destruct (accepted_transactions_are_funded (P := Toy.primitives) [] 1%positive
              Toy.w_genesis ltac:(by_eval) 2%positive
              ltac:(vm_compute; apply list_elem_of_singleton; reflexivity))
    as (tx & body & Htx & Hb & _ & _ & Hexact).
  vm_compute in Htx. injection Htx as <-.
  vm_compute in Hb. injection Hb as <-.
  exact (proj2 (Hexact ltac:(by_range) ltac:(by_range) ltac:(by_range)
                  ltac:(by_eval) eq_refl)).
Defined.

(** The genesis candidate of [w_genesis], accepted once, is accepted again
    in the world the first run leaves. *)
Lemma accepted_again_witness :
  fst (verifyExceptNonce [] 1%positive
         (snd (verifyExceptNonce [] 1%positive Toy.w_genesis))) = Ok tt.
Proof.
  apply (accepted_again (P := Toy.primitives) [] 1%positive Toy.w_genesis).
  - by_eval.
  - apply frame_verifyExceptNonce.
  - intros nbody Hbody. vm_compute in Hbody. injection Hbody as <-. by_eval.
Defined.

(** * The lookup *)

Section Lookup.
Context `{P : Primitives}.

Lemma hex_inj a b : hex_EncodeToString a = hex_EncodeToString b -> a = b.
Proof. apply hex_EncodeToString_injective_keys. Qed.

Lemma indexed_insert h all txs p tx :
  indexed h all txs -> h_txns h !! p = Some tx ->
  indexed h (<[hex_EncodeToString (tx_BodyHash tx) := p]> all) (txs ++ [p]).
Proof.
  intros Hall Htx k q Hk.
  destruct (decide (hex_EncodeToString (tx_BodyHash tx) = k)) as [<-|Hne].
  - rewrite lookup_insert_eq in Hk. injection Hk as <-.
    split; [apply elem_of_app; right; apply list_elem_of_singleton; reflexivity|].
    exists tx. split; [assumption|reflexivity].
  - rewrite lookup_insert_ne in Hk by assumption.
    destruct (Hall k q Hk) as [Hq Htx']. split; [|assumption].
    apply elem_of_app. now left.
Qed.

Lemma covered_insert h all txs p tx :
  covered h all txs -> h_txns h !! p = Some tx ->
  covered h (<[hex_EncodeToString (tx_BodyHash tx) := p]> all) (txs ++ [p]).
Proof.
  intros Hall Htx q tx' Hq Htx'.
  destruct (decide (hex_EncodeToString (tx_BodyHash tx)
                    = hex_EncodeToString (tx_BodyHash tx'))) as [->|Hne].
  - rewrite lookup_insert_eq. eauto.
  - rewrite lookup_insert_ne by assumption.
    apply elem_of_app in Hq as [Hq|Hq]; [now apply (Hall q)|].
    apply list_elem_of_singleton in Hq. subst q. congruence.
Qed.

Lemma indexTransaction_ok all p w all' :
  fst (indexTransaction all p w) = Ok all' ->
  exists tx, h_txns (heap w) !! p = Some tx
             /\ all' = <[hex_EncodeToString (tx_BodyHash tx) := p]> all.
Proof.
  rewrite fst_indexTransaction.
  destruct (h_txns (heap w) !! p) as [tx|]; simpl; [|discriminate].
  intros [= <-]. eauto.
Qed.

Lemma foldM_indexTransaction_indexed w l :
  forall all all' txs,
  fst (foldM indexTransaction l all w) = Ok all' ->
  indexed (heap w) all txs -> covered (heap w) all txs ->
  indexed (heap w) all' (txs ++ l) /\ covered (heap w) all' (txs ++ l).
Proof.
  induction l as [|p l IH]; intros all all' txs Hrun Hi Hc.
  - injection Hrun as <-. rewrite app_nil_r. split; assumption.
  - rewrite fst_foldM_cons in Hrun by auto with reader.
    destruct (fst (indexTransaction all p w)) as [all1|e| |] eqn:Hp;
      simpl in Hrun; try discriminate.
    apply indexTransaction_ok in Hp as (tx & Htx & ->).
    rewrite (cons_middle p txs l), app_assoc.
    apply (IH _ _ _ Hrun); [now apply indexed_insert|now apply covered_insert].
Qed.

Lemma indexBlock_ok all b w all' :
  fst (indexBlock all b w) = Ok all' ->
  fst (foldM indexTransaction (block_txns (heap w) b) all w) = Ok all'.
Proof.
  unfold indexBlock, block_txns, block_body.
  rewrite fst_bind_reader, fst_deref_block by auto 12 with reader.
  destruct (h_blocks (heap w) !! b) as [blk|]; simpl; [|discriminate].
  rewrite fst_bind_reader, fst_deref_body by auto 12 with reader.
  destruct (h_bodies (heap w) !! Body blk) as [body|]; simpl; [|discriminate].
  trivial.
Qed.

Lemma foldM_indexBlock_indexed w blocks :
  forall all all' txs,
  fst (foldM indexBlock blocks all w) = Ok all' ->
  indexed (heap w) all txs -> covered (heap w) all txs ->
  indexed (heap w) all' (txs ++ chain_txns (heap w) blocks)
  /\ covered (heap w) all' (txs ++ chain_txns (heap w) blocks).
Proof.
  induction blocks as [|b blocks IH]; intros all all' txs Hrun Hi Hc.
  - injection Hrun as <-. simpl. rewrite app_nil_r. split; assumption.
  - rewrite fst_foldM_cons in Hrun by auto with reader.
    destruct (fst (indexBlock all b w)) as [all1|e| |] eqn:Hb;
      simpl in Hrun; try discriminate.
    apply indexBlock_ok in Hb.
    destruct (foldM_indexTransaction_indexed _ _ _ _ _ Hb Hi Hc) as [Hi1 Hc1].
    simpl. rewrite app_assoc. apply (IH _ _ _ Hrun); assumption.
Qed.

Lemma chain_index blocks w allTransactions :
  fst (foldM indexBlock blocks ∅ w) = Ok allTransactions ->
  indexed (heap w) allTransactions (chain_txns (heap w) blocks).
Proof.
  intros Hrun.
  destruct (foldM_indexBlock_indexed w blocks ∅ allTransactions [] Hrun) as [Hi _].
  - intros k p Hk. rewrite lookup_empty in Hk. discriminate.
  - intros p tx Hp. inversion Hp.
  - exact Hi.
Qed.

(** X7. The lookup built from the prior blocks (lines 105-110) holds the
    chain's transactions and nothing else: every entry is a transaction of
    some prior block, filed under the hex text of its own hash, and every
    transaction of a prior block has an entry under its hash, held by a
    transaction with that same hash. *)
Theorem chain_lookup blocks w allTransactions :
  fst (foldM indexBlock blocks ∅ w) = Ok allTransactions ->
  (forall k p, allTransactions !! k = Some p ->
     p ∈ chain_txns (heap w) blocks
     /\ exists tx, h_txns (heap w) !! p = Some tx
                  /\ k = hex_EncodeToString (tx_BodyHash tx))
  /\ (forall p tx, p ∈ chain_txns (heap w) blocks -> h_txns (heap w) !! p = Some tx ->
        exists q tx',
          allTransactions !! hex_EncodeToString (tx_BodyHash tx) = Some q
          /\ h_txns (heap w) !! q = Some tx'
          /\ tx_BodyHash tx' = tx_BodyHash tx).
Proof.
  intros Hrun.
  destruct (foldM_indexBlock_indexed w blocks ∅ allTransactions [] Hrun) as [Hi Hc].
  { intros k p Hk. rewrite lookup_empty in Hk. discriminate. }
  { intros p tx Hp. inversion Hp. }
  simpl in Hi, Hc. split; [exact Hi|].
  intros p tx Hp Htx. destruct (Hc p tx Hp Htx) as [q Hq].
  destruct (Hi _ _ Hq) as (_ & tx' & Htx' & Hkey).
  exists q, tx'. split; [assumption|]. split; [assumption|].
  symmetry. now apply hex_inj.
Qed.

End Lookup.

(** * Inputs of accepted transactions *)

Section Inputs.
Context `{P : Primitives}.

(** A successful pass over the inputs found each of them in the lookup,
    correctly signed. *)
Lemma verifyInputs_signed all tx w txs hashes :
  indexed (heap w) all txs ->
  forall i acc v,
  fst (verifyInputs all tx i hashes acc w) = Ok v ->
  forall k hash, hashes !! k = Some hash ->
  exists sg q itx ibody,
    OwnerSignatures tx !! (i + k)%nat = Some sg
    /\ q ∈ txs
    /\ h_txns (heap w) !! q = Some itx
    /\ tx_BodyHash itx = hash
    /\ h_tbodies (heap w) !! tx_Body itx = Some ibody
    /\ ecdsa_Verify (NextOwner ibody) (tx_BodyHash tx) (sig_R sg) (sig_S sg) = true.
Proof.
  intros Hall. induction hashes as [|hash0 hashes IH]; intros i acc v Hrun k hash Hk.
  - inversion Hk.
  - simpl in Hrun.
    destruct (all !! hex_EncodeToString hash0) as [q|] eqn:Hq; [|discriminate].
    destruct (OwnerSignatures tx !! i) as [sg|] eqn:Hsg; [|discriminate].
    rewrite fst_bind_reader, fst_deref_txn in Hrun by auto 12 with reader.
    destruct (h_txns (heap w) !! q) as [itx|] eqn:Hitx; simpl in Hrun; [|discriminate].
    rewrite fst_bind_reader, fst_deref_tbody in Hrun by auto 12 with reader.
    destruct (h_tbodies (heap w) !! tx_Body itx) as [ibody|] eqn:Hib; simpl in Hrun;
      [|discriminate].
    destruct (ecdsa_Verify _ _ _ _) eqn:Hver; simpl in Hrun; [|discriminate].
    rewrite fst_bind_reader in Hrun by auto with reader.
    destruct (fst (OutputValue q w)) as [ov|e| |]; simpl in Hrun; try discriminate.
    destruct k as [|k].
    + injection Hk as <-. rewrite Nat.add_0_r.
      destruct (Hall _ _ Hq) as (Hin & tx' & Htx' & Hkey).
      rewrite Hitx in Htx'. injection Htx' as <-.
      exists sg, q, itx, ibody. repeat split; try assumption.
      symmetry. now apply hex_inj.
    + replace (i + S k)%nat with (S i + k)%nat by lia.
      apply (IH _ _ _ Hrun). exact Hk.
Qed.

Lemma foldM_verifyTransaction_signed w l :
  forall st st' txs,
  fst (foldM verifyTransaction l st w) = Ok st' ->
  indexed (heap w) (fst st) txs ->
  forall j p, l !! j = Some p ->
  exists tx body,
    h_txns (heap w) !! p = Some tx
    /\ h_tbodies (heap w) !! tx_Body tx = Some body
    /\ forall i hash, InputTransactionHashes body !! i = Some hash ->
       exists sg q itx ibody,
         OwnerSignatures tx !! i = Some sg
         /\ q ∈ txs ++ take j l
         /\ h_txns (heap w) !! q = Some itx
         /\ tx_BodyHash itx = hash
         /\ h_tbodies (heap w) !! tx_Body itx = Some ibody
         /\ ecdsa_Verify (NextOwner ibody) (tx_BodyHash tx) (sig_R sg) (sig_S sg) = true.
Proof.
  induction l as [|p0 l IH]; intros st st' txs Hrun Hall j p Hj.
  - inversion Hj.
  - rewrite fst_foldM_cons in Hrun by auto with reader.
    destruct (fst (verifyTransaction st p0 w)) as [st1|e| |] eqn:Hp0;
      simpl in Hrun; try discriminate.
    destruct j as [|j].
    + injection Hj as <-. simpl. rewrite app_nil_r.
      rewrite verifyTransaction_verdict in Hp0.
      destruct (h_txns (heap w) !! p0) as [tx|] eqn:Htx; simpl in Hp0; [|discriminate].
      destruct (h_tbodies (heap w) !! tx_Body tx) as [body|] eqn:Hb; simpl in Hp0;
        [|discriminate].
      destruct (negb _); [discriminate|].
      destruct (fst (verifyInputs _ _ _ _ _ w)) as [v|e| |] eqn:Hin; simpl in Hp0;
        try discriminate.
      exists tx, body. split; [reflexivity|]. split; [assumption|].
      intros i hash Hi.
      apply (verifyInputs_signed _ _ _ _ _ Hall _ _ _ Hin i hash Hi).
    + apply verifyTransaction_ok in Hp0 as (tx0 & body0 & Htx0 & _ & _ & _ & _ & ->).
      simpl in Hj.
      destruct (IH _ _ (txs ++ [p0]) Hrun (indexed_insert _ _ _ _ _ Hall Htx0) j p Hj)
        as (tx & body & Htx & Hb & Hsigned).
      exists tx, body. split; [assumption|]. split; [assumption|].
      intros i hash Hi. destruct (Hsigned i hash Hi) as (sg & q & itx & ibody & H).
      exists sg, q, itx, ibody. simpl. rewrite (cons_middle p0 txs), app_assoc. exact H.
Qed.

(** X8. In an accepted block every input of every transaction after the
    first is authorised: the [i]-th input hash is the hash of a
    transaction of a prior block, or of the candidate at an earlier
    position, and the [i]-th signature verifies under that transaction's
    [NextOwner] key on the hash of the spending transaction. *)
Theorem accepted_inputs_are_signed blocks newBlock w :
  fst (verifyExceptNonce blocks newBlock w) = Ok tt ->
  forall j p, block_txns (heap w) newBlock !! S j = Some p ->
  exists tx body,
    h_txns (heap w) !! p = Some tx
    /\ h_tbodies (heap w) !! tx_Body tx = Some body
    /\ forall i hash, InputTransactionHashes body !! i = Some hash ->
       exists sg q itx ibody,
         OwnerSignatures tx !! i = Some sg
         /\ q ∈ chain_txns (heap w) blocks ++ take (S j) (block_txns (heap w) newBlock)
         /\ h_txns (heap w) !! q = Some itx
         /\ tx_BodyHash itx = hash
         /\ h_tbodies (heap w) !! tx_Body itx = Some ibody
         /\ ecdsa_Verify (NextOwner ibody) (tx_BodyHash tx) (sig_R sg) (sig_S sg) = true.
Proof.
  intros Hok j p Hp. apply verifyExceptNonce_ok in Hok
    as (nb & nbody & cbp & rest & all & cb & st & cbody
        & Hnb & Hq & _ & _ & _ & Htxs & Hall & Hcb & Hloop & _).
  unfold block_txns, block_body in *. rewrite Hnb, Hq, Htxs in *. simpl in Hp.
  apply chain_index in Hall.
  pose proof (indexed_insert _ _ _ _ _ Hall Hcb) as Hseed.
  destruct (foldM_verifyTransaction_signed w rest _ _ _ Hloop Hseed j p Hp)
    as (tx & body & Htx & Hb & Hsigned).
  exists tx, body. split; [assumption|]. split; [assumption|].
  intros i hash Hi. destruct (Hsigned i hash Hi) as (sg & q & itx & ibody & H).
  exists sg, q, itx, ibody. simpl.
  rewrite (cons_middle cbp), app_assoc. exact H.
Qed.

End Inputs.

(** * Absence of run-time panics *)

Section NoPanic.
Context `{P : Primitives}.

Lemma txn_body_resolves h p :
  is_Some (txn_body h p) ->
  exists tx body, h_txns h !! p = Some tx /\ h_tbodies h !! tx_Body tx = Some body.
Proof.
  unfold txn_body. intros [body Hb].
  destruct (h_txns h !! p) as [tx|]; [|discriminate]. eauto.
Qed.

Lemma block_body_resolves h b :
  is_Some (block_body h b) ->
  exists blk body, h_blocks h !! b = Some blk /\ h_bodies h !! Body blk = Some body.
Proof.
  unfold block_body. intros [body Hb].
  destruct (h_blocks h !! b) as [blk|]; [|discriminate]. eauto.
Qed.

Lemma verifyInputs_no_panic all tx w txs hashes :
  indexed (heap w) all txs ->
  (forall t, t ∈ txs -> is_Some (txn_body (heap w) t)) ->
  forall i acc,
  length (OwnerSignatures tx) = (i + length hashes)%nat ->
  fst (verifyInputs all tx i hashes acc w) <> Panic.
Proof.
  intros Hall Hres. induction hashes as [|hash hashes IH]; intros i acc Hlen; simpl.
  - discriminate.
  - destruct (all !! hex_EncodeToString hash) as [q|] eqn:Hq; [|discriminate].
    destruct (lookup_lt_is_Some_2 (OwnerSignatures tx) i) as [sg Hsg];
      [simpl in Hlen; lia|].
    rewrite Hsg.
    destruct (Hall _ _ Hq) as (Hin & _).
    destruct (txn_body_resolves _ _ (Hres q Hin)) as (itx & ibody & Hitx & Hib).
    rewrite fst_bind_reader, fst_deref_txn, Hitx by auto 12 with reader. simpl.
    rewrite fst_bind_reader, fst_deref_tbody, Hib by auto 12 with reader. simpl.
    destruct (negb _); [discriminate|].
    rewrite fst_bind_reader, fst_OutputValue by auto with reader.
    unfold outputValue_of. rewrite Hitx, Hib. simpl.
    apply IH. simpl in Hlen. lia.
Qed.

Lemma verifyTransaction_no_panic st p w txs :
  indexed (heap w) (fst st) txs ->
  (forall t, t ∈ txs -> is_Some (txn_body (heap w) t)) ->
  is_Some (txn_body (heap w) p) ->
  fst (verifyTransaction st p w) <> Panic.
Proof.
  intros Hall Hres Hp. rewrite verifyTransaction_verdict.
  destruct (txn_body_resolves _ _ Hp) as (tx & body & Htx & Hb).
  rewrite Htx; simpl. rewrite Hb; simpl.
  destruct (Nat.eqb_spec (length (InputTransactionHashes body))
              (length (OwnerSignatures tx))) as [Hlen|]; simpl; [|discriminate].
  pose proof (verifyInputs_no_panic (fst st) tx w txs (InputTransactionHashes body)
                Hall Hres 0 0 ltac:(simpl; lia)) as Hin.
  destruct (fst (verifyInputs _ _ _ _ _ w)) as [v|e| |]; simpl;
    try discriminate; [|contradiction].
  destruct (negb _); [discriminate|]. destruct (_ <? _); discriminate.
Qed.

Lemma foldM_verifyTransaction_no_panic w l :
  forall st txs,
  indexed (heap w) (fst st) txs ->
  (forall t, t ∈ txs -> is_Some (txn_body (heap w) t)) ->
  (forall t, t ∈ l -> is_Some (txn_body (heap w) t)) ->
  fst (foldM verifyTransaction l st w) <> Panic.
Proof.
  induction l as [|p l IH]; intros st txs Hall Hres Hl.
  - discriminate.
  - rewrite fst_foldM_cons by auto with reader.
    pose proof (verifyTransaction_no_panic st p w txs Hall Hres
                  (Hl p ltac:(left))) as Hp.
    destruct (fst (verifyTransaction st p w)) as [st1|e| |] eqn:Hrun; simpl;
      try discriminate; [|contradiction].
    apply verifyTransaction_ok in Hrun as (tx & body & Htx & _ & _ & _ & _ & ->).
    apply (IH _ (txs ++ [p])).
    + now apply indexed_insert.
    + intros t Ht. apply elem_of_app in Ht as [Ht|Ht]; [now apply Hres|].
      apply list_elem_of_singleton in Ht. subst t. apply Hl. left.
    + intros t Ht. apply Hl. now right.
Qed.

Lemma foldM_indexTransaction_total w l :
  (forall t, t ∈ l -> is_Some (txn_body (heap w) t)) ->
  forall all, exists all', fst (foldM indexTransaction l all w) = Ok all'.
Proof.
  induction l as [|p l IH]; intros Hl all.
  - exists all. reflexivity.
  - rewrite fst_foldM_cons, fst_indexTransaction by auto with reader.
    destruct (txn_body_resolves _ _ (Hl p ltac:(left))) as (tx & _ & Htx & _).
    rewrite Htx. simpl. apply IH. intros t Ht. apply Hl. now right.
Qed.

Lemma foldM_indexBlock_total w blocks :
  (forall b, b ∈ blocks ->
     is_Some (block_body (heap w) b)
     /\ forall t, t ∈ block_txns (heap w) b -> is_Some (txn_body (heap w) t)) ->
  forall all, exists all', fst (foldM indexBlock blocks all w) = Ok all'.
Proof.
  induction blocks as [|b blocks IH]; intros Hwf all.
  - exists all. reflexivity.
  - rewrite fst_foldM_cons by auto with reader.
    destruct (Hwf b ltac:(left)) as [Hb Htxs].
    destruct (foldM_indexTransaction_total w _ Htxs all) as [all1 Hall1].
    assert (fst (indexBlock all b w) = Ok all1) as ->.
    { rewrite <- Hall1. unfold indexBlock, block_txns, block_body in *.
      destruct (block_body_resolves _ _ Hb) as (blk & body & Hblk & Hbody).
      rewrite fst_bind_reader, fst_deref_block, Hblk by auto 12 with reader. simpl.
      rewrite fst_bind_reader, fst_deref_body, Hbody by auto 12 with reader.
      reflexivity. }
    simpl. apply IH. intros b' Hb'. apply Hwf. now right.
Qed.

(** X9. Pointer safety.  On a heap where every block pointer of the
    chain and of the candidate leads to a block with a body, and every
    transaction pointer of theirs to a transaction with a body,
    [verifyExceptNonce] dereferences no nil pointer to a block, a body or
    a transaction and indexes no signature out of range.  Keys and
    signature integers are values here, so a panic inside [ecdsa.Verify]
    on a nil one is outside this statement. *)
Theorem verifyExceptNonce_no_panic blocks newBlock w :
  well_formed (heap w) blocks newBlock ->
  fst (verifyExceptNonce blocks newBlock w) <> Panic.
Proof.
  intros Hwf. rewrite verifyExceptNonce_verdict.
  destruct (Hwf newBlock ltac:(left)) as [Hnew Hnewtxs].
  destruct (block_body_resolves _ _ Hnew) as (nb & nbody & Hnb & Hq).
  unfold block_txns, block_body in Hnewtxs. rewrite Hnb, Hq in Hnewtxs.
  rewrite Hnb; simpl. rewrite Hq; simpl.
  destruct (negb _); [discriminate|].
  assert (fst (verifyLink blocks nbody w) <> Panic) as Hlink.
  { unfold verifyLink. destruct (last blocks) as [headBlock|] eqn:Hlast.
    - apply last_Some in Hlast as [l' ->].
      destruct (Hwf headBlock) as [Hhead _].
      { right. apply elem_of_app. right. apply list_elem_of_singleton. reflexivity. }
      destruct (block_body_resolves _ _ Hhead) as (hb & hbody & Hhb & Hhq).
      rewrite fst_bind_reader, fst_deref_block, Hhb by auto 12 with reader. simpl.
      rewrite fst_bind_reader, fst_deref_body, Hhq by auto 12 with reader. simpl.
      repeat (destruct (negb _); [discriminate|]). discriminate.
    - destruct (negb _); discriminate. }
  destruct (fst (verifyLink blocks nbody w)) as [[]|e| |]; simpl;
    try discriminate; [|contradiction].
  destruct (Time_After _ _); [discriminate|].
  destruct (Transactions nbody) as [|cbp rest]; [discriminate|].
  destruct (foldM_indexBlock_total w blocks) with (all := (∅ : gmap string ptr))
    as [all Hall].
  { intros b Hb. apply Hwf. now right. }
  rewrite Hall; simpl.
  destruct (txn_body_resolves _ _ (Hnewtxs cbp ltac:(left)))
    as (cb & cbody & Hcb & Hcbody).
  rewrite Hcb; simpl.
  pose proof (foldM_verifyTransaction_no_panic w rest
                (seedTransactions all cbp cb, 0)
                (chain_txns (heap w) blocks ++ [cbp])) as Hloop.
  destruct (fst (foldM verifyTransaction rest _ w)) as [st|e| |]; simpl;
    try discriminate.
  - rewrite Hcbody; simpl. destruct (negb _); discriminate.
  - exfalso. apply Hloop; [| | |reflexivity].
    + apply indexed_insert; [now apply chain_index|assumption].
    + intros t Ht. apply elem_of_app in Ht as [Ht|Ht].
      * unfold chain_txns in Ht. apply list_elem_of_In, in_flat_map in Ht
          as (b & Hb & Ht).
        apply (Hwf b); [right; now apply list_elem_of_In|now apply list_elem_of_In].
      * apply list_elem_of_singleton in Ht. subst t. apply Hnewtxs. left.
    + intros t Ht. apply Hnewtxs. now right.
Qed.

End NoPanic.

(** * Footprints of construction and mining *)

Section Footprint.
Context `{P : Primitives}.

Lemma fresh_block_unused (w : World) :
  h_blocks (heap w) !! fresh (dom (h_blocks (heap w))) = None.
Proof. apply not_elem_of_dom. apply is_fresh. Qed.

(** The two outcomes of [NewBlock], as the proofs about [Mine] use them. *)
Lemma NewBlock_outcome q w :
  match NewBlock q w with
  | (Ok p, w1) =>
      h_blocks (heap w) !! p = None
      /\ (exists blk, Body blk = q
                     /\ heap w1 = heap_set_block p blk (heap w)
                     /\ hashed p q (bodyStaticHash blk) w1)
      /\ ticks w1 = ticks w /\ drawn w1 = drawn w
  | (_, w1) => w1 = w
  end.
Proof.
  destruct (NewBlock q w) as [r w1] eqn:Hrun. destruct r as [p|e| |].
  - pose proof Hrun as Hrun'.
    apply NewBlock_ok in Hrun as (s & bd & h & Hs & Hbd & Hh & Hp & ->).
    split; [subst p; apply fresh_block_unused|].
    apply hashed_NewBlock in Hrun' as (s' & Hhashed & Hs' & _).
    rewrite Hs in Hs'. apply Ok_inj in Hs'. subst s'.
    split; [|split; reflexivity].
    exists {| Body := q; BodyHash := h; bodyStaticHash := s |}.
    split; [reflexivity|]. split; [reflexivity|exact Hhashed].
  - unfold NewBlock in Hrun. rewrite bind_reader in Hrun by apply reader_staticHash.
    destruct (fst (staticHash q w)); try (now inversion Hrun).
    rewrite bind_reader, fst_deref_body in Hrun by auto with reader.
    destruct (h_bodies (heap w) !! q); simpl in Hrun; [|discriminate].
    unfold bind, lift in Hrun.
    destruct (calculateBodyHash _ _ _); try discriminate.
    now inversion Hrun.
  - unfold NewBlock in Hrun. rewrite bind_reader in Hrun by apply reader_staticHash.
    destruct (fst (staticHash q w)); try (now inversion Hrun).
    rewrite bind_reader, fst_deref_body in Hrun by auto with reader.
    destruct (h_bodies (heap w) !! q); simpl in Hrun;
      [|now inversion Hrun].
    unfold bind, lift in Hrun.
    destruct (calculateBodyHash _ _ _); try discriminate.
    now inversion Hrun.
  - exfalso. apply (terminates_NewBlock q w). rewrite Hrun. reflexivity.
Qed.

(** X10. [NewBlock] either fails and leaves the world as it was, or
    returns a pointer that was not in use to a block of the body it was
    given, whose [BodyHash] is the digest of the body's static hash, nonce
    and time; it changes no other object. *)
Theorem NewBlock_effect q w :
  match NewBlock q w with
  | (Ok p, w1) =>
      h_blocks (heap w) !! p = None
      /\ (exists blk, Body blk = q
                     /\ heap w1 = heap_set_block p blk (heap w)
                     /\ hashed p q (bodyStaticHash blk) w1)
      /\ ticks w1 = ticks w /\ drawn w1 = drawn w
  | (_, w1) => w1 = w
  end.
Proof. exact (NewBlock_outcome q w). Qed.

(** What [SetFields] stores, as the proofs about [Mine] use it. *)
Lemma SetFields_stores b nonce time w blk body :
  h_blocks (heap w) !! b = Some blk ->
  h_bodies (heap w) !! Body blk = Some body ->
  let w' := snd (SetFields b nonce time w) in
  mined_from (Body blk) (heap w) (heap w')
  /\ (forall p, p <> b -> h_blocks (heap w') !! p = h_blocks (heap w) !! p)
  /\ h_bodies (heap w') !! Body blk = Some (set_Time time (set_Nonce nonce body))
  /\ match Time_MarshalText time with
     | Some timeText =>
         fst (SetFields b nonce time w) = Ok tt
         /\ h_blocks (heap w') !! b
            = Some (set_BodyHash (sha256 (bodyStaticHash blk ++ le32 nonce ++ timeText)) blk)
     | None =>
         fst (SetFields b nonce time w) = Err MarshalTextError
         /\ h_blocks (heap w') !! b = Some blk
     end.
Proof.
  intros Hblk Hbody w'. subst w'.
  rewrite (SetFields_run b nonce time w blk body Hblk Hbody). cbv zeta.
  assert (Hframe : forall hb : gmap ptr Block,
            (forall p blk0, h_blocks (heap w) !! p = Some blk0 ->
               exists blk', hb !! p = Some blk' /\ Body blk' = Body blk0
                            /\ bodyStaticHash blk' = bodyStaticHash blk0) ->
            mined_from (Body blk) (heap w)
              {| h_blocks := hb;
                 h_bodies := <[Body blk := set_Time time (set_Nonce nonce body)]>
                               (h_bodies (heap w));
                 h_txns := h_txns (heap w); h_tbodies := h_tbodies (heap w) |}).
  { intros hb Hhb. split; [reflexivity|]. split; [reflexivity|]. simpl.
    split; [intros q' Hq'; now rewrite lookup_insert_ne|]. split; [|exact Hhb].
    intros bd Hbd. rewrite Hbody in Hbd. injection Hbd as <-.
    eexists. split; [apply lookup_insert_eq|]. repeat split. }
  destruct (Time_MarshalText time) as [timeText|]; simpl.
  - split; [|split; [|split; [|split]]].
    + apply Hframe. intros p blk0 Hp.
      destruct (decide (b = p)) as [<-|Hne].
      * rewrite Hblk in Hp. injection Hp as <-.
        eexists. split; [apply lookup_insert_eq|]. split; reflexivity.
      * exists blk0. rewrite lookup_insert_ne by assumption. repeat split. assumption.
    + intros p Hp. now rewrite lookup_insert_ne.
    + apply lookup_insert_eq.
    + reflexivity.
    + apply lookup_insert_eq.
  - split; [|split; [|split; [|split]]].
    + apply Hframe. intros p blk0 Hp. exists blk0. repeat split. assumption.
    + intros p Hp. reflexivity.
    + apply lookup_insert_eq.
    + reflexivity.
    + assumption.
Qed.

(** X11. [SetFields] on a block that resolves stores the nonce and the
    time in the block's body, which it shares with whoever holds the body
    pointer, and touches no static field, no transaction and no other
    block or body.  If the time cannot be marshalled it returns the error
    after the stores: the body holds the new nonce and time while the
    block keeps its old [BodyHash]. *)
Theorem SetFields_effect b nonce time w blk body :
  h_blocks (heap w) !! b = Some blk ->
  h_bodies (heap w) !! Body blk = Some body ->
  let w' := snd (SetFields b nonce time w) in
  mined_from (Body blk) (heap w) (heap w')
  /\ (forall p, p <> b -> h_blocks (heap w') !! p = h_blocks (heap w) !! p)
  /\ h_bodies (heap w') !! Body blk = Some (set_Time time (set_Nonce nonce body))
  /\ match Time_MarshalText time with
     | Some timeText =>
         fst (SetFields b nonce time w) = Ok tt
         /\ h_blocks (heap w') !! b
            = Some (set_BodyHash (sha256 (bodyStaticHash blk ++ le32 nonce ++ timeText)) blk)
     | None =>
         fst (SetFields b nonce time w) = Err MarshalTextError
         /\ h_blocks (heap w') !! b = Some blk
     end.
Proof. exact (SetFields_stores b nonce time w blk body). Qed.

Lemma mined_from_refl q h : mined_from q h h.
Proof.
  split; [reflexivity|]. split; [reflexivity|]. split; [reflexivity|]. split.
  - intros bd Hbd. exists bd. split; [assumption|]. repeat split.
  - intros p blk Hp. exists blk. repeat split. assumption.
Qed.

Lemma mined_from_trans q h1 h2 h3 :
  mined_from q h1 h2 -> mined_from q h2 h3 -> mined_from q h1 h3.
Proof.
  intros (Ht & Hb & Ho & Hq & Hbl) (Ht' & Hb' & Ho' & Hq' & Hbl').
  split; [congruence|]. split; [congruence|]. split; [|split].
  - intros q' Hne. rewrite Ho', Ho by assumption. reflexivity.
  - intros bd Hbd. destruct (Hq bd Hbd) as (bd1 & Hbd1 & Hv & Hi & Hp & Htx).
    destruct (Hq' bd1 Hbd1) as (bd2 & Hbd2 & Hv' & Hi' & Hp' & Htx').
    exists bd2. split; [assumption|]. repeat split; congruence.
  - intros p blk Hp. destruct (Hbl p blk Hp) as (blk1 & Hp1 & HB & HS).
    destruct (Hbl' p blk1 Hp1) as (blk2 & Hp2 & HB' & HS').
    exists blk2. split; [assumption|]. split; congruence.
Qed.

Lemma Mine_loop_footprint p q s fuel :
  forall nonce w,
  hashed p q s w ->
  mined_from q (heap w) (heap (snd (Mine_loop fuel p nonce w))).
Proof.
  induction fuel as [|fuel IH]; intros nonce w Hw.
  - apply mined_from_refl.
  - rewrite Mine_loop_unfold.
    apply (hashed_heap p q s w (tick w) eq_refl) in Hw.
    pose proof Hw as (blk & bd & Hblk & Hq & Hs & Hbd & _). subst q.
    destruct (SetFields_stores p nonce (clock w (ticks w)) (tick w) blk bd Hblk Hbd)
      as (Hfoot & _ & _ & Hres).
    change (heap (tick w)) with (heap w) in Hfoot.
    destruct (Time_MarshalText (clock w (ticks w))) as [timeText|] eqn:Htext.
    + destruct (SetFields_hashed p (Body blk) s (tick w) nonce _ timeText Hw Htext)
        as (w2 & Hset & Hw2 & _ & _ & Hhash).
      rewrite Hset in Hfoot |- *. simpl in Hfoot.
      rewrite (nonceIsValid_run p w2 _ Hhash).
      destruct (_ <=? _); [exact Hfoot|].
      destruct (add32 nonce 1 =? 0); [exact Hfoot|].
      eapply mined_from_trans; [exact Hfoot|]. now apply IH.
    + destruct Hres as [Herr _].
      destruct (SetFields p nonce (clock w (ticks w)) (tick w)) as [r w1].
      simpl in Herr, Hfoot. subst r. exact Hfoot.
Qed.

(** The nonce search leaves every other block as it was. *)
Lemma Mine_loop_blocks p q s fuel :
  forall nonce w p',
  hashed p q s w -> p' <> p ->
  h_blocks (heap (snd (Mine_loop fuel p nonce w))) !! p' = h_blocks (heap w) !! p'.
Proof.
  induction fuel as [|fuel IH]; intros nonce w p' Hw Hne; [reflexivity|].
  rewrite Mine_loop_unfold.
  apply (hashed_heap p q s w (tick w) eq_refl) in Hw.
  pose proof Hw as (blk & bd & Hblk & Hq & Hs & Hbd & _). subst q.
  destruct (SetFields_stores p nonce (clock w (ticks w)) (tick w) blk bd Hblk Hbd)
    as (_ & Hothers & _ & Hres).
  specialize (Hothers p' Hne). change (heap (tick w)) with (heap w) in Hothers.
  destruct (Time_MarshalText (clock w (ticks w))) as [timeText|] eqn:Htext.
  - destruct (SetFields_hashed p (Body blk) s (tick w) nonce _ timeText Hw Htext)
      as (w2 & Hset & Hw2 & _ & _ & Hhash).
    rewrite Hset in Hothers |- *. simpl in Hothers.
    rewrite (nonceIsValid_run p w2 _ Hhash).
    destruct (_ <=? _); [exact Hothers|].
    destruct (add32 nonce 1 =? 0); [exact Hothers|].
    rewrite IH by assumption. exact Hothers.
  - destruct Hres as [Herr _].
    destruct (SetFields p nonce (clock w (ticks w)) (tick w)) as [r w1].
    simpl in Herr, Hothers. subst r. exact Hothers.
Qed.

Lemma Mine_fuel_unfold fuel n q w :
  Mine_fuel fuel n q w =
  match NewBlock q w with
  | (Ok p, w1) =>
      match verifyExceptNonce (Blocks (Chain_ n)) p w1 with
      | (Ok _, w2) =>
          match Mine_loop fuel p 0 w2 with
          | (Ok _, w3) => (Ok p, w3)
          | (Err e, w3) => (Err e, w3)
          | (Panic, w3) => (Panic, w3)
          | (OutOfFuel, w3) => (OutOfFuel, w3)
          end
      | (Err e, w2) => (Err e, w2)
      | (Panic, w2) => (Panic, w2)
      | (OutOfFuel, w2) => (OutOfFuel, w2)
      end
  | (Err e, w1) => (Err e, w1)
  | (Panic, w1) => (Panic, w1)
  | (OutOfFuel, w1) => (OutOfFuel, w1)
  end.
Proof.
  unfold Mine_fuel. unfold bind at 1.
  destruct (NewBlock q w) as [[p|e| |] w1]; reflexivity.
Qed.

(** X12. On the heap, [Mine] changes nothing but the nonce and time of
    the body it was given and the one block it allocates: every
    transaction and transaction body, every other block body and the
    static fields of the body are as before; there is a pointer [p0], not
    in use before, such that every block but the one at [p0] is as it
    was, hash included, and [p0] is what [Mine] returns when it returns a
    block.  When the validator rejects the block, [Mine] returns the
    validator's error and the body is as it was. *)
Theorem Mine_footprint n q w :
  mined_from q (heap w) (heap (snd (Mine n q w)))
  /\ (exists p0,
        h_blocks (heap w) !! p0 = None
        /\ (forall p, p <> p0 ->
              h_blocks (heap (snd (Mine n q w))) !! p = h_blocks (heap w) !! p)
        /\ (forall p, fst (Mine n q w) = Ok p -> p = p0))
  /\ (forall p w1 e,
        NewBlock q w = (Ok p, w1) ->
        fst (verifyExceptNonce (Blocks (Chain_ n)) p w1) = Err e ->
        fst (Mine n q w) = Err e /\ h_bodies (heap (snd (Mine n q w))) = h_bodies (heap w)).
Proof.
  unfold Mine. generalize NonceSpace as fuel. intros fuel.
  rewrite Mine_fuel_unfold.
  pose proof (NewBlock_outcome q w) as Hnew.
  destruct (NewBlock q w) as [[p|e| |] w1];
    try (subst w1; split; [apply mined_from_refl|]; split; [|intros ? ? ? [=]];
         exists (fresh (dom (h_blocks (heap w))));
         split; [apply fresh_block_unused|]; split; [reflexivity|intros ? [=]]).
  destruct Hnew as (Hfresh & (blk & HB & Hheap & Hhashed) & _).
  assert (Hstep : mined_from q (heap w) (heap w1)).
  { rewrite Hheap. split; [reflexivity|]. split; [reflexivity|]. split; [reflexivity|].
    split.
    - intros bd Hbd. exists bd. split; [assumption|]. repeat split.
    - intros p0 blk0 Hp0. exists blk0. simpl.
      rewrite lookup_insert_ne by congruence. repeat split. assumption. }
  assert (Hold : forall p', p' <> p -> h_blocks (heap w1) !! p' = h_blocks (heap w) !! p').
  { intros p' Hne. rewrite Hheap. simpl. now rewrite lookup_insert_ne. }
  pose proof (frame_verifyExceptNonce (Blocks (Chain_ n)) p w1) as Hframe.
  destruct (verifyExceptNonce (Blocks (Chain_ n)) p w1) as [rv w2] eqn:Hv.
  simpl in Hframe. split; [|split].
  - destruct rv as [[]|e| |]; simpl; try (rewrite Hframe; exact Hstep).
    apply (hashed_heap p q _ w1 w2 Hframe) in Hhashed.
    pose proof (Mine_loop_footprint p q _ fuel 0 w2 Hhashed) as Hloop.
    destruct (Mine_loop fuel p 0 w2) as [[[]|e| |] w3]; simpl in *;
      (eapply mined_from_trans; [exact Hstep|]; rewrite <- Hframe; exact Hloop).
  - exists p. split; [assumption|]. split.
    + intros p' Hne.
      destruct rv as [[]|e| |]; simpl; try (rewrite Hframe; now apply Hold).
      apply (hashed_heap p q _ w1 w2 Hframe) in Hhashed.
      pose proof (Mine_loop_blocks p q _ fuel 0 w2 p' Hhashed Hne) as Hloop.
      destruct (Mine_loop fuel p 0 w2) as [[[]|e| |] w3]; simpl in *;
        (rewrite Hloop, Hframe; now apply Hold).
    + intros p' Hok. destruct rv as [[]|e| |]; simpl in Hok; try discriminate.
      destruct (Mine_loop fuel p 0 w2) as [[[]|e| |] w3]; simpl in Hok;
        try discriminate.
      now injection Hok.
  - intros p' w1' e [= <- <-] Hrej. rewrite Hv in Hrej. simpl in Hrej. subst rv. simpl.
    rewrite Hframe, Hheap. split; reflexivity.
Qed.

(** With the nonce and the time [SetFields] stored. *)
Lemma SetFields_stored p q s w nonce time :
  hashed p q s w ->
  exists bd,
    h_bodies (heap (snd (SetFields p nonce time w))) !! q = Some bd
    /\ Nonce bd = nonce /\ Time_ bd = time.
Proof.
  intros (blk & bd & Hblk & Hq & _ & Hbd & _). subst q.
  destruct (SetFields_stores p nonce time w blk bd Hblk Hbd) as (_ & _ & Hstored & _).
  eexists. split; [exact Hstored|]. split; reflexivity.
Qed.

(** The search returns at the first trial that meets the difficulty. *)
Lemma Mine_loop_finds p q s :
  forall k fuel nonce w h,
  hashed p q s w ->
  (k < fuel)%nat -> 0 <= nonce -> nonce + Z.of_nat k < 2 ^ 32 ->
  (forall i, (i < k)%nat ->
     exists h',
       calculateBodyHash s (nonce + Z.of_nat i) (clock w (ticks w + i)%nat) = Ok h'
       /\ leadingZeros h' < MinimumRequiredLeadingZeros) ->
  calculateBodyHash s (nonce + Z.of_nat k) (clock w (ticks w + k)%nat) = Ok h ->
  MinimumRequiredLeadingZeros <= leadingZeros h ->
  exists w' bd,
    Mine_loop fuel p nonce w = (Ok tt, w')
    /\ ticks w' = (ticks w + k + 1)%nat
    /\ (BodyHash <$> h_blocks (heap w') !! p) = Some h
    /\ h_bodies (heap w') !! q = Some bd
    /\ Nonce bd = nonce + Z.of_nat k
    /\ Time_ bd = clock w (ticks w + k)%nat.
Proof.
  induction k as [|k IH]; intros fuel nonce w h Hw Hfuel Hn Hk Hfail Hcalc Hlz;
    (destruct fuel as [|fuel]; [lia|]); rewrite Mine_loop_unfold;
    apply (hashed_heap p q s w (tick w) eq_refl) in Hw.
  - rewrite Z.add_0_r, Nat.add_0_r in Hcalc. unfold calculateBodyHash in Hcalc.
    destruct (Time_MarshalText (clock w (ticks w))) as [timeText|] eqn:Htext;
      [|discriminate].
    apply Ok_inj in Hcalc. subst h.
    destruct (SetFields_stored p q s (tick w) nonce (clock w (ticks w)) Hw)
      as (bd & Hbd & Hnonce & Htime).
    destruct (SetFields_hashed p q s (tick w) nonce _ timeText Hw Htext)
      as (w2 & Hset & Hw2 & Hticks & Hclock & Hhash).
    rewrite Hset in Hbd |- *. simpl in Hbd.
    rewrite (nonceIsValid_run p w2 _ Hhash).
    destruct (Z.leb_spec MinimumRequiredLeadingZeros
                (leadingZeros (sha256 (s ++ le32 nonce ++ timeText)))); [|lia].
    exists w2, bd. split; [reflexivity|]. rewrite Hticks. simpl.
    split; [lia|]. split; [assumption|]. split; [assumption|].
    rewrite Z.add_0_r, Nat.add_0_r. split; assumption.
  - destruct (Hfail 0%nat ltac:(lia)) as (h0 & Hcalc0 & Hlz0).
    rewrite Z.add_0_r, Nat.add_0_r in Hcalc0. unfold calculateBodyHash in Hcalc0.
    destruct (Time_MarshalText (clock w (ticks w))) as [timeText|] eqn:Htext;
      [|discriminate].
    apply Ok_inj in Hcalc0. subst h0.
    destruct (SetFields_hashed p q s (tick w) nonce _ timeText Hw Htext)
      as (w2 & Hset & Hw2 & Hticks & Hclock & Hhash).
    rewrite Hset, (nonceIsValid_run p w2 _ Hhash).
    destruct (Z.leb_spec MinimumRequiredLeadingZeros
                (leadingZeros (sha256 (s ++ le32 nonce ++ timeText)))); [lia|].
    assert (add32 nonce 1 = nonce + 1) as Hadd.
    { unfold add32, wrap32. apply Z.mod_small. lia. }
    rewrite Hadd. destruct (Z.eqb_spec (nonce + 1) 0); [lia|].
    simpl in Hticks, Hclock.
    destruct (IH fuel (nonce + 1) w2 h Hw2) as (w' & bd & Hrun & Ht & Hh & Hbd & Hnb & Htb);
      try lia.
    + intros i Hi. destruct (Hfail (S i) ltac:(lia)) as (h' & Hc' & Hl').
      exists h'. split; [|assumption]. rewrite Hclock, Hticks.
      replace (nonce + 1 + Z.of_nat i) with (nonce + Z.of_nat (S i)) by lia.
      replace (S (ticks w) + i)%nat with (ticks w + S i)%nat by lia. assumption.
    + rewrite Hclock, Hticks.
      replace (nonce + 1 + Z.of_nat k) with (nonce + Z.of_nat (S k)) by lia.
      replace (S (ticks w) + k)%nat with (ticks w + S k)%nat by lia. assumption.
    + exists w', bd. split; [assumption|]. rewrite Ht, Hticks. split; [lia|].
      split; [assumption|]. split; [assumption|].
      rewrite Hnb, Htb, Hclock, Hticks. split; [lia|].
      f_equal. lia.
Qed.

(** X13. [Mine] returns at the first trial that meets the difficulty.
    When the block is valid, the trials [(i, clock (t + 1 + i))] fail for
    [i < k] and the trial [k] (below [2^32]) succeeds with hash [h], [Mine]
    returns the block with [BodyHash] [h], having stored nonce [k] and the
    [k]-th reading in the body and read the clock [k + 2] times. *)
Theorem Mine_first_valid n q w p w1 s k h :
  NewBlock q w = (Ok p, w1) ->
  fst (verifyExceptNonce (Blocks (Chain_ n)) p w1) = Ok tt ->
  fst (staticHash q w) = Ok s ->
  Z.of_nat k < 2 ^ 32 ->
  (forall i, (i < k)%nat ->
     exists h',
       calculateBodyHash s (Z.of_nat i) (clock w (ticks w + 1 + i)%nat) = Ok h'
       /\ leadingZeros h' < MinimumRequiredLeadingZeros) ->
  calculateBodyHash s (Z.of_nat k) (clock w (ticks w + 1 + k)%nat) = Ok h ->
  MinimumRequiredLeadingZeros <= leadingZeros h ->
  exists w' bd,
    Mine n q w = (Ok p, w')
    /\ ticks w' = (ticks w + k + 2)%nat
    /\ (BodyHash <$> h_blocks (heap w') !! p) = Some h
    /\ h_bodies (heap w') !! q = Some bd
    /\ Nonce bd = Z.of_nat k
    /\ Time_ bd = clock w (ticks w + 1 + k)%nat.
Proof.
  intros Hnew Hver Hs Hk Hfail Hcalc Hlz.
  pose proof NonceSpace_Z as HZ.
  unfold Mine. revert HZ. generalize NonceSpace as fuel. intros fuel HZ.
  unfold Mine_fuel. unfold bind at 1. rewrite Hnew.
  apply hashed_NewBlock in Hnew as (s' & Hw1 & Hs' & Ht1 & Hc1).
  rewrite Hs in Hs'. apply Ok_inj in Hs'. subst s'.
  unfold bind at 1.
  pose proof (verifyExceptNonce_world (Blocks (Chain_ n)) p w1) as Hv.
  destruct (verifyExceptNonce (Blocks (Chain_ n)) p w1) as [r w2].
  simpl in Hver, Hv. subst r.
  destruct Hv as [->|[_ Hno]]; [|contradiction].
  apply (hashed_heap p q s w1 (tick w1) eq_refl) in Hw1.
  destruct (Mine_loop_finds p q s k fuel 0 (tick w1) h Hw1)
    as (w' & bd & Hrun & Ht & Hh & Hbd & Hnb & Htb); try lia.
  - intros i Hi. destruct (Hfail i Hi) as (h' & Hc' & Hl').
    exists h'. split; [|assumption]. simpl. rewrite Hc1, Ht1.
    replace (ticks w + 1 + i)%nat with (S (ticks w + i)) in Hc' by lia. exact Hc'.
  - simpl. rewrite Hc1, Ht1.
    replace (ticks w + 1 + k)%nat with (S (ticks w + k)) in Hcalc by lia. exact Hcalc.
  - exists w', bd. unfold bind. rewrite Hrun. split; [reflexivity|].
    simpl in Ht, Htb. rewrite Ht1 in Ht. rewrite Hc1, Ht1 in Htb.
    split; [lia|]. split; [assumption|]. split; [assumption|].
    split; [lia|]. rewrite Htb. f_equal. lia.
Qed.

End Footprint.

(** * Errors of the transaction checks *)

Section InputErrors.
Context `{P : Primitives}.

Lemma verifyInputs_app all tx w l1 l2 :
  forall i acc,
  fst (verifyInputs all tx i (l1 ++ l2) acc w) =
  Res_bind (fst (verifyInputs all tx i l1 acc w))
    (fun v => fst (verifyInputs all tx (i + length l1) l2 v w)).
Proof.
  induction l1 as [|hash l1 IH]; intros i acc.
  - simpl. rewrite Nat.add_0_r. reflexivity.
  - cbn [app verifyInputs length].
    destruct (all !! hex_EncodeToString hash) as [q|]; [|reflexivity].
    destruct (OwnerSignatures tx !! i) as [sg|]; [|reflexivity].
    rewrite !(fst_bind_reader (deref_txn q)), fst_deref_txn by auto 12 with reader.
    destruct (h_txns (heap w) !! q) as [itx|]; simpl; [|reflexivity].
    rewrite !(fst_bind_reader (deref_tbody (tx_Body itx))), fst_deref_tbody
      by auto 12 with reader.
    destruct (h_tbodies (heap w) !! tx_Body itx) as [ibody|]; simpl; [|reflexivity].
    destruct (negb _); [reflexivity|].
    rewrite !(fst_bind_reader (OutputValue q)) by auto with reader.
    destruct (fst (OutputValue q w)) as [ov|e| |]; simpl; try reflexivity.
    rewrite IH. replace (i + S (length l1))%nat with (S i + length l1)%nat by lia.
    reflexivity.
Qed.

(** The error of the first transaction that fails is the verdict. *)
Lemma verifyExceptNonce_transaction_error blocks newBlock w nb nbody cbp pre p post cb
    allTransactions st e :
  h_blocks (heap w) !! newBlock = Some nb ->
  h_bodies (heap w) !! Body nb = Some nbody ->
  Transactions nbody = cbp :: pre ++ p :: post ->
  Version nbody = CurrentVersion ->
  fst (verifyLink blocks nbody w) = Ok tt ->
  Time_After (Time_ nbody) (clock w (ticks w)) = false ->
  fst (foldM indexBlock blocks ∅ w) = Ok allTransactions ->
  h_txns (heap w) !! cbp = Some cb ->
  fst (foldM verifyTransaction pre (seedTransactions allTransactions cbp cb, 0) w)
    = Ok st ->
  fst (verifyTransaction st p w) = Err e ->
  fst (verifyExceptNonce blocks newBlock w) = Err e.
Proof.
  intros Hnb Hbody Htxs Hv Hlink Hnow Hall Hcb Hpre Hp.
  rewrite verifyExceptNonce_verdict, Hnb; simpl. rewrite Hbody; simpl.
  rewrite Hv, Hlink; simpl. rewrite Hnow, Htxs, Hall; simpl. rewrite Hcb; simpl.
  rewrite fst_foldM_app by auto with reader. rewrite Hpre. cbn [Res_bind].
  rewrite fst_foldM_cons, Hp by auto with reader. reflexivity.
Qed.

(** X14. Errors of the input checks.  Let the candidate's list be
    [cbp :: pre ++ p :: post], the block-level checks pass and every
    transaction of [pre] validate.  If [p] has not as many signatures as
    inputs the verdict is [SignatureCountMismatch].  Otherwise, if its
    inputs [known] are found and correctly signed and the next input hash
    is not in the lookup, the verdict is [UnknownInput]; if it is found
    but the signature at its index does not verify under the found
    transaction's [NextOwner], the verdict is [InvalidSignature]. *)
Theorem input_errors blocks newBlock w nb nbody cbp pre p post cb
    allTransactions st tx body :
  h_blocks (heap w) !! newBlock = Some nb ->
  h_bodies (heap w) !! Body nb = Some nbody ->
  Transactions nbody = cbp :: pre ++ p :: post ->
  Version nbody = CurrentVersion ->
  fst (verifyLink blocks nbody w) = Ok tt ->
  Time_After (Time_ nbody) (clock w (ticks w)) = false ->
  fst (foldM indexBlock blocks ∅ w) = Ok allTransactions ->
  h_txns (heap w) !! cbp = Some cb ->
  fst (foldM verifyTransaction pre (seedTransactions allTransactions cbp cb, 0) w)
    = Ok st ->
  h_txns (heap w) !! p = Some tx ->
  h_tbodies (heap w) !! tx_Body tx = Some body ->
  (length (InputTransactionHashes body) <> length (OwnerSignatures tx) ->
   fst (verifyExceptNonce blocks newBlock w) = Err SignatureCountMismatch)
  /\ (forall known hash later v,
        length (InputTransactionHashes body) = length (OwnerSignatures tx) ->
        InputTransactionHashes body = known ++ hash :: later ->
        fst (verifyInputs (fst st) tx 0 known 0 w) = Ok v ->
        (fst st !! hex_EncodeToString hash = None ->
         fst (verifyExceptNonce blocks newBlock w) = Err UnknownInput)
        /\ (forall q itx ibody sg,
              fst st !! hex_EncodeToString hash = Some q ->
              h_txns (heap w) !! q = Some itx ->
              h_tbodies (heap w) !! tx_Body itx = Some ibody ->
              OwnerSignatures tx !! length known = Some sg ->
              ecdsa_Verify (NextOwner ibody) (tx_BodyHash tx) (sig_R sg) (sig_S sg)
                = false ->
              fst (verifyExceptNonce blocks newBlock w) = Err InvalidSignature)).
Proof.
  intros Hnb Hbody Htxs Hv Hlink Hnow Hall Hcb Hpre Htx Hb.
  assert (Hlift : forall e, fst (verifyTransaction st p w) = Err e ->
                            fst (verifyExceptNonce blocks newBlock w) = Err e).
  { intros e. eapply verifyExceptNonce_transaction_error; eassumption. }
  split.
  - intros Hlen. apply Hlift. rewrite verifyTransaction_verdict, Htx; simpl.
    rewrite Hb; simpl.
    destruct (Nat.eqb_spec (length (InputTransactionHashes body))
                (length (OwnerSignatures tx))); [contradiction|reflexivity].
  - intros known hash later v Hlen Hsplit Hknown.
    assert (Hpass : forall e,
              fst (verifyInputs (fst st) tx (length known) (hash :: later) v w) = Err e ->
              fst (verifyTransaction st p w) = Err e).
    { intros e He. rewrite verifyTransaction_verdict, Htx; simpl. rewrite Hb; simpl.
      rewrite Hlen, Nat.eqb_refl; simpl.
      rewrite Hsplit, verifyInputs_app, Hknown. cbn [Res_bind].
      rewrite Nat.add_0_l, He. reflexivity. }
    split.
    + intros Hnone. apply Hlift, Hpass. cbn [verifyInputs]. rewrite Hnone. reflexivity.
    + intros q itx ibody sg Hq Hitx Hib Hsg Hver. apply Hlift, Hpass.
      cbn [verifyInputs]. rewrite Hq, Hsg.
      rewrite fst_bind_reader, fst_deref_txn, Hitx by auto 12 with reader. simpl.
      rewrite fst_bind_reader, fst_deref_tbody, Hib by auto 12 with reader. simpl.
      rewrite Hver. reflexivity.
Qed.

End InputErrors.

(** * Signing and verifying *)

Section Signing.
Context `{P : Primitives}.

(** The signing loop: one draw and one signature per key, in order; the
    first key that cannot sign ends it. *)
Lemma signAll_run bodyHash privs :
  forall sigs w,
  match signAll bodyHash privs sigs w with
  | (Ok sigs', w') =>
      heap w' = heap w
      /\ exists new,
           sigs' = sigs ++ new /\ length new = length privs
           /\ forall i priv, privs !! i = Some priv ->
                exists r s,
                  ecdsa_Sign (entropy w (drawn w + i)%nat) priv bodyHash = Some (r, s)
                  /\ new !! i = Some {| sig_R := r; sig_S := s |}
  | (Err e, w') =>
      e = SignError /\ heap w' = heap w
      /\ exists i priv,
           privs !! i = Some priv
           /\ ecdsa_Sign (entropy w (drawn w + i)%nat) priv bodyHash = None
           /\ forall j priv', (j < i)%nat -> privs !! j = Some priv' ->
                ecdsa_Sign (entropy w (drawn w + j)%nat) priv' bodyHash <> None
  | _ => False
  end.
Proof.
  unfold signAll. induction privs as [|priv privs IH]; intros sigs w.
  - simpl. split; [reflexivity|]. exists []. rewrite app_nil_r.
    split; [reflexivity|]. split; [reflexivity|]. intros i p Hp. discriminate.
  - cbn [foldM]. unfold bind at 1. unfold bind at 1. unfold rand_Reader at 1.
    destruct (ecdsa_Sign (entropy w (drawn w)) priv bodyHash) as [[r s]|] eqn:Hsign.
    + cbn [ret fst snd].
      match goal with |- context [foldM ?f privs ?a ?w1] =>
        specialize (IH a w1); destruct (foldM f privs a w1) as [[sigs'|e| |] w'] end.
      * destruct IH as (Hheap & new & -> & Hlen & Hnew). simpl in Hheap.
        split; [assumption|].
        exists ({| sig_R := r; sig_S := s |} :: new).
        split; [now rewrite <- app_assoc|]. split; [simpl; now rewrite Hlen|].
        intros [|i] p Hp; simpl in Hp.
        -- injection Hp as <-. exists r, s. rewrite Nat.add_0_r. split; [assumption|reflexivity].
        -- destruct (Hnew i p Hp) as (r' & s' & Hs & Hi). simpl in Hs.
           exists r', s'. replace (drawn w + S i)%nat with (S (drawn w) + i)%nat by lia.
           split; assumption.
      * destruct IH as (-> & Hheap & i & p & Hp & Hnone & Hbefore). simpl in *.
        split; [reflexivity|]. split; [assumption|].
        exists (S i), p. split; [assumption|].
        replace (drawn w + S i)%nat with (S (drawn w + i))%nat by lia.
        split; [assumption|].
        intros [|j] p' Hj Hp'; simpl in Hp'.
        -- injection Hp' as <-. rewrite Nat.add_0_r, Hsign. discriminate.
        -- replace (drawn w + S j)%nat with (S (drawn w + j))%nat by lia.
           apply (Hbefore j p'); [lia|assumption].
      * exact IH.
      * exact IH.
    + simpl. split; [reflexivity|]. split; [reflexivity|].
      exists 0%nat, priv. rewrite Nat.add_0_r. split; [reflexivity|].
      split; [assumption|]. intros j p' Hj. lia.
Qed.

Lemma fst_TransactionBody_hash body w :
  fst (TransactionBody_hash body w)
  = Res_bind (deref (h_tbodies (heap w) !! body)) (fun tb => Ok (bodyHash_of tb)).
Proof.
  unfold TransactionBody_hash.
  rewrite fst_bind_reader, fst_deref_tbody by auto with reader.
  destruct (h_tbodies (heap w) !! body); reflexivity.
Qed.

(** The outcomes of [NewTransaction] on a body that resolves. *)
Lemma NewTransaction_run body privs isCoinbase_ w tb :
  h_tbodies (heap w) !! body = Some tb ->
  let sign i priv := ecdsa_Sign (entropy w (drawn w + i)%nat) priv (bodyHash_of tb) in
  match NewTransaction body privs isCoinbase_ w with
  | (Ok p, w') =>
      h_txns (heap w) !! p = None
      /\ exists sigs,
           heap w' = heap_set_txn p {| tx_Body := body; tx_BodyHash := bodyHash_of tb;
                                       OwnerSignatures := sigs;
                                       isCoinbase := isCoinbase_ |} (heap w)
           /\ length sigs = length privs
           /\ forall i priv, privs !! i = Some priv ->
                exists r s, sign i priv = Some (r, s)
                            /\ sigs !! i = Some {| sig_R := r; sig_S := s |}
  | (Err e, w') =>
      e = SignError /\ heap w' = heap w
      /\ exists i priv,
           privs !! i = Some priv /\ sign i priv = None
           /\ forall j priv', (j < i)%nat -> privs !! j = Some priv' ->
                sign j priv' <> None
  | _ => False
  end.
Proof.
  intros Htb sign. unfold NewTransaction.
  rewrite bind_reader by (unfold TransactionBody_hash; auto with reader).
  rewrite fst_TransactionBody_hash, Htb. cbn [deref Res_bind].
  unfold bind.
  pose proof (signAll_run (bodyHash_of tb) privs [] w) as Hsign.
  destruct (signAll (bodyHash_of tb) privs [] w) as [[sigs|e| |] w1];
    try contradiction.
  - destruct Hsign as (Hheap & new & -> & Hlen & Hnew). simpl.
    rewrite Hheap. split; [apply not_elem_of_dom, is_fresh|].
    exists new. split; [reflexivity|]. split; assumption.
  - exact Hsign.
Qed.

(** The input loop accepts when every input is found and signed. *)
Lemma verifyInputs_accepts all tx w :
  forall hashes i acc,
  (forall j hash, hashes !! j = Some hash ->
     exists t itx ibody sg,
       all !! hex_EncodeToString hash = Some t
       /\ h_txns (heap w) !! t = Some itx
       /\ h_tbodies (heap w) !! tx_Body itx = Some ibody
       /\ OwnerSignatures tx !! (i + j)%nat = Some sg
       /\ ecdsa_Verify (NextOwner ibody) (tx_BodyHash tx) (sig_R sg) (sig_S sg) = true) ->
  fst (verifyInputs all tx i hashes acc w)
  = Ok (fold_left (fun a hash => add32 a (referencedValue (heap w) all hash)) hashes acc).
Proof.
  induction hashes as [|hash hashes IH]; intros i acc Hall; [reflexivity|].
  destruct (Hall 0%nat hash eq_refl) as (t & itx & ibody & sg & Ht & Hitx & Hib & Hsg & Hok).
  rewrite Nat.add_0_r in Hsg.
  cbn [verifyInputs fold_left]. unfold referencedValue at 2. rewrite Ht, Hsg.
  rewrite fst_bind_reader, fst_deref_txn, Hitx by auto 12 with reader.
  cbn [deref Res_bind].
  rewrite fst_bind_reader, fst_deref_tbody, Hib by auto 12 with reader.
  cbn [deref Res_bind]. rewrite Hok. cbn [negb].
  rewrite fst_bind_reader, fst_OutputValue by auto with reader.
  assert (Hov : exists ov, outputValue_of (heap w) t = Some ov).
  { unfold outputValue_of. rewrite Hitx, Hib. eexists. reflexivity. }
  destruct Hov as [ov Hov]. rewrite Hov. cbn [deref Res_bind default].
  apply IH. intros j hash' Hj.
  destruct (Hall (S j) hash' Hj) as (t' & itx' & ibody' & sg' & H1 & H2 & H3 & H4 & H5).
  exists t', itx', ibody', sg'. replace (S i + j)%nat with (i + S j)%nat by lia.
  repeat split; assumption.
Qed.

(** X15. On a body that resolves: when [NewTransaction] returns a
    transaction, the pointer was not in use, the transaction is of that
    body, is hashed as [hash] does and carries, in the order of the keys,
    one signature per key, each made by [ecdsa.Sign] on that hash with
    the next entropy, and no other object has changed; when it returns an
    error, that is the error of signing, some key could not sign while all
    the keys before it could, and nothing was allocated. *)
Theorem NewTransaction_effect body privs isCoinbase_ w tb :
  h_tbodies (heap w) !! body = Some tb ->
  let sign i priv := ecdsa_Sign (entropy w (drawn w + i)%nat) priv (bodyHash_of tb) in
  (forall p w',
     NewTransaction body privs isCoinbase_ w = (Ok p, w') ->
     h_txns (heap w) !! p = None
     /\ exists sigs,
          heap w' = heap_set_txn p {| tx_Body := body; tx_BodyHash := bodyHash_of tb;
                                      OwnerSignatures := sigs;
                                      isCoinbase := isCoinbase_ |} (heap w)
          /\ length sigs = length privs
          /\ forall i priv, privs !! i = Some priv ->
               exists r s, sign i priv = Some (r, s)
                           /\ sigs !! i = Some {| sig_R := r; sig_S := s |})
  /\ (forall e w',
        NewTransaction body privs isCoinbase_ w = (Err e, w') ->
        e = SignError /\ heap w' = heap w
        /\ exists i priv,
             privs !! i = Some priv /\ sign i priv = None
             /\ forall j priv', (j < i)%nat -> privs !! j = Some priv' ->
                  sign j priv' <> None).
Proof.
  intros Htb sign.
  pose proof (NewTransaction_run body privs isCoinbase_ w tb Htb) as Hrun.
  cbv zeta in Hrun. split.
  - intros p w' Hok. rewrite Hok in Hrun. exact Hrun.
  - intros e w' Herr. rewrite Herr in Hrun. exact Hrun.
Qed.

(** X16. Signing and verifying agree.  When [NewTransaction] is given
    one key per input, each the key of the owner of the transaction that
    input names in the lookup, and signatures made with those keys verify
    under their public keys, the transaction passes the signature count,
    the lookup and the signature checks of the validator: the verdict on
    it is decided by its values alone. *)
Theorem signed_by_owners_verifies body privs isCoinbase_ w p w' tb allTransactions fees :
  NewTransaction body privs isCoinbase_ w = (Ok p, w') ->
  h_tbodies (heap w) !! body = Some tb ->
  length (InputTransactionHashes tb) = length privs ->
  (forall i hash priv,
     InputTransactionHashes tb !! i = Some hash -> privs !! i = Some priv ->
     exists t itx ibody,
       allTransactions !! hex_EncodeToString hash = Some t
       /\ h_txns (heap w) !! t = Some itx
       /\ h_tbodies (heap w) !! tx_Body itx = Some ibody
       /\ NextOwner ibody = sk_Public priv) ->
  (forall priv k h r s,
     priv ∈ privs -> ecdsa_Sign k priv h = Some (r, s) ->
     ecdsa_Verify (sk_Public priv) h r s = true) ->
  fst (verifyTransaction (allTransactions, fees) p w')
  = if negb (referencedTotal (heap w') allTransactions (InputTransactionHashes tb)
             =? InputValue tb)
    then Err ValueMismatch
    else if InputValue tb <? add32 (Change tb) (Fee tb)
    then Err InsufficientInputValue
    else Ok (<[hex_EncodeToString (bodyHash_of tb) := p]> allTransactions,
             add32 fees (Fee tb)).
Proof.
  intros Hrun Htb Hlen Hinputs Hsound.
  pose proof (NewTransaction_run body privs isCoinbase_ w tb Htb) as Hnew.
  rewrite Hrun in Hnew. cbv zeta in Hnew.
  destruct Hnew as (Hfresh & sigs & Hheap & Hsigs & Hsigned).
  rewrite verifyTransaction_verdict, Hheap. cbn [heap_set_txn h_txns h_tbodies].
  rewrite lookup_insert_eq. cbn [deref Res_bind tx_Body]. rewrite Htb.
  cbn [deref Res_bind tx_Body OwnerSignatures tx_BodyHash fst snd].
  rewrite Hlen, <- Hsigs, Nat.eqb_refl. cbn [negb].
  rewrite <- Hheap.
  rewrite (verifyInputs_accepts allTransactions _ w' (InputTransactionHashes tb) 0 0).
  - reflexivity.
  - intros j hash Hj. cbn [OwnerSignatures tx_BodyHash].
    assert (Hpriv : exists priv, privs !! j = Some priv).
    { apply lookup_lt_is_Some_2. rewrite <- Hlen.
      apply lookup_lt_is_Some_1. eexists; eassumption. }
    destruct Hpriv as [priv Hpriv].
    destruct (Hinputs j hash priv Hj Hpriv) as (t & itx & ibody & Ht & Hitx & Hib & Hown).
    destruct (Hsigned j priv Hpriv) as (r & s & Hsign & Hsg).
    exists t, itx, ibody, {| sig_R := r; sig_S := s |}.
    split; [assumption|]. rewrite Hheap. cbn [heap_set_txn h_txns h_tbodies].
    split.
    { rewrite lookup_insert_ne; [assumption|]. intros <-. congruence. }
    split; [assumption|]. split; [assumption|].
    rewrite Hown. cbn [sig_R sig_S].
    eapply Hsound; [|exact Hsign].
    apply list_elem_of_lookup. exists j. assumption.
Qed.

End Signing.

(** * Validity of mined blocks *)

Section Revalidation.
Context `{P : Primitives}.

Lemma outputValue_of_txns h h' p :
  h_txns h' = h_txns h -> h_tbodies h' = h_tbodies h ->
  outputValue_of h' p = outputValue_of h p.
Proof. intros Ht Hb. unfold outputValue_of. rewrite Ht, Hb. reflexivity. Qed.

Lemma verifyInputs_txns w w' all tx hashes :
  h_txns (heap w') = h_txns (heap w) -> h_tbodies (heap w') = h_tbodies (heap w) ->
  forall i acc,
  fst (verifyInputs all tx i hashes acc w') = fst (verifyInputs all tx i hashes acc w).
Proof.
  intros Ht Hb. induction hashes as [|hash hashes IH]; intros i acc; simpl.
  - reflexivity.
  - destruct (all !! hex_EncodeToString hash) as [p|]; [|reflexivity].
    destruct (OwnerSignatures tx !! i) as [sg|]; [|reflexivity].
    rewrite !fst_bind_reader, !fst_deref_txn, Ht by auto 12 with reader.
    destruct (h_txns (heap w) !! p) as [t|]; simpl; [|reflexivity].
    rewrite !fst_bind_reader, !fst_deref_tbody, Hb by auto 12 with reader.
    destruct (h_tbodies (heap w) !! tx_Body t) as [b|]; simpl; [|reflexivity].
    destruct (negb _); [reflexivity|].
    rewrite !fst_bind_reader, !fst_OutputValue by auto with reader.
    rewrite (outputValue_of_txns (heap w) (heap w')) by assumption.
    destruct (outputValue_of (heap w) p); simpl; [apply IH|reflexivity].
Qed.

Lemma verifyTransaction_txns w w' st p :
  h_txns (heap w') = h_txns (heap w) -> h_tbodies (heap w') = h_tbodies (heap w) ->
  fst (verifyTransaction st p w') = fst (verifyTransaction st p w).
Proof.
  intros Ht Hb. rewrite !verifyTransaction_verdict, Ht.
  destruct (h_txns (heap w) !! p) as [tx|]; simpl; [|reflexivity].
  rewrite Hb.
  destruct (h_tbodies (heap w) !! tx_Body tx) as [body|]; simpl; [|reflexivity].
  rewrite (verifyInputs_txns w w') by assumption. reflexivity.
Qed.

Lemma indexBlock_stable w w' all b :
  h_txns (heap w') = h_txns (heap w) ->
  h_blocks (heap w') !! b = h_blocks (heap w) !! b ->
  (forall blk, h_blocks (heap w) !! b = Some blk ->
     h_bodies (heap w') !! Body blk = h_bodies (heap w) !! Body blk) ->
  fst (indexBlock all b w') = fst (indexBlock all b w).
Proof.
  intros Ht Hb Hq. unfold indexBlock.
  rewrite !fst_bind_reader, !fst_deref_block, Hb by auto 12 with reader.
  destruct (h_blocks (heap w) !! b) as [blk|]; simpl; [|reflexivity].
  rewrite !fst_bind_reader, !fst_deref_body, (Hq blk eq_refl) by auto 12 with reader.
  destruct (h_bodies (heap w) !! Body blk) as [body|]; simpl; [|reflexivity].
  apply similar_foldM; [auto with reader|].
  intros all' p _. rewrite !fst_indexTransaction, Ht. reflexivity.
Qed.

(** A verdict [Ok] carries over to a world in which the chain and all
    transactions are the same objects and the candidate's body has the
    same static fields, as far as the two checks of its time go. *)
Lemma verifyExceptNonce_restamped blocks p w w' nb' nbody' :
  fst (verifyExceptNonce blocks p w) = Ok tt ->
  h_txns (heap w') = h_txns (heap w) ->
  h_tbodies (heap w') = h_tbodies (heap w) ->
  (forall b, b ∈ blocks -> h_blocks (heap w') !! b = h_blocks (heap w) !! b) ->
  (forall b blk, b ∈ blocks -> h_blocks (heap w) !! b = Some blk ->
     h_bodies (heap w') !! Body blk = h_bodies (heap w) !! Body blk) ->
  h_blocks (heap w') !! p = Some nb' ->
  h_bodies (heap w') !! Body nb' = Some nbody' ->
  (forall nb nbody, h_blocks (heap w) !! p = Some nb ->
     h_bodies (heap w) !! Body nb = Some nbody -> same_static nbody nbody') ->
  (forall headBlock hb hbody,
     last blocks = Some headBlock ->
     h_blocks (heap w) !! headBlock = Some hb ->
     h_bodies (heap w) !! Body hb = Some hbody ->
     Time_After (Time_ nbody') (Time_ hbody) = true) ->
  Time_After (Time_ nbody') (clock w' (ticks w')) = false ->
  fst (verifyExceptNonce blocks p w') = Ok tt.
Proof.
  intros Hok Ht Hb Hblocks Hbodies Hnb' Hnbody' Hstatic Hafter Hnow.
  apply verifyExceptNonce_ok in Hok
    as (nb & nbody & cbp & rest & all & cb & st & cbody & Hnb & Hnbody & Hver & Hlink
        & _ & Htxs & Hall & Hcb & Hloop & Hcbody & Hval).
  destruct (Hstatic nb nbody Hnb Hnbody) as (Hv & Hid & Hprev & Htx).
  rewrite verifyExceptNonce_verdict, Hnb'. cbn [deref Res_bind].
  rewrite Hnbody'. cbn [deref Res_bind].
  rewrite Hv, Hver, Z.eqb_refl. cbn [negb].
  assert (Hlink' : fst (verifyLink blocks nbody' w') = Ok tt).
  { apply verifyLink_ok in Hlink. unfold verifyLink.
    destruct (last blocks) as [headBlock|] eqn:Hlast.
    - destruct Hlink as (hb & hbody & Hhb & Hhbody & Hid' & Hprev' & _).
      assert (Hin : headBlock ∈ blocks).
      { apply last_Some in Hlast as [l ->]. apply elem_of_app. right. left. }
      rewrite fst_bind_reader, fst_deref_block, (Hblocks _ Hin), Hhb by auto 12 with reader.
      cbn [deref Res_bind].
      rewrite fst_bind_reader, fst_deref_body, (Hbodies _ _ Hin Hhb), Hhbody
        by auto 12 with reader.
      cbn [deref Res_bind].
      rewrite Hid, Hid', Z.eqb_refl, Hprev, Hprev'. cbn [negb].
      unfold bytes_Equal. rewrite bool_decide_eq_true_2 by reflexivity. cbn [negb].
      rewrite (Hafter headBlock hb hbody eq_refl Hhb Hhbody). reflexivity.
    - rewrite Hid, Hlink. reflexivity. }
  rewrite Hlink'. cbn [Res_bind]. rewrite Hnow, Htx, Htxs.
  rewrite (similar_foldM indexBlock w w'), Hall;
    [|auto with reader
     |intros a b Hin; apply indexBlock_stable;
      [assumption|now apply Hblocks|intros blk; now apply Hbodies]].
  cbn [Res_bind]. rewrite Ht, Hcb. cbn [deref Res_bind].
  rewrite (similar_foldM verifyTransaction w w'), Hloop;
    [|auto with reader|intros; now apply verifyTransaction_txns].
  cbn [Res_bind]. rewrite Hb, Hcbody. cbn [deref Res_bind].
  rewrite Hval, Z.eqb_refl. reflexivity.
Qed.

(** X20. A block [Mine] returns passes the validator again.  When no
    block of the chain shares the body being mined, and the time [Mine]
    stored in the body is after the tip's and not after the next clock
    reading, [verifyExceptNonce] accepts the returned block on the same
    chain in the world [Mine] leaves. *)
Theorem mined_block_is_valid n q w p w' bd' :
  Mine n q w = (Ok p, w') ->
  (forall b, b ∈ Blocks (Chain_ n) ->
     exists blk, h_blocks (heap w) !! b = Some blk /\ Body blk <> q) ->
  h_bodies (heap w') !! q = Some bd' ->
  (forall headBlock hb hbody,
     last (Blocks (Chain_ n)) = Some headBlock ->
     h_blocks (heap w) !! headBlock = Some hb ->
     h_bodies (heap w) !! Body hb = Some hbody ->
     Time_After (Time_ bd') (Time_ hbody) = true) ->
  Time_After (Time_ bd') (clock w' (ticks w')) = false ->
  fst (verifyExceptNonce (Blocks (Chain_ n)) p w') = Ok tt.
Proof.
  unfold Mine. generalize NonceSpace as fuel. intros fuel Hrun Hchain Hbd' Hafter Hnow.
  rewrite Mine_fuel_unfold in Hrun.
  pose proof (NewBlock_outcome q w) as Hnew.
  destruct (NewBlock q w) as [[p0|e| |] w1]; try discriminate.
  destruct Hnew as (Hfresh & (blk & HB & Hheap & Hhashed) & _).
  pose proof (frame_verifyExceptNonce (Blocks (Chain_ n)) p0 w1) as Hframe.
  destruct (verifyExceptNonce (Blocks (Chain_ n)) p0 w1) as [[[]|e| |] w2] eqn:Hv;
    try discriminate.
  simpl in Hframe.
  apply (hashed_heap p0 q _ w1 w2 Hframe) in Hhashed.
  pose proof (Mine_loop_footprint p0 q _ fuel 0 w2 Hhashed) as Hfoot.
  pose proof (fun p' => Mine_loop_blocks p0 q _ fuel 0 w2 p' Hhashed) as Hothers.
  destruct (Mine_loop fuel p0 0 w2) as [[[]|e| |] w3] eqn:Hloop; try discriminate.
  injection Hrun as <- <-. simpl in Hfoot, Hothers.
  apply (Mine_loop_hashed p0 q _ fuel 0 w2 w3 Hhashed) in Hloop
    as ((nb' & bd3 & Hnb' & HB' & _ & Hbd3 & _) & _).
  rewrite Hframe in Hfoot, Hothers.
  destruct Hfoot as (Ht & Htb & Hrest & Hq & _).
  assert (Hne : forall b, b ∈ Blocks (Chain_ n) -> b <> p0).
  { intros b Hb ->. destruct (Hchain _ Hb) as (blk0 & Hblk0 & _). congruence. }
  assert (Hold : forall b, b <> p0 -> h_blocks (heap w1) !! b = h_blocks (heap w) !! b).
  { intros b Hb. rewrite Hheap. simpl. now rewrite lookup_insert_ne. }
  assert (Hbodies1 : h_bodies (heap w1) = h_bodies (heap w)) by now rewrite Hheap.
  apply (verifyExceptNonce_restamped _ p0 w1 w3 nb' bd').
  - rewrite Hv. reflexivity.
  - assumption.
  - assumption.
  - intros b Hb. apply Hothers. now apply Hne.
  - intros b blk0 Hb Hblk0. apply Hrest.
    rewrite Hold in Hblk0 by now apply Hne.
    destruct (Hchain _ Hb) as (blk1 & Hblk1 & Hq1). congruence.
  - assumption.
  - rewrite HB'. assumption.
  - intros nb nbody Hnb Hnbody.
    rewrite Hheap in Hnb. simpl in Hnb. rewrite lookup_insert_eq in Hnb.
    injection Hnb as <-. rewrite HB in Hnbody.
    destruct (Hq nbody Hnbody) as (bd4 & Hbd4 & Hsame). congruence.
  - intros headBlock hb hbody Hlast Hhb Hhbody.
    assert (Hin : headBlock ∈ Blocks (Chain_ n)).
    { apply last_Some in Hlast as [l ->]. apply elem_of_app. right. left. }
    rewrite Hold in Hhb by now apply Hne. rewrite Hbodies1 in Hhbody.
    exact (Hafter headBlock hb hbody Hlast Hhb Hhbody).
  - assumption.
Qed.

End Revalidation.

(** * Output values *)

Section Outputs.
Context `{P : Primitives}.

Lemma sub32_wraps iv c f :
  uint32 iv ->
  let v := sub32 (sub32 iv c) f in
  uint32 v
  /\ add32 (add32 v c) f = iv
  /\ (v <= iv <-> add32 c f <= iv).
Proof.
  unfold uint32, sub32, add32, wrap32. intros Hiv. cbv zeta.
  set (M := 2 ^ 32) in *. assert (HM : 0 < M) by (subst M; lia).
  rewrite Zminus_mod_idemp_l.
  split; [apply Z.mod_pos_bound; lia|]. split.
  - rewrite Zplus_mod_idemp_l, <- Z.add_assoc, Zplus_mod_idemp_l.
    replace (iv - c - f + (c + f)) with iv by lia. apply Z.mod_small; lia.
  - replace (iv - c - f) with (iv - (c + f)) by lia.
    rewrite <- Zminus_mod_idemp_r.
    pose proof (Z.mod_pos_bound (c + f) M HM) as Hd.
    set (d := (c + f) mod M) in *.
    destruct (Z_le_gt_dec d iv) as [Hle|Hgt].
    + rewrite Z.mod_small by lia. lia.
    + rewrite <- (Z.mod_add (iv - d) 1 M) by lia.
      rewrite Z.mod_small by lia. lia.
Qed.

(** X17. [OutputValue] on a transaction that resolves returns a
    [uint32]: the input value for a coinbase, and otherwise the value that
    with the change and the fee adds up to the input value in [uint32]
    arithmetic.  That value is at most the input value exactly when the
    [uint32] sum of change and fee is, which is the validator's test; it
    wraps above the input value otherwise. *)
Theorem OutputValue_conserves t w tx body :
  h_txns (heap w) !! t = Some tx ->
  h_tbodies (heap w) !! tx_Body tx = Some body ->
  uint32 (InputValue body) ->
  exists v,
    OutputValue t w = (Ok v, w)
    /\ uint32 v
    /\ if isCoinbase tx then v = InputValue body
       else add32 (add32 v (Change body)) (Fee body) = InputValue body
            /\ (v <= InputValue body
                <-> add32 (Change body) (Fee body) <= InputValue body).
Proof.
  intros Htx Hbody Hiv.
  rewrite (reader_run (OutputValue t) w) by apply reader_OutputValue.
  rewrite fst_OutputValue. unfold outputValue_of. rewrite Htx, Hbody.
  cbn [deref]. eexists. split; [reflexivity|].
  destruct (isCoinbase tx).
  - split; [assumption|reflexivity].
  - destruct (sub32_wraps (InputValue body) (Change body) (Fee body) Hiv)
      as (Hv & Hsum & Hle).
    split; [assumption|]. split; assumption.
Qed.

End Outputs.

(** * Errors of the block checks *)

Section BlockErrors.
Context `{P : Primitives}.

(** X18. The errors of the block-level checks, in the order of the
    code.  A wrong version is reported first.  On a non-empty chain a nil
    tip panics; with the right id, a [PrevHash] other than the tip's hash
    is reported, and then a time not after the tip's.  Once the linkage
    checks pass, a time after the clock reading is reported, and then an
    empty transaction list. *)
Theorem block_errors blocks newBlock w nb nbody :
  h_blocks (heap w) !! newBlock = Some nb ->
  h_bodies (heap w) !! Body nb = Some nbody ->
  let verdict := fst (verifyExceptNonce blocks newBlock w) in
  (Version nbody <> CurrentVersion -> verdict = Err VersionMismatch)
  /\ (Version nbody = CurrentVersion ->
      forall headBlock, last blocks = Some headBlock ->
        (h_blocks (heap w) !! headBlock = None -> verdict = Panic)
        /\ forall hb hbody,
             h_blocks (heap w) !! headBlock = Some hb ->
             h_bodies (heap w) !! Body hb = Some hbody ->
             Id nbody = add32 (Id hbody) 1 ->
             (PrevHash nbody <> BodyHash hb -> verdict = Err PrevHashMismatch)
             /\ (PrevHash nbody = BodyHash hb ->
                 Time_After (Time_ nbody) (Time_ hbody) = false ->
                 verdict = Err NonMonotonicTimestamp))
  /\ (Version nbody = CurrentVersion ->
      fst (verifyLink blocks nbody w) = Ok tt ->
      (Time_After (Time_ nbody) (clock w (ticks w)) = true ->
       verdict = Err FutureTimestamp)
      /\ (Time_After (Time_ nbody) (clock w (ticks w)) = false ->
          Transactions nbody = [] -> verdict = Err EmptyBlock)).
Proof.
  intros Hnb Hnbody verdict. subst verdict.
  rewrite verifyExceptNonce_verdict, Hnb. cbn [deref Res_bind].
  rewrite Hnbody. cbn [deref Res_bind].
  split; [|split].
  - intros Hv. apply Z.eqb_neq in Hv. rewrite Hv. reflexivity.
  - intros Hv headBlock Hlast. rewrite Hv, Z.eqb_refl. cbn [negb].
    unfold verifyLink. rewrite Hlast.
    rewrite fst_bind_reader, fst_deref_block by auto 12 with reader.
    split.
    + intros Hnone. rewrite Hnone. reflexivity.
    + intros hb hbody Hhb Hhbody Hid. rewrite Hhb. cbn [deref Res_bind].
      rewrite fst_bind_reader, fst_deref_body, Hhbody by auto 12 with reader.
      cbn [deref Res_bind]. rewrite <- Hid, Z.eqb_refl. cbn [negb].
      unfold bytes_Equal. split.
      * intros Hprev. rewrite bool_decide_eq_false_2 by assumption. reflexivity.
      * intros Hprev Hafter. rewrite bool_decide_eq_true_2 by assumption.
        cbn [negb]. rewrite Hafter. reflexivity.
  - intros Hv Hlink. rewrite Hv, Z.eqb_refl, Hlink. cbn [negb Res_bind]. split.
    + intros ->. reflexivity.
    + intros -> ->. reflexivity.
Qed.

End BlockErrors.

(** * Framing of the hashed fields *)

Section Framing.
Context `{P : Primitives}.

(** X19. [hash] writes the input hashes one after the other with no
    length or separator: two bodies with the same owner and values whose
    input hashes concatenate to the same bytes have the same hash,
    whatever the digest function. *)
Theorem TransactionBody_hash_unframed t t' w tb tb' :
  h_tbodies (heap w) !! t = Some tb ->
  h_tbodies (heap w) !! t' = Some tb' ->
  concat (InputTransactionHashes tb') = concat (InputTransactionHashes tb) ->
  tbody_view tb' = tbody_view tb ->
  fst (TransactionBody_hash t' w) = fst (TransactionBody_hash t w).
Proof.
  intros Ht Ht' Hcat Hview. injection Hview as Ho Hi Hc Hf.
  unfold TransactionBody_hash.
  rewrite !fst_bind_reader, !fst_deref_tbody, Ht, Ht' by auto with reader.
  cbn [deref Res_bind ret fst]. rewrite Hcat, Ho, Hi, Hc, Hf. reflexivity.
Qed.

End Framing.

(** * Instances of the properties above *)

Lemma hex_EncodeToString_injective_witness : [x0a; xff] = [x0a; xff].
Proof.
  exact (proj2 (hex_EncodeToString_injective [x0a; xff]) [x0a; xff] eq_refl).
Defined.

(** The lookup of the one-block chain of [w_linked] holds only
    transactions of that chain. *)
Lemma chain_lookup_witness :
  exists allTransactions,
    fst (foldM indexBlock [1%positive] ∅ Toy.w_linked) = Ok allTransactions
    /\ forall k p, allTransactions !! k = Some p ->
         p ∈ chain_txns (heap Toy.w_linked) [1%positive].
Proof.
  pose (w := Toy.w_linked).
  resolve_ok idx (fst (foldM indexBlock [1%positive] ∅ w)).
  exists idx. split; [by_eval|].
  intros k p Hk.
  exact (proj1 (proj1 (chain_lookup (P := Toy.primitives) [1%positive] w idx
                         ltac:(by_eval)) k p Hk)).
Defined.

(** In [w_genesis] the second transaction of the candidate resolves and
    its one input is signed. *)
Lemma accepted_inputs_are_signed_witness :
  exists tx body,
    h_txns (heap Toy.w_genesis) !! 2%positive = Some tx
    /\ h_tbodies (heap Toy.w_genesis) !! tx_Body tx = Some body.
Proof.
  destruct (accepted_inputs_are_signed (P := Toy.primitives) [] 1%positive
              Toy.w_genesis ltac:(by_eval) 0%nat 2%positive ltac:(by_eval))
    as (tx & body & Htx & Hb & _).
  exists tx, body. split; assumption.
Defined.

(** The heap of [w_genesis] is well formed for its candidate. *)
Lemma verifyExceptNonce_no_panic_witness :
  fst (verifyExceptNonce [] 1%positive Toy.w_genesis) <> Panic.
Proof.
  apply (verifyExceptNonce_no_panic (P := Toy.primitives)).
  intros b Hb. apply list_elem_of_singleton in Hb. subst b. split.
  - eexists. reflexivity.
  - intros t Ht. apply list_elem_of_In in Ht. vm_compute in Ht.
    destruct Ht as [<-|[<-|[]]]; eexists; reflexivity.
Defined.

(** In [w_block], [SetFields] on block 1 stores nonce 3 in body 1. *)
Lemma SetFields_effect_witness :
  (Nonce <$> h_bodies (heap Toy.w_set) !! 1%positive) = Some 3.
Proof.
  pose (w := Toy.w_block).
  resolve blk (h_blocks (heap w) !! 1%positive).
  resolve body (h_bodies (heap w) !! Body blk).
  destruct (SetFields_effect (P := Toy.primitives) 1%positive 3 1005 w blk body
              ltac:(by_eval) ltac:(by_eval)) as (_ & _ & Hstored & _).
  exact (f_equal (fmap Nonce) Hstored).
Defined.

(** On [w_overpaid] the validator rejects the block for its coinbase
    value, and so does [Mine]. *)
Lemma Mine_footprint_witness :
  fst (Mine Toy.node 1%positive Toy.w_overpaid) = Err CoinbaseValueMismatch.
Proof.
  exact (proj1 (proj2 (proj2 (Mine_footprint (P := Toy.primitives) Toy.node 1%positive
                         Toy.w_overpaid))
                  1%positive (snd (NewBlock 1%positive Toy.w_overpaid))
                  CoinbaseValueMismatch
                  (run_eq (NewBlock 1%positive) Toy.w_overpaid (Ok 1%positive)
                     ltac:(by_eval))
                  ltac:(by_eval))).
Defined.

(** On [w_body] the trial with nonce 0 fails and the trial with nonce 1
    succeeds: [Mine] returns block 1 with nonce 1 after three clock
    readings. *)
Lemma Mine_first_valid_witness :
  exists w' bd,
    Mine Toy.node 1%positive Toy.w_body = (Ok 1%positive, w')
    /\ ticks w' = 3%nat
    /\ h_bodies (heap w') !! 1%positive = Some bd
    /\ Nonce bd = 1.
Proof.
  pose (w := Toy.w_body).
  resolve_ok s (fst (staticHash 1%positive w)).
  resolve_ok h (calculateBodyHash (P := Toy.primitives) s 1 1002).
  destruct (Mine_first_valid (P := Toy.primitives) Toy.node 1%positive w 1%positive
              (snd (NewBlock 1%positive w)) s 1%nat h
              (run_eq (NewBlock 1%positive) w (Ok 1%positive) ltac:(by_eval))
              ltac:(by_eval) ltac:(by_eval) ltac:(by_eval))
    as (w' & bd & Hrun & Ht & _ & Hbd & Hn & _).
  - intros i Hi. destruct i as [|i]; [|lia].
    eexists. split; [reflexivity|by_eval].
  - by_eval.
  - by_eval.
  - exists w', bd. repeat split; assumption.
Defined.

(** The candidates of [w_unsigned], [w_dangling] and [w_forged] are
    rejected for the signature count, the unknown input and the invalid
    signature. *)
Lemma input_errors_witness :
  fst (verifyExceptNonce [] 1%positive Toy.w_unsigned) = Err SignatureCountMismatch
  /\ fst (verifyExceptNonce [] 1%positive Toy.w_dangling) = Err UnknownInput
  /\ fst (verifyExceptNonce [] 1%positive Toy.w_forged) = Err InvalidSignature.
Proof.
  split; [|split].
  - pose (w := Toy.w_unsigned).
    resolve nb (h_blocks (heap w) !! 1%positive).
    resolve nbody (h_bodies (heap w) !! Body nb).
    resolve cb (h_txns (heap w) !! 1%positive).
    resolve tx (h_txns (heap w) !! 2%positive).
    resolve body (h_tbodies (heap w) !! tx_Body tx).
    exact (proj1 (input_errors (P := Toy.primitives) [] 1%positive w nb nbody
                    1%positive [] 2%positive [] cb ∅
                    (seedTransactions ∅ 1%positive cb, 0) tx body
                    ltac:(by_eval) ltac:(by_eval) ltac:(by_eval) ltac:(by_eval)
                    ltac:(by_eval) ltac:(by_eval) ltac:(by_eval) ltac:(by_eval)
                    ltac:(by_eval) ltac:(by_eval) ltac:(by_eval))
             ltac:(by_eval)).
  - pose (w := Toy.w_dangling).
    resolve nb (h_blocks (heap w) !! 1%positive).
    resolve nbody (h_bodies (heap w) !! Body nb).
    resolve cb (h_txns (heap w) !! 1%positive).
    resolve tx (h_txns (heap w) !! 2%positive).
    resolve body (h_tbodies (heap w) !! tx_Body tx).
    exact (proj1 (proj2 (input_errors (P := Toy.primitives) [] 1%positive w nb nbody
                    1%positive [] 2%positive [] cb ∅
                    (seedTransactions ∅ 1%positive cb, 0) tx body
                    ltac:(by_eval) ltac:(by_eval) ltac:(by_eval) ltac:(by_eval)
                    ltac:(by_eval) ltac:(by_eval) ltac:(by_eval) ltac:(by_eval)
                    ltac:(by_eval) ltac:(by_eval) ltac:(by_eval))
                    [] [x2a] [] 0 ltac:(by_eval) ltac:(by_eval) ltac:(by_eval))
             ltac:(by_eval)).
  - pose (w := Toy.w_forged).
    resolve nb (h_blocks (heap w) !! 1%positive).
    resolve nbody (h_bodies (heap w) !! Body nb).
    resolve cb (h_txns (heap w) !! 1%positive).
    resolve cbody (h_tbodies (heap w) !! tx_Body cb).
    resolve tx (h_txns (heap w) !! 2%positive).
    resolve body (h_tbodies (heap w) !! tx_Body tx).
    resolve sg (OwnerSignatures tx !! 0%nat).
    exact (proj2 (proj2 (input_errors (P := Toy.primitives) [] 1%positive w nb nbody
                    1%positive [] 2%positive [] cb ∅
                    (seedTransactions ∅ 1%positive cb, 0) tx body
                    ltac:(by_eval) ltac:(by_eval) ltac:(by_eval) ltac:(by_eval)
                    ltac:(by_eval) ltac:(by_eval) ltac:(by_eval) ltac:(by_eval)
                    ltac:(by_eval) ltac:(by_eval) ltac:(by_eval))
                    [] (tx_BodyHash cb) [] 0
                    ltac:(by_eval) ltac:(by_eval) ltac:(by_eval))
             1%positive cb cbody sg
             ltac:(by_eval) ltac:(by_eval) ltac:(by_eval) ltac:(by_eval)
             ltac:(by_eval)).
Defined.

(** In [w_tbody], [NewTransaction] on body 1 with alice's key returns
    transaction 1, which was not in use. *)
Lemma NewTransaction_effect_witness :
  fst (NewTransaction 1%positive [Toy.alice] false Toy.w_tbody) = Ok 1%positive
  /\ h_txns (heap Toy.w_tbody) !! 1%positive = None.
Proof.
  pose (w := Toy.w_tbody).
  resolve tb (h_tbodies (heap w) !! 1%positive).
  split; [by_eval|].
  exact (proj1 (proj1 (NewTransaction_effect (P := Toy.primitives) 1%positive
                         [Toy.alice] false w tb ltac:(by_eval))
                  1%positive (snd (NewTransaction 1%positive [Toy.alice] false w))
                  (run_eq (NewTransaction 1%positive [Toy.alice] false) w
                     (Ok 1%positive) ltac:(by_eval)))).
Defined.

(** In [w_spend], the body 2 spends the output of transaction 1, owned
    by alice: signed with alice's key it passes the validator's checks. *)
Lemma signed_by_owners_verifies_witness :
  exists idx p w' st,
    NewTransaction 2%positive [Toy.alice] false Toy.w_spend = (Ok p, w')
    /\ fst (verifyTransaction (idx, 0) p w') = Ok st.
Proof.
  pose (w := Toy.w_spend).
  resolve cb (h_txns (heap w) !! 1%positive).
  resolve tb (h_tbodies (heap w) !! 2%positive).
  pose (idx := seedTransactions ∅ 1%positive cb).
  pose (w' := snd (NewTransaction 2%positive [Toy.alice] false w)).
  resolve_ok st (fst (verifyTransaction (idx, 0) 2%positive w')).
  exists idx, 2%positive, w', st.
  assert (Hrun : NewTransaction 2%positive [Toy.alice] false w = (Ok 2%positive, w'))
    by (apply run_eq; by_eval).
  split; [exact Hrun|].
  rewrite (signed_by_owners_verifies (P := Toy.primitives) 2%positive [Toy.alice] false
             w 2%positive w' tb idx 0 Hrun ltac:(by_eval) ltac:(by_eval)).
  - by_eval.
  - intros i hash priv Hi Hp. destruct i as [|i]; [|discriminate].
    injection Hi as <-. injection Hp as <-.
    exists 1%positive. eexists. eexists.
    split; [by_eval|]. split; [by_eval|]. split; by_eval.
  - intros priv k h r s Hin Hsign. apply list_elem_of_singleton in Hin. subst priv.
    injection Hsign as <- <-.
    apply Z.eqb_eq. cbn [sk_Public sk_D pk_X Toy.alice Toy.key]. lia.
Defined.

(** In [w_genesis] the second transaction has input value 12, change 5
    and fee 2: its output value is a [uint32]. *)
Lemma OutputValue_conserves_witness :
  exists v, OutputValue 2%positive Toy.w_genesis = (Ok v, Toy.w_genesis) /\ uint32 v.
Proof.
  pose (w := Toy.w_genesis).
  resolve tx (h_txns (heap w) !! 2%positive).
  resolve body (h_tbodies (heap w) !! tx_Body tx).
  destruct (OutputValue_conserves (P := Toy.primitives) 2%positive w tx body
              ltac:(by_eval) ltac:(by_eval) ltac:(by_range))
    as (v & Hrun & Hv & _).
  exists v. split; assumption.
Defined.

(** The candidate of [w_future] is stamped 2000 while the clock reads
    1000. *)
Lemma block_errors_witness :
  fst (verifyExceptNonce [] 1%positive Toy.w_future) = Err FutureTimestamp.
Proof.
  pose (w := Toy.w_future).
  resolve nb (h_blocks (heap w) !! 1%positive).
  resolve nbody (h_bodies (heap w) !! Body nb).
  exact (proj1 (proj2 (proj2 (block_errors (P := Toy.primitives) [] 1%positive w nb nbody
                                ltac:(by_eval) ltac:(by_eval)))
                  ltac:(by_eval) ltac:(by_eval))
           ltac:(by_eval)).
Defined.

(** The bodies of [w_unframed], with inputs [[01]; [02]] and [[01 02]],
    have the same hash. *)
Lemma TransactionBody_hash_unframed_witness :
  fst (TransactionBody_hash 2%positive Toy.w_unframed)
  = fst (TransactionBody_hash 1%positive Toy.w_unframed).
Proof.
  pose (w := Toy.w_unframed).
  resolve tb (h_tbodies (heap w) !! 1%positive).
  resolve tb' (h_tbodies (heap w) !! 2%positive).
  exact (TransactionBody_hash_unframed (P := Toy.primitives) 1%positive 2%positive w
           tb tb' ltac:(by_eval) ltac:(by_eval) ltac:(by_eval) ltac:(by_eval)).
Defined.

(** On the one-block chain of [w_linked], the block mined from the
    candidate's body passes the validator again. *)
Lemma mined_block_is_valid_witness :
  exists p w',
    Mine Toy.node1 2%positive Toy.w_linked = (Ok p, w')
    /\ fst (verifyExceptNonce [1%positive] p w') = Ok tt.
Proof.
  pose (w := Toy.w_linked).
  pose (w' := snd (Mine_fuel 10 Toy.node1 2%positive w)).
  assert (Hmine : Mine Toy.node1 2%positive w = (Ok 3%positive, w')).
  { apply (Mine_fuel_enough 10).
    - pose proof NonceSpace_Z. lia.
    - apply run_eq. by_eval.
    - discriminate. }
  resolve bd' (h_bodies (heap w') !! 2%positive).
  exists 3%positive, w'. split; [exact Hmine|].
  apply (mined_block_is_valid (P := Toy.primitives) Toy.node1 2%positive w 3%positive w'
           bd' Hmine).
  - intros b Hb. apply list_elem_of_singleton in Hb. subst b.
    eexists. split; [by_eval|by_eval].
  - by_eval.
  - intros headBlock hb hbody Hlast Hhb Hhbody.
    injection Hlast as <-.
    resolve hb0 (h_blocks (heap w) !! 1%positive).
    pose proof (eq_trans (eq_sym Hhb) (ltac:(by_eval) : _ = Some hb0)) as Ehb.
    injection Ehb as ->.
    resolve hbody0 (h_bodies (heap w) !! Body hb0).
    pose proof (eq_trans (eq_sym Hhbody) (ltac:(by_eval) : _ = Some hbody0)) as Ehbody.
    injection Ehbody as ->.
    by_eval.
  - by_eval.
Defined.
